(** * Finance3D-Polar: dashboard layout engine and live-price multiplexer

  A shallow embedding of
  - the widget collection of the flexible dashboard
    ([addWidget], [removeWidget], [moveWidget], [resizeWidget],
    [toggleMaximize] and the two layout effects),
  - the pointer-move handler of [FlexibleCard] ([handleMouseMove]),
  - the ticker normaliser [convertTickerFormat] and the shared
    subscription state of [useLiveCryptoPrice],
  - the other handlers of [FlexibleCard] and its use by
    [DraggableWidget], the message handler and the hook of
    [useLiveCryptoPrice], the ticker spellings of the chart components, and
    the candles of [SimpleCandlestickChart].

  JavaScript numbers are modelled as exact rationals ([Q]): the finite
  values of the code, without rounding, NaN or infinities.  Strings are
  sequences of one-byte code units. *)

From stdpp Require Import gmap strings pretty list.
From Stdlib Require Import QArith Qminmax Qround Lqa ZArith NArith Lia.
From Stdlib Require Import Ascii String List.
Import ListNotations.

Close Scope Q_scope.

#[global] Set Warnings "-clear-no-such-hyp".

(** ** Numbers *)

Module JSNumber.
Local Open Scope Q_scope.

(** [Math.max(a, b)] on finite numbers. *)
Definition Math_max (a b : Q) : Q := Qmax a b.

(** [a !== b] on numbers compares values. *)
Definition strict_neq (a b : Q) : bool := negb (Qeq_bool a b).

End JSNumber.

(** ** Strings *)

Module JSString.

(** [s.includes(needle)] *)
Fixpoint includes (needle s : string) : bool :=
  String.prefix needle s
  || match s with
     | EmptyString => false
     | String _ s' => includes needle s'
     end.

(** [s.endsWith(suffix)] *)
Fixpoint endsWith (suffix s : string) : bool :=
  String.eqb suffix s
  || match s with
     | EmptyString => false
     | String _ s' => endsWith suffix s'
     end.

(** The rest of [s] after the prefix [p], when [s] starts with [p]. *)
Fixpoint strip_prefix (p s : string) : option string :=
  match p with
  | EmptyString => Some s
  | String a p' =>
      match s with
      | EmptyString => None
      | String b s' => if Ascii.eqb a b then strip_prefix p' s' else None
      end
  end.

(** [s.replace(pat, rep)] with a string pattern: the first occurrence only. *)
Fixpoint replace (pat rep s : string) : string :=
  match strip_prefix pat s with
  | Some rest => rep +:+ rest
  | None =>
      match s with
      | EmptyString => EmptyString
      | String c s' => String c (replace pat rep s')
      end
  end.

(** [s.split(sep)[0]] for a one-character separator. *)
Fixpoint split_head (sep : ascii) (s : string) : string :=
  match s with
  | EmptyString => EmptyString
  | String c s' =>
      if Ascii.eqb c sep then EmptyString else String c (split_head sep s')
  end.

(** [s.substring(0, n)] and [s.substring(n)]. *)
Definition substring_to (n : nat) (s : string) : string :=
  String.substring 0 n s.

Definition substring_from (n : nat) (s : string) : string :=
  String.substring n (String.length s - n) s.

End JSString.

(** ** JSON text *)

Module JSON.

(** The values [JSON.parse] returns.  An object is the list of its
    members in source order; a property read takes the last member with
    the key, as a repeated key overrides. *)
#[warnings="-register-all"]
Inductive json :=
| JNull
| JBool (b : bool)
| JNum (q : Q)
| JStr (s : string)
| JArr (items : list json)
| JObj (members : list (string * json)).

Definition text := list ascii.

Definition chars (s : string) : text := list_ascii_of_string s.

(** *** Numbers *)

Definition digit_char (d : N) : ascii := ascii_of_N (48 + d).

Definition digit_of (c : ascii) : option N :=
  let n := N_of_ascii c in
  if (48 <=? n)%N && (n <=? 57)%N then Some (n - 48)%N else None.

Definition is_digit (c : ascii) : bool :=
  match digit_of c with Some _ => true | None => false end.

(** The number written by a run of digits, most significant first. *)
Definition digits_value (ds : list N) : N :=
  fold_left (fun acc d => (10 * acc + d)%N) ds 0%N.

(** The decimal digits of [n], prepended to [acc]. *)
Fixpoint digits_onto (fuel : nat) (n : N) (acc : list N) : list N :=
  match fuel with
  | O => acc
  | S fuel =>
      let acc := (n mod 10)%N :: acc in
      if (n / 10 =? 0)%N then acc else digits_onto fuel (n / 10)%N acc
  end.

Definition digits_of_N (n : N) : list N :=
  digits_onto (S (N.to_nat (N.log2 n))) n [].

(** Long division: the digits of [r / d] after the point, for [r < d];
    it stops at a zero remainder, or when the fuel is spent. *)
Fixpoint fraction_digits (fuel : nat) (r d : N) : list N :=
  match fuel with
  | O => []
  | S fuel =>
      if (r =? 0)%N then []
      else (10 * r / d)%N :: fraction_digits fuel (10 * r mod d)%N d
  end.

(** Whether the long division reaches a zero remainder within the fuel. *)
Fixpoint fraction_exact (fuel : nat) (r d : N) : bool :=
  match fuel with
  | O => (r =? 0)%N
  | S fuel =>
      (r =? 0)%N || fraction_exact fuel (10 * r mod d)%N d
  end.

Definition fraction_fuel (d : N) : nat := S (N.to_nat (N.log2 d)).

(** The numbers JSON text carries exactly: the rationals with a finite
    decimal expansion, as every finite double is. *)
Definition decimal (q : Q) : bool :=
  fraction_exact (fraction_fuel (Npos (Qden q)))
    (Z.abs_N (Qnum q) mod Npos (Qden q))%N (Npos (Qden q)).

(** [JSON.stringify] of a number: sign, integer part, and the fraction
    digits after a point when there are any. *)
Definition print_number (q : Q) : text :=
  let n := Z.abs_N (Qnum q) in
  let d := Npos (Qden q) in
  let frac := fraction_digits (fraction_fuel d) (n mod d)%N d in
  (if (Qnum q <? 0)%Z then ["-"%char] else [])
  ++ List.map digit_char (digits_of_N (n / d)%N)
  ++ match frac with
     | [] => []
     | _ => "."%char :: List.map digit_char frac
     end.

(** The longest run of digits at the head of the text. *)
Fixpoint read_digits (t : text) : list N * text :=
  match t with
  | c :: t' =>
      match digit_of c with
      | Some d => let '(ds, rest) := read_digits t' in (d :: ds, rest)
      | None => ([], t)
      end
  | [] => ([], [])
  end.

(** [m / 10^k * 10^e] for a signed exponent [e], in lowest terms. *)
Definition scale10 (m : Z) (k : nat) (e : Z) : Q :=
  if (0 <=? e)%Z
  then Qred ((m * 10 ^ e)%Z # Z.to_pos (10 ^ Z.of_nat k))
  else Qred (m # Z.to_pos (10 ^ (Z.of_nat k - e))).

(** The exponent part [[eE][+-]?digits], when there is one. *)
Definition read_exponent (t : text) : option (Z * text) :=
  match t with
  | c :: t' =>
      if Ascii.eqb c "e" || Ascii.eqb c "E" then
        let '(sign, t'') :=
          match t' with
          | s :: u =>
              if Ascii.eqb s "-" then (true, u)
              else if Ascii.eqb s "+" then (false, u)
              else (false, t')
          | [] => (false, t')
          end in
        match read_digits t'' with
        | ([], _) => None
        | (ds, rest) =>
            let e := Z.of_N (digits_value ds) in
            Some (if sign then (- e)%Z else e, rest)
        end
      else Some (0%Z, t)
  | [] => Some (0%Z, t)
  end.

(** The sign [-], when there is one. *)
Definition read_sign (t : text) : bool * text :=
  match t with
  | c :: t' => if Ascii.eqb c "-" then (true, t') else (false, t)
  | [] => (false, t)
  end.

(** The fraction part [. digits], when there is one. *)
Definition read_fraction (t : text) : option (list N * text) :=
  match t with
  | c :: t' =>
      if Ascii.eqb c "." then
        match read_digits t' with
        | ([], _) => None
        | (frac, rest) => Some (frac, rest)
        end
      else Some ([], t)
  | [] => Some ([], t)
  end.

(** The number grammar of JSON: [-? int frac? exp?], where [int] has no
    leading zero. *)
Definition parse_number (t : text) : option (Q * text) :=
  let '(neg, t) := read_sign t in
  match read_digits t with
  | ([], _) => None
  | (0%N :: _ :: _, _) => None
  | (int, t) =>
      match read_fraction t with
      | None => None
      | Some (frac, t) =>
          match read_exponent t with
          | None => None
          | Some (e, rest) =>
              let k := List.length frac in
              let m :=
                Z.of_N (digits_value int * 10 ^ N.of_nat k
                        + digits_value frac) in
              Some (scale10 (if neg then (- m)%Z else m) k e, rest)
          end
      end
  end.

(** *** Strings *)

Definition hex_char (n : N) : ascii :=
  if (n <? 10)%N then ascii_of_N (48 + n) else ascii_of_N (87 + n).

Definition hex_of (c : ascii) : option N :=
  let n := N_of_ascii c in
  if (48 <=? n)%N && (n <=? 57)%N then Some (n - 48)%N
  else if (97 <=? n)%N && (n <=? 102)%N then Some (n - 87)%N
  else if (65 <=? n)%N && (n <=? 70)%N then Some (n - 55)%N
  else None.

(** How [JSON.stringify] writes one code unit inside a string. *)
Definition escape (c : ascii) : text :=
  let n := N_of_ascii c in
  if Ascii.eqb c "034" then ["\"; "034"]%char
  else if Ascii.eqb c "\" then ["\"; "\"]%char
  else if (n =? 8)%N then ["\"; "b"]%char
  else if (n =? 12)%N then ["\"; "f"]%char
  else if (n =? 10)%N then ["\"; "n"]%char
  else if (n =? 13)%N then ["\"; "r"]%char
  else if (n =? 9)%N then ["\"; "t"]%char
  else if (n <? 32)%N then
    ["\"; "u"; "0"; "0"; hex_char (n / 16); hex_char (n mod 16)]%char
  else [c].

Definition print_string (s : string) : text :=
  "034"%char :: flat_map escape (chars s) ++ ["034"%char].

(** The code unit a one-letter escape stands for. *)
Definition unescape (e : ascii) : option ascii :=
  if Ascii.eqb e "034" then Some "034"%char
  else if Ascii.eqb e "\" then Some "\"%char
  else if Ascii.eqb e "/" then Some "/"%char
  else if Ascii.eqb e "b" then Some "008"%char
  else if Ascii.eqb e "f" then Some "012"%char
  else if Ascii.eqb e "n" then Some "010"%char
  else if Ascii.eqb e "r" then Some "013"%char
  else if Ascii.eqb e "t" then Some "009"%char
  else None.

Definition hex4 (h1 h2 h3 h4 : ascii) : option N :=
  match hex_of h1, hex_of h2, hex_of h3, hex_of h4 with
  | Some a, Some b, Some c, Some d =>
      Some (((a * 16 + b) * 16 + c) * 16 + d)%N
  | _, _, _, _ => None
  end.

(** The code units of a string literal after its opening quote, up to the
    closing one.  A raw control character is refused; so is a [\u] escape
    above [\u00ff], which a one-byte code unit cannot hold. *)
Fixpoint parse_chars (t : text) : option (list ascii * text) :=
  match t with
  | [] => None
  | c :: t' =>
      if Ascii.eqb c "034" then Some ([], t')
      else if Ascii.eqb c "\" then
        match t' with
        | [] => None
        | e :: t'' =>
            if Ascii.eqb e "u" then
              match t'' with
              | h1 :: h2 :: h3 :: h4 :: t3 =>
                  match hex4 h1 h2 h3 h4 with
                  | Some n =>
                      if (n <? 256)%N then
                        match parse_chars t3 with
                        | Some (cs, rest) => Some (ascii_of_N n :: cs, rest)
                        | None => None
                        end
                      else None
                  | None => None
                  end
              | _ => None
              end
            else
              match unescape e with
              | Some ch =>
                  match parse_chars t'' with
                  | Some (cs, rest) => Some (ch :: cs, rest)
                  | None => None
                  end
              | None => None
              end
        end
      else if (N_of_ascii c <? 32)%N then None
      else
        match parse_chars t' with
        | Some (cs, rest) => Some (c :: cs, rest)
        | None => None
        end
  end.

Definition parse_string (t : text) : option (string * text) :=
  match parse_chars t with
  | Some (cs, rest) => Some (string_of_list_ascii cs, rest)
  | None => None
  end.

(** *** Values *)

Definition is_ws (c : ascii) : bool :=
  Ascii.eqb c " " || Ascii.eqb c "009" || Ascii.eqb c "010"
  || Ascii.eqb c "013".

Fixpoint skip_ws (t : text) : text :=
  match t with
  | c :: t' => if is_ws c then skip_ws t' else t
  | [] => []
  end.

(** The rest of [t] after the literal [p]. *)
Fixpoint strip (p t : text) : option text :=
  match p with
  | [] => Some t
  | a :: p' =>
      match t with
      | b :: t' => if Ascii.eqb a b then strip p' t' else None
      | [] => None
      end
  end.

(** The items of an array after its opening bracket, and the members of
    an object after its opening brace, given the printer of a value. *)
Definition print_items (pr : json -> text) : list json -> text :=
  fix go (l : list json) : text :=
    match l with
    | [] => ["]"%char]
    | x :: l' =>
        pr x ++ match l' with [] => go l' | _ :: _ => ","%char :: go l' end
    end.

Definition print_members (pr : json -> text)
    : list (string * json) -> text :=
  fix go (l : list (string * json)) : text :=
    match l with
    | [] => ["}"%char]
    | (k, x) :: l' =>
        print_string k ++ ":"%char :: pr x
        ++ match l' with [] => go l' | _ :: _ => ","%char :: go l' end
    end.

(** [JSON.stringify(v)], without indentation. *)
Fixpoint print (v : json) : text :=
  match v with
  | JNull => chars "null"
  | JBool true => chars "true"
  | JBool false => chars "false"
  | JNum q => print_number q
  | JStr s => print_string s
  | JArr items => "["%char :: print_items print items
  | JObj members => "{"%char :: print_members print members
  end.

(** A recursive-descent reader of the JSON grammar.  Every call spends
    one unit of fuel; the text's length is enough for the whole of it. *)
Fixpoint parse_value (fuel : nat) (t : text) : option (json * text) :=
  match fuel with
  | O => None
  | S fuel =>
      match skip_ws t with
      | [] => None
      | c :: t' =>
          if Ascii.eqb c "034" then
            match parse_string t' with
            | Some (s, rest) => Some (JStr s, rest)
            | None => None
            end
          else if Ascii.eqb c "[" then
            match skip_ws t' with
            | c2 :: t2 =>
                if Ascii.eqb c2 "]" then Some (JArr [], t2)
                else
                  match parse_items fuel t' with
                  | Some (items, rest) => Some (JArr items, rest)
                  | None => None
                  end
            | [] => None
            end
          else if Ascii.eqb c "{" then
            match skip_ws t' with
            | c2 :: t2 =>
                if Ascii.eqb c2 "}" then Some (JObj [], t2)
                else
                  match parse_members fuel t' with
                  | Some (members, rest) => Some (JObj members, rest)
                  | None => None
                  end
            | [] => None
            end
          else if Ascii.eqb c "t" then
            match strip (chars "rue") t' with
            | Some rest => Some (JBool true, rest)
            | None => None
            end
          else if Ascii.eqb c "f" then
            match strip (chars "alse") t' with
            | Some rest => Some (JBool false, rest)
            | None => None
            end
          else if Ascii.eqb c "n" then
            match strip (chars "ull") t' with
            | Some rest => Some (JNull, rest)
            | None => None
            end
          else if Ascii.eqb c "-" || is_digit c then
            match parse_number (c :: t') with
            | Some (q, rest) => Some (JNum q, rest)
            | None => None
            end
          else None
      end
  end
with parse_items (fuel : nat) (t : text) : option (list json * text) :=
  match fuel with
  | O => None
  | S fuel =>
      match parse_value fuel t with
      | None => None
      | Some (v, rest) =>
          match skip_ws rest with
          | c :: rest' =>
              if Ascii.eqb c "," then
                match parse_items fuel rest' with
                | Some (vs, r) => Some (v :: vs, r)
                | None => None
                end
              else if Ascii.eqb c "]" then Some ([v], rest')
              else None
          | [] => None
          end
      end
  end
with parse_members (fuel : nat) (t : text)
    : option (list (string * json) * text) :=
  match fuel with
  | O => None
  | S fuel =>
      match skip_ws t with
      | q :: t1 =>
          if Ascii.eqb q "034" then
            match parse_string t1 with
            | None => None
            | Some (k, t2) =>
                match skip_ws t2 with
                | colon :: t3 =>
                    if Ascii.eqb colon ":" then
                      match parse_value fuel t3 with
                      | None => None
                      | Some (v, rest) =>
                          match skip_ws rest with
                          | c :: rest' =>
                              if Ascii.eqb c "," then
                                match parse_members fuel rest' with
                                | Some (ms, r) => Some ((k, v) :: ms, r)
                                | None => None
                                end
                              else if Ascii.eqb c "}" then
                                Some ([(k, v)], rest')
                              else None
                          | [] => None
                          end
                      end
                    else None
                | [] => None
                end
            end
          else None
      | [] => None
      end
  end.

(** [JSON.stringify(v)] and [JSON.parse(s)]; [None] is a [SyntaxError]. *)
Definition JSON_stringify (v : json) : string :=
  string_of_list_ascii (print v).

Definition JSON_parse (s : string) : option json :=
  let t := chars s in
  match parse_value (S (List.length t)) t with
  | Some (v, rest) =>
      match skip_ws rest with
      | [] => Some v
      | _ :: _ => None
      end
  | None => None
  end.

(** A property read [o.k]: [None] is [undefined]. *)
Fixpoint get_member (k : string) (members : list (string * json))
    : option json :=
  match members with
  | [] => None
  | (k', v) :: rest =>
      match get_member k rest with
      | Some v' => Some v'
      | None => if String.eqb k' k then Some v else None
      end
  end.

Definition get (k : string) (v : json) : option json :=
  match v with
  | JObj members => get_member k members
  | _ => None
  end.

(** The values whose numbers JSON text carries exactly. *)
Fixpoint json_ok (v : json) : bool :=
  match v with
  | JNum q => decimal q
  | JArr items => forallb json_ok items
  | JObj members => forallb (fun kv => json_ok (snd kv)) members
  | _ => true
  end.

(** The same value with every number in lowest terms, which is how
    [parse_number] builds them. *)
Fixpoint canon (v : json) : json :=
  match v with
  | JNum q => JNum (Qred q)
  | JArr items => JArr (List.map canon items)
  | JObj members => JObj (List.map (fun kv => (fst kv, canon (snd kv))) members)
  | _ => v
  end.

(** The text that follows does not start with a digit. *)
Definition no_digit_ahead (rest : text) : Prop :=
  match rest with
  | [] => True
  | c :: _ => digit_of c = None
  end.

(** The text after a number does not continue it. *)
Definition number_stop (rest : text) : Prop :=
  match rest with
  | [] => True
  | c :: _ =>
      digit_of c = None /\ Ascii.eqb c "." = false
      /\ Ascii.eqb c "e" = false /\ Ascii.eqb c "E" = false
  end.

(** The first character of a printed value: never white space, nor a
    closing bracket or brace. *)
Definition opens_value (c : ascii) : Prop :=
  is_ws c = false /\ Ascii.eqb c "]" = false /\ Ascii.eqb c "}" = false.

(** Reading back what was printed, whatever follows it (so long as that
    does not continue a number), with fuel for the printed text. *)
Definition reads_back (v : json) : Prop :=
  forall fuel rest,
    json_ok v = true -> number_stop rest ->
    List.length (print v) <= fuel ->
    parse_value fuel (print v ++ rest) = Some (canon v, rest).

End JSON.

(** ** The widget collection (FlexibleDashboard) *)

Module Dashboard.
Import JSNumber JSON.
Local Open Scope Q_scope.

Inductive WidgetType :=
| stats | chart | activity | finance
| crypto_surface | stock_surface | crypto_candle | stock_candle
| news.

Record Position := { x : Q; y : Q }.
Record Size := { width : Q; height : Q }.

(** [description] and [isMaximized] are optional properties. *)
Record Widget := {
  id : string;
  type : WidgetType;
  title : string;
  description : option string;
  position : Position;
  size : Size;
  isMaximized : option bool
}.

(** [Omit<Widget, 'id' | 'position'>] *)
Record Template := {
  t_type : WidgetType;
  t_title : string;
  t_description : option string;
  t_size : Size
}.

Definition WIDGET_TEMPLATES (k : WidgetType) : Template :=
  match k with
  | stats => {| t_type := stats; t_title := "Quick Stats";
                t_description := Some "Overview of key metrics";
                t_size := {| width := 300; height := 200 |} |}
  | chart => {| t_type := chart; t_title := "Performance Chart";
                t_description := Some "Visual representation of data";
                t_size := {| width := 500; height := 300 |} |}
  | activity => {| t_type := activity; t_title := "Recent Activity";
                   t_description := Some "Latest actions and updates";
                   t_size := {| width := 400; height := 300 |} |}
  | finance => {| t_type := finance; t_title := "Financial Overview";
                  t_description := Some "Summary of financial data";
                  t_size := {| width := 400; height := 300 |} |}
  | crypto_surface =>
      {| t_type := crypto_surface; t_title := "Crypto 3D Surface";
         t_description := Some "3D visualization of cryptocurrency price data";
         t_size := {| width := 500; height := 400 |} |}
  | stock_surface =>
      {| t_type := stock_surface; t_title := "Stock 3D Surface";
         t_description := Some "3D visualization of stock price data";
         t_size := {| width := 500; height := 400 |} |}
  | crypto_candle =>
      {| t_type := crypto_candle; t_title := "Crypto Candlestick";
         t_description := Some "Real-time cryptocurrency candlestick chart";
         t_size := {| width := 500; height := 400 |} |}
  | stock_candle =>
      {| t_type := stock_candle; t_title := "Stock Candlestick";
         t_description := Some "Real-time stock market candlestick chart";
         t_size := {| width := 500; height := 400 |} |}
  | news => {| t_type := news; t_title := "Financial News";
               t_description := Some "Latest financial news and updates";
               t_size := {| width := 400; height := 300 |} |}
  end.

(** The part of [getBoundingClientRect()] that [addWidget] reads. *)
Record DOMRect := { rect_width : Q; rect_height : Q }.

(** [`widget-${Date.now()}`]; the clock value is an input. *)
Definition widget_id (now : N) : string := "widget-" +:+ pretty now.

Definition with_position (w : Widget) (p : Position) : Widget :=
  {| id := id w; type := type w; title := title w;
     description := description w; position := p; size := size w;
     isMaximized := isMaximized w |}.

Definition with_size (w : Widget) (s : Size) : Widget :=
  {| id := id w; type := type w; title := title w;
     description := description w; position := position w; size := s;
     isMaximized := isMaximized w |}.

Definition with_isMaximized (w : Widget) (m : bool) : Widget :=
  {| id := id w; type := type w; title := title w;
     description := description w; position := position w; size := size w;
     isMaximized := Some m |}.

(** [!w.isMaximized]: an absent flag is falsy. *)
Definition truthy (m : option bool) : bool :=
  match m with Some b => b | None => false end.

Definition new_widget (tpl : Template) (now : N) (p : Position) : Widget :=
  {| id := widget_id now; type := t_type tpl; title := t_title tpl;
     description := t_description tpl; position := p; size := t_size tpl;
     isMaximized := None |}.

(** [addWidget]: the new collection handed to [setWidgets]. *)
Definition addWidget (k : WidgetType) (dashboardRect : option DOMRect)
    (now : N) (widgets : list Widget) : list Widget :=
  let template := WIDGET_TEMPLATES k in
  match dashboardRect with
  | Some r =>
      widgets ++
      [new_widget template now
         {| x := Math_max 0 ((rect_width r - width (t_size template)) / 2);
            y := Math_max 0 100 |}]
  | None =>
      widgets ++ [new_widget template now {| x := 50; y := 100 |}]
  end.

Definition removeWidget (i : string) (widgets : list Widget) : list Widget :=
  List.filter (fun w => negb (String.eqb (id w) i)) widgets.

Definition moveWidget (i : string) (nx ny : Q) (widgets : list Widget)
    : list Widget :=
  let newX := Math_max 0 nx in
  let newY := Math_max 0 ny in
  List.map (fun w =>
    if String.eqb (id w) i
    then with_position w {| x := newX; y := newY |} else w) widgets.

Definition resizeWidget (i : string) (nw nh : Q) (widgets : list Widget)
    : list Widget :=
  List.map (fun w =>
    if String.eqb (id w) i
    then with_size w {| width := nw; height := nh |} else w) widgets.

Definition toggleMaximize (i : string) (widgets : list Widget)
    : list Widget :=
  List.map (fun w =>
    if String.eqb (id w) i
    then with_isMaximized w (negb (truthy (isMaximized w))) else w) widgets.

(** The data-model invariant of the spec, per widget and per collection. *)
Definition position_nonneg (w : Widget) : Prop :=
  0 <= x (position w) /\ 0 <= y (position w).

Definition size_nonneg (w : Widget) : Prop :=
  0 <= width (size w) /\ 0 <= height (size w).

Definition widget_ok (w : Widget) : Prop :=
  position_nonneg w /\ size_nonneg w.

Definition layout_ok (widgets : list Widget) : Prop :=
  Forall widget_ok widgets.

(** *** The layout in [localStorage] *)

Definition type_name (k : WidgetType) : string :=
  match k with
  | stats => "stats" | chart => "chart" | activity => "activity"
  | finance => "finance"
  | crypto_surface => "crypto-surface" | stock_surface => "stock-surface"
  | crypto_candle => "crypto-candle" | stock_candle => "stock-candle"
  | news => "news"
  end.

Definition type_of_name (s : string) : option WidgetType :=
  List.find (fun k => String.eqb (type_name k) s)
    [stats; chart; activity; finance; crypto_surface; stock_surface;
     crypto_candle; stock_candle; news].

Definition position_to_js (p : Position) : json :=
  JObj [("x", JNum (x p)); ("y", JNum (y p))].

Definition size_to_js (s : Size) : json :=
  JObj [("width", JNum (width s)); ("height", JNum (height s))].

(** The object behind a widget: the properties spread from the template,
    then [id] and [position] as [addWidget] adds them, then [isMaximized]
    once [toggleMaximize] has set it.  An [undefined] property is absent. *)
Definition widget_to_js (w : Widget) : json :=
  JObj
    ([("type", JStr (type_name (type w))); ("title", JStr (title w))]
     ++ match description w with
        | Some d => [("description", JStr d)]
        | None => []
        end
     ++ [("size", size_to_js (size w)); ("id", JStr (id w));
         ("position", position_to_js (position w))]
     ++ match isMaximized w with
        | Some b => [("isMaximized", JBool b)]
        | None => []
        end).

Definition widgets_to_js (widgets : list Widget) : json :=
  JArr (List.map widget_to_js widgets).

(** Reading a value at the type the code declares for it. *)
Definition as_string (v : option json) : option string :=
  match v with Some (JStr s) => Some s | _ => None end.

Definition as_number (v : option json) : option Q :=
  match v with Some (JNum q) => Some q | _ => None end.

Definition as_optional_string (v : option json) : option (option string) :=
  match v with
  | None => Some None
  | Some (JStr s) => Some (Some s)
  | Some _ => None
  end.

Definition as_optional_bool (v : option json) : option (option bool) :=
  match v with
  | None => Some None
  | Some (JBool b) => Some (Some b)
  | Some _ => None
  end.

Definition position_of_js (v : option json) : option Position :=
  match v with
  | Some o =>
      match as_number (get "x" o), as_number (get "y" o) with
      | Some a, Some b => Some {| x := a; y := b |}
      | _, _ => None
      end
  | None => None
  end.

Definition size_of_js (v : option json) : option Size :=
  match v with
  | Some o =>
      match as_number (get "width" o), as_number (get "height" o) with
      | Some a, Some b => Some {| width := a; height := b |}
      | _, _ => None
      end
  | None => None
  end.

Definition widget_of_js (v : json) : option Widget :=
  match as_string (get "id" v),
        as_string (get "type" v),
        as_string (get "title" v),
        as_optional_string (get "description" v),
        position_of_js (get "position" v),
        size_of_js (get "size" v),
        as_optional_bool (get "isMaximized" v) with
  | Some i, Some ty, Some t, Some d, Some p, Some s, Some m =>
      match type_of_name ty with
      | Some k =>
          Some {| id := i; type := k; title := t; description := d;
                  position := p; size := s; isMaximized := m |}
      | None => None
      end
  | _, _, _, _, _, _, _ => None
  end.

Fixpoint widgets_of_items (items : list json) : option (list Widget) :=
  match items with
  | [] => Some []
  | v :: items' =>
      match widget_of_js v, widgets_of_items items' with
      | Some w, Some ws => Some (w :: ws)
      | _, _ => None
      end
  end.

(** The widget collection a value is, when it is one. *)
Definition widgets_of_js (v : json) : option (list Widget) :=
  match v with
  | JArr items => widgets_of_items items
  | _ => None
  end.

(** The save effect: what [localStorage.setItem('dashboardLayout', ...)]
    is given. *)
Definition save_layout (widgets : list Widget) : string :=
  JSON_stringify (widgets_to_js widgets).

Definition load_failed : string := "Failed to load dashboard layout:".

(** The load effect at mount, from what [localStorage.getItem] returned
    ([None] for [null]): the value of the [widgets] state afterwards, which
    starts as the empty array, and the messages given to [console.error].
    The parsed value goes to [setWidgets] as it is. *)
Definition load_layout (savedLayout : option string) : json * list string :=
  match savedLayout with
  | Some s =>
      if negb (String.eqb s "") then
        match JSON_parse s with
        | Some v => (v, [])
        | None => (JArr [], [load_failed])
        end
      else (JArr [], [])
  | None => (JArr [], [])
  end.

(** A widget whose four numbers have a finite decimal expansion. *)
Definition storable (w : Widget) : bool :=
  decimal (x (position w)) && decimal (y (position w))
  && decimal (width (size w)) && decimal (height (size w)).

(** Two widgets with the same fields, numbers compared by value. *)
Definition same_widget (w w' : Widget) : Prop :=
  id w = id w' /\ type w = type w' /\ title w = title w'
  /\ description w = description w' /\ isMaximized w = isMaximized w'
  /\ x (position w) == x (position w') /\ y (position w) == y (position w')
  /\ width (size w) == width (size w')
  /\ height (size w) == height (size w').

(** The widget with its numbers in lowest terms. *)
Definition lowest_terms (w : Widget) : Widget :=
  {| id := id w; type := type w; title := title w;
     description := description w;
     position := {| x := Qred (x (position w)); y := Qred (y (position w)) |};
     size := {| width := Qred (width (size w));
                height := Qred (height (size w)) |};
     isMaximized := isMaximized w |}.

(** The widget [addWidget] builds. *)
Definition added (k : WidgetType) (rect : option DOMRect) (now : N)
    : Widget :=
  let template := WIDGET_TEMPLATES k in
  new_widget template now
    match rect with
    | Some r =>
        {| x := Math_max 0 ((rect_width r - width (t_size template)) / 2);
           y := Math_max 0 100 |}
    | None => {| x := 50; y := 100 |}
    end.

(** A widget whose id was made by [addWidget] at a clock reading other
    than [now]. *)
Definition made_at_another_time (now : N) (w : Widget) : Prop :=
  exists t, id w = widget_id t /\ t <> now.

(** What [moveWidget] does to one widget of the collection. *)
Definition moved (i : string) (nx ny : Q) (w w' : Widget) : Prop :=
  if String.eqb (id w) i
  then w' = with_position w {| x := Math_max 0 nx; y := Math_max 0 ny |}
       /\ 0 <= x (position w') /\ 0 <= y (position w')
  else w' = w.

(** A dashboard holding one chart widget at the fallback position. *)
Definition one_chart : list Widget := addWidget chart None 1 [].

(** A chart at the centre of a 1200 px container, moved and maximized. *)
Definition sample_layout : list Widget :=
  toggleMaximize "widget-1700000000000"
    (moveWidget "widget-1700000000000" (725 # 2) (-4)
       (addWidget news None 1700000000001
          (addWidget chart (Some {| rect_width := 1200; rect_height := 800 |})
             1700000000000 []))).

End Dashboard.

(** ** The pointer-move handler of FlexibleCard *)

Module FlexibleCard.
Import JSNumber JSString.
Local Open Scope Q_scope.

(** The baseline captured by [setDragStart] at pointer-down. *)
Record DragStart := {
  mouseX : Q; mouseY : Q;
  elementX : Q; elementY : Q;
  ds_width : Q; ds_height : Q
}.

(** The component's state cells. *)
Record Card := {
  c_width : Q; c_height : Q; c_x : Q; c_y : Q;
  isDragging : bool; isResizing : bool;
  resizeDirection : option string;
  dragStart : DragStart
}.

(** The props the handler reads; [onMove] and [onResize] are optional
    callbacks, modelled by whether they are provided. *)
Record Props := {
  minWidth : Q; minHeight : Q;
  isMaximized : bool;
  has_onMove : bool; has_onResize : bool
}.

(** Calls made on the external handlers, in order. *)
Inductive Call :=
| onMove (x y : Q)
| onResize (w h : Q).

Record MouseEvent := { clientX : Q; clientY : Q }.

(** [resizeDirection?.includes(c)]: [undefined], hence falsy, on [null]. *)
Definition dir_includes (d : option string) (c : string) : bool :=
  match d with
  | Some s => includes c s
  | None => false
  end.

Record Box := { b_width : Q; b_height : Q; b_x : Q; b_y : Q }.

(** The four [let]s of the resizing branch and the four direction tests
    that update them, in source order. *)
Definition resize_box (p : Props) (ds : DragStart) (d : option string)
    (deltaX deltaY : Q) : Box :=
  let newWidth := ds_width ds in
  let newHeight := ds_height ds in
  let newX := elementX ds in
  let newY := elementY ds in
  let newWidth :=
    if dir_includes d "e"
    then Math_max (minWidth p) (ds_width ds + deltaX) else newWidth in
  let newHeight :=
    if dir_includes d "s"
    then Math_max (minHeight p) (ds_height ds + deltaY) else newHeight in
  let '(newWidth, newX) :=
    if dir_includes d "w"
    then
      let newWidth := Math_max (minWidth p) (ds_width ds - deltaX) in
      (newWidth,
       if strict_neq newWidth (ds_width ds)
       then elementX ds + (ds_width ds - newWidth) else newX)
    else (newWidth, newX) in
  let '(newHeight, newY) :=
    if dir_includes d "n"
    then
      let newHeight := Math_max (minHeight p) (ds_height ds - deltaY) in
      (newHeight,
       if strict_neq newHeight (ds_height ds)
       then elementY ds + (ds_height ds - newHeight) else newY)
    else (newHeight, newY) in
  {| b_width := newWidth; b_height := newHeight; b_x := newX; b_y := newY |}.

Definition handleMouseMove (p : Props) (e : MouseEvent) (c : Card)
    : Card * list Call :=
  let ds := dragStart c in
  if isDragging c && negb (isMaximized p) then
    let newX := elementX ds + (clientX e - mouseX ds) in
    let newY := elementY ds + (clientY e - mouseY ds) in
    ({| c_width := c_width c; c_height := c_height c;
        c_x := newX; c_y := newY;
        isDragging := isDragging c; isResizing := isResizing c;
        resizeDirection := resizeDirection c; dragStart := ds |},
     if has_onMove p then [onMove newX newY] else [])
  else if isResizing c && negb (isMaximized p) then
    let deltaX := clientX e - mouseX ds in
    let deltaY := clientY e - mouseY ds in
    let b := resize_box p ds (resizeDirection c) deltaX deltaY in
    ({| c_width := b_width b; c_height := b_height b;
        c_x := b_x b; c_y := b_y b;
        isDragging := isDragging c; isResizing := isResizing c;
        resizeDirection := resizeDirection c; dragStart := ds |},
     (if has_onResize p then [onResize (b_width b) (b_height b)] else [])
     ++ (if has_onMove p
            && (dir_includes (resizeDirection c) "w"
                || dir_includes (resizeDirection c) "n")
         then [onMove (b_x b) (b_y b)] else []))
  else (c, []).

(** [handleResizeStart(direction)]: the baseline is the card's current box. *)
Definition handleResizeStart (p : Props) (direction : string)
    (e : MouseEvent) (c : Card) : Card :=
  if isMaximized p then c
  else
    {| c_width := c_width c; c_height := c_height c;
       c_x := c_x c; c_y := c_y c;
       isDragging := isDragging c; isResizing := true;
       resizeDirection := Some direction;
       dragStart := {| mouseX := clientX e; mouseY := clientY e;
                       elementX := c_x c; elementY := c_y c;
                       ds_width := c_width c; ds_height := c_height c |} |}.




(** The box a card shows. *)
Definition card_box (c : Card) : Box :=
  {| b_width := c_width c; b_height := c_height c;
     b_x := c_x c; b_y := c_y c |}.

(** The props of a card that sets no minimum of its own: the defaults
    [minWidth = 200] and [minHeight = 150]. *)
Definition default_props : Props :=
  {| minWidth := 200; minHeight := 150; isMaximized := false;
     has_onMove := true; has_onResize := true |}.

(** A card of [w] x [h] at (100, 100) being resized in direction [d]; the
    pointer went down at (100, 100). *)
Definition resizing_card (w h : Q) (d : string) : Card :=
  {| c_width := w; c_height := h; c_x := 100; c_y := 100;
     isDragging := false; isResizing := true;
     resizeDirection := Some d;
     dragStart := {| mouseX := 100; mouseY := 100;
                     elementX := 100; elementY := 100;
                     ds_width := w; ds_height := h |} |}.

End FlexibleCard.

(** ** The ticker normaliser *)

Module Ticker.
Import JSString.

Local Open Scope string_scope.

Definition is_upper (c : ascii) : bool :=
  (65 <=? nat_of_ascii c)%nat && (nat_of_ascii c <=? 90)%nat.

(** [/^[A-Z]+-USD$/.test(s)]: a non-empty run of capitals, then exactly
    ["-USD"] up to the end of the input.  [seen] records that the run is
    non-empty. *)
Fixpoint upper_run_then_USD (seen : bool) (s : string) : bool :=
  match s with
  | EmptyString => false
  | String c s' =>
      if is_upper c then upper_run_then_USD true s'
      else seen && String.eqb s "-USD"
  end.

Definition is_canonical (s : string) : bool := upper_run_then_USD false s.

(** [s.replace(/(USD|USDT)$/, '')]: the leftmost position from which the
    rest of the input is ["USD"] or ["USDT"] is where the match starts. *)
Fixpoint remove_quote_suffix (s : string) : string :=
  if String.eqb s "USD" || String.eqb s "USDT" then EmptyString
  else
    match s with
    | EmptyString => EmptyString
    | String c s' => String c (remove_quote_suffix s')
    end.

Definition convertTickerFormat (input : string) : string :=
  if is_canonical input then input
  else if String.eqb input "*" then input
  else
    let formatted := replace "X:" "" input in
    let formatted := remove_quote_suffix formatted in
    let formatted :=
      if negb (includes "-" formatted) then
        if (6 <=? String.length formatted)%nat then
          let base := substring_to 3 formatted in
          let quote := substring_from 3 formatted in
          base +:+ "-" +:+ quote
        else formatted
      else formatted in
    let formatted :=
      if negb (endsWith "-USD" formatted)
      then split_head "-" formatted +:+ "-USD"
      else formatted in
    formatted.

(** The subscription string built by [subscribeTicker] and
    [unsubscribeTicker] from the normalised ticker. *)
Definition subscription_for (formattedTicker : string) : string :=
  if String.eqb formattedTicker "*" then "XT.*"
  else "XT." +:+ formattedTicker.

(** The last code unit of a string. *)
Fixpoint last_char (s : string) : option ascii :=
  match s with
  | EmptyString => None
  | String c EmptyString => Some c
  | String _ s' => last_char s'
  end.

(** The normal forms that [convertTickerFormat] maps to themselves: the
    wildcard, the canonical spelling, and every string without ["X:"] whose
    first ["-"] is that of its final ["-USD"]. *)
Definition stable (r : string) : bool :=
  is_canonical r
  || String.eqb r "*"
  || (negb (includes "X:" r) && String.eqb (split_head "-" r +:+ "-USD") r).

End Ticker.

(** ** The shared WebSocket of useLiveCryptoPrice *)

Module LivePrice.
Import Ticker.

(** A listener is known by its identity. *)
Definition Callback := nat.

(** The socket object; [readyState] is 0 (connecting), 1 (open),
    2 (closing) or 3 (closed). *)
Record WsClient := { readyState : nat }.

Inductive Action := auth | subscribe | unsubscribe.

(** An outbound frame [{action, params}]. *)
Record Frame := { action : Action; params : string }.

(** The module-level variables, followed by what the module has done to
    the outside: every [send] it attempted, in order, with whether the
    call returned ([true]) or threw ([false]); every delay it handed to
    [setTimeout] for a reconnect; the number of scheduled 500 ms flushes
    that have not run yet.  [reconnectTimer] holds the delay of the armed
    reconnect timer; a handle whose timer has fired counts as [None], as
    [clearTimeout] does nothing on it.  [connectingPromise] records whether
    the variable is non-null.  Status texts are not modelled. *)
Record State := {
  sharedWsClient : option WsClient;
  isConnected : bool;
  isAuthenticated : bool;
  currentSubscriptions : list string;
  apiKeyRef : string;
  connectingPromise : bool;
  pendingSubscriptions : gset string;
  reconnectAttempts : nat;
  reconnectTimer : option Z;
  isAddingNewSubscription : bool;
  subscribers : gmap string (gset Callback);
  wire : list (Frame * bool);
  scheduled : list Z;
  flushTimers : nat
}.

(** Assignment to one variable. *)
Definition set_sharedWsClient (v : option WsClient) (s : State) : State :=
  {| sharedWsClient := v;
     isConnected := isConnected s;
     isAuthenticated := isAuthenticated s;
     currentSubscriptions := currentSubscriptions s;
     apiKeyRef := apiKeyRef s;
     connectingPromise := connectingPromise s;
     pendingSubscriptions := pendingSubscriptions s;
     reconnectAttempts := reconnectAttempts s;
     reconnectTimer := reconnectTimer s;
     isAddingNewSubscription := isAddingNewSubscription s;
     subscribers := subscribers s;
     wire := wire s;
     scheduled := scheduled s;
     flushTimers := flushTimers s |}.

Definition set_isConnected (v : bool) (s : State) : State :=
  {| sharedWsClient := sharedWsClient s;
     isConnected := v;
     isAuthenticated := isAuthenticated s;
     currentSubscriptions := currentSubscriptions s;
     apiKeyRef := apiKeyRef s;
     connectingPromise := connectingPromise s;
     pendingSubscriptions := pendingSubscriptions s;
     reconnectAttempts := reconnectAttempts s;
     reconnectTimer := reconnectTimer s;
     isAddingNewSubscription := isAddingNewSubscription s;
     subscribers := subscribers s;
     wire := wire s;
     scheduled := scheduled s;
     flushTimers := flushTimers s |}.

Definition set_isAuthenticated (v : bool) (s : State) : State :=
  {| sharedWsClient := sharedWsClient s;
     isConnected := isConnected s;
     isAuthenticated := v;
     currentSubscriptions := currentSubscriptions s;
     apiKeyRef := apiKeyRef s;
     connectingPromise := connectingPromise s;
     pendingSubscriptions := pendingSubscriptions s;
     reconnectAttempts := reconnectAttempts s;
     reconnectTimer := reconnectTimer s;
     isAddingNewSubscription := isAddingNewSubscription s;
     subscribers := subscribers s;
     wire := wire s;
     scheduled := scheduled s;
     flushTimers := flushTimers s |}.

Definition set_currentSubscriptions (v : list string) (s : State) : State :=
  {| sharedWsClient := sharedWsClient s;
     isConnected := isConnected s;
     isAuthenticated := isAuthenticated s;
     currentSubscriptions := v;
     apiKeyRef := apiKeyRef s;
     connectingPromise := connectingPromise s;
     pendingSubscriptions := pendingSubscriptions s;
     reconnectAttempts := reconnectAttempts s;
     reconnectTimer := reconnectTimer s;
     isAddingNewSubscription := isAddingNewSubscription s;
     subscribers := subscribers s;
     wire := wire s;
     scheduled := scheduled s;
     flushTimers := flushTimers s |}.

Definition set_apiKeyRef (v : string) (s : State) : State :=
  {| sharedWsClient := sharedWsClient s;
     isConnected := isConnected s;
     isAuthenticated := isAuthenticated s;
     currentSubscriptions := currentSubscriptions s;
     apiKeyRef := v;
     connectingPromise := connectingPromise s;
     pendingSubscriptions := pendingSubscriptions s;
     reconnectAttempts := reconnectAttempts s;
     reconnectTimer := reconnectTimer s;
     isAddingNewSubscription := isAddingNewSubscription s;
     subscribers := subscribers s;
     wire := wire s;
     scheduled := scheduled s;
     flushTimers := flushTimers s |}.

Definition set_connectingPromise (v : bool) (s : State) : State :=
  {| sharedWsClient := sharedWsClient s;
     isConnected := isConnected s;
     isAuthenticated := isAuthenticated s;
     currentSubscriptions := currentSubscriptions s;
     apiKeyRef := apiKeyRef s;
     connectingPromise := v;
     pendingSubscriptions := pendingSubscriptions s;
     reconnectAttempts := reconnectAttempts s;
     reconnectTimer := reconnectTimer s;
     isAddingNewSubscription := isAddingNewSubscription s;
     subscribers := subscribers s;
     wire := wire s;
     scheduled := scheduled s;
     flushTimers := flushTimers s |}.

Definition set_pendingSubscriptions (v : gset string) (s : State) : State :=
  {| sharedWsClient := sharedWsClient s;
     isConnected := isConnected s;
     isAuthenticated := isAuthenticated s;
     currentSubscriptions := currentSubscriptions s;
     apiKeyRef := apiKeyRef s;
     connectingPromise := connectingPromise s;
     pendingSubscriptions := v;
     reconnectAttempts := reconnectAttempts s;
     reconnectTimer := reconnectTimer s;
     isAddingNewSubscription := isAddingNewSubscription s;
     subscribers := subscribers s;
     wire := wire s;
     scheduled := scheduled s;
     flushTimers := flushTimers s |}.

Definition set_reconnectAttempts (v : nat) (s : State) : State :=
  {| sharedWsClient := sharedWsClient s;
     isConnected := isConnected s;
     isAuthenticated := isAuthenticated s;
     currentSubscriptions := currentSubscriptions s;
     apiKeyRef := apiKeyRef s;
     connectingPromise := connectingPromise s;
     pendingSubscriptions := pendingSubscriptions s;
     reconnectAttempts := v;
     reconnectTimer := reconnectTimer s;
     isAddingNewSubscription := isAddingNewSubscription s;
     subscribers := subscribers s;
     wire := wire s;
     scheduled := scheduled s;
     flushTimers := flushTimers s |}.

Definition set_reconnectTimer (v : option Z) (s : State) : State :=
  {| sharedWsClient := sharedWsClient s;
     isConnected := isConnected s;
     isAuthenticated := isAuthenticated s;
     currentSubscriptions := currentSubscriptions s;
     apiKeyRef := apiKeyRef s;
     connectingPromise := connectingPromise s;
     pendingSubscriptions := pendingSubscriptions s;
     reconnectAttempts := reconnectAttempts s;
     reconnectTimer := v;
     isAddingNewSubscription := isAddingNewSubscription s;
     subscribers := subscribers s;
     wire := wire s;
     scheduled := scheduled s;
     flushTimers := flushTimers s |}.

Definition set_isAddingNewSubscription (v : bool) (s : State) : State :=
  {| sharedWsClient := sharedWsClient s;
     isConnected := isConnected s;
     isAuthenticated := isAuthenticated s;
     currentSubscriptions := currentSubscriptions s;
     apiKeyRef := apiKeyRef s;
     connectingPromise := connectingPromise s;
     pendingSubscriptions := pendingSubscriptions s;
     reconnectAttempts := reconnectAttempts s;
     reconnectTimer := reconnectTimer s;
     isAddingNewSubscription := v;
     subscribers := subscribers s;
     wire := wire s;
     scheduled := scheduled s;
     flushTimers := flushTimers s |}.

Definition set_subscribers (v : gmap string (gset Callback)) (s : State) : State :=
  {| sharedWsClient := sharedWsClient s;
     isConnected := isConnected s;
     isAuthenticated := isAuthenticated s;
     currentSubscriptions := currentSubscriptions s;
     apiKeyRef := apiKeyRef s;
     connectingPromise := connectingPromise s;
     pendingSubscriptions := pendingSubscriptions s;
     reconnectAttempts := reconnectAttempts s;
     reconnectTimer := reconnectTimer s;
     isAddingNewSubscription := isAddingNewSubscription s;
     subscribers := v;
     wire := wire s;
     scheduled := scheduled s;
     flushTimers := flushTimers s |}.

Definition set_wire (v : list (Frame * bool)) (s : State) : State :=
  {| sharedWsClient := sharedWsClient s;
     isConnected := isConnected s;
     isAuthenticated := isAuthenticated s;
     currentSubscriptions := currentSubscriptions s;
     apiKeyRef := apiKeyRef s;
     connectingPromise := connectingPromise s;
     pendingSubscriptions := pendingSubscriptions s;
     reconnectAttempts := reconnectAttempts s;
     reconnectTimer := reconnectTimer s;
     isAddingNewSubscription := isAddingNewSubscription s;
     subscribers := subscribers s;
     wire := v;
     scheduled := scheduled s;
     flushTimers := flushTimers s |}.

Definition set_scheduled (v : list Z) (s : State) : State :=
  {| sharedWsClient := sharedWsClient s;
     isConnected := isConnected s;
     isAuthenticated := isAuthenticated s;
     currentSubscriptions := currentSubscriptions s;
     apiKeyRef := apiKeyRef s;
     connectingPromise := connectingPromise s;
     pendingSubscriptions := pendingSubscriptions s;
     reconnectAttempts := reconnectAttempts s;
     reconnectTimer := reconnectTimer s;
     isAddingNewSubscription := isAddingNewSubscription s;
     subscribers := subscribers s;
     wire := wire s;
     scheduled := v;
     flushTimers := flushTimers s |}.

Definition set_flushTimers (v : nat) (s : State) : State :=
  {| sharedWsClient := sharedWsClient s;
     isConnected := isConnected s;
     isAuthenticated := isAuthenticated s;
     currentSubscriptions := currentSubscriptions s;
     apiKeyRef := apiKeyRef s;
     connectingPromise := connectingPromise s;
     pendingSubscriptions := pendingSubscriptions s;
     reconnectAttempts := reconnectAttempts s;
     reconnectTimer := reconnectTimer s;
     isAddingNewSubscription := isAddingNewSubscription s;
     subscribers := subscribers s;
     wire := wire s;
     scheduled := scheduled s;
     flushTimers := v |}.

Definition maxReconnectAttempts : nat := 5.

Definition initial : State :=
  {| sharedWsClient := None; isConnected := false; isAuthenticated := false;
     currentSubscriptions := []; apiKeyRef := ""; connectingPromise := false;
     pendingSubscriptions := ∅; reconnectAttempts := 0;
     reconnectTimer := None; isAddingNewSubscription := false;
     subscribers := ∅; wire := []; scheduled := []; flushTimers := 0 |}.

(** [sharedWsClient && sharedWsClient.readyState === 1] *)
Definition client_open (s : State) : bool :=
  match sharedWsClient s with
  | Some c => Nat.eqb (readyState c) 1
  | None => false
  end.

Definition has_client (s : State) : bool :=
  match sharedWsClient s with Some _ => true | None => false end.

(** [currentSubscriptions.includes(sub)] *)
Definition includes_sub (sub : string) (l : list string) : bool :=
  existsb (String.eqb sub) l.

(** [l.splice(l.indexOf(sub), 1)] when [indexOf] is not [-1]: the first
    occurrence goes. *)
Fixpoint splice_first (sub : string) (l : list string) : list string :=
  match l with
  | [] => []
  | a :: l' => if String.eqb a sub then l' else a :: splice_first sub l'
  end.

(** [sharedWsClient.send(JSON.stringify(frame))] inside a [try]: the
    attempt is recorded with its outcome. *)
Definition send (f : Frame) (ok : bool) (s : State) : State :=
  set_wire (wire s ++ [(f, ok)]) s.

(** [setupWebSocket], the part that runs before it returns.  [create_ok]
    says whether [websocketClient(apiKey).crypto()] returned; when it
    throws, the assignment of the new promise still completes after the
    [catch] block has cleared the variable. *)
Definition setupWebSocket (apiKey : string) (create_ok : bool) (s : State)
    : State :=
  if has_client s && isConnected s then s
  else if connectingPromise s then s
  else
    let s := set_apiKeyRef apiKey s in
    let s :=
      if create_ok then set_sharedWsClient (Some {| readyState := 0 |}) s
      else s in
    set_connectingPromise true s.

(** [cryptoWS.onopen]: the socket is open when its handler runs. *)
Definition onopen (send_ok : bool) (s : State) : State :=
  match sharedWsClient s with
  | None => s
  | Some _ =>
    let s := set_sharedWsClient (Some {| readyState := 1 |}) s in
    let s := set_isConnected true s in
    let s := set_reconnectAttempts 0 s in
    send {| action := auth; params := apiKeyRef s |} send_ok s
  end.

(** [Math.min(1000 * Math.pow(2, reconnectAttempts - 1), 30000)], read
    after the counter has been incremented. *)
Definition reconnect_delay (attempts : nat) : Z :=
  Z.min (1000 * 2 ^ (Z.of_nat attempts - 1)) 30000.

(** [cryptoWS.onclose] *)
Definition onclose (s : State) : State :=
  let s := set_isConnected false s in
  let s := set_isAuthenticated false s in
  let s := set_sharedWsClient None s in
  let s := set_connectingPromise false s in
  if negb (Nat.eqb (size (subscribers s)) 0)
     && (reconnectAttempts s <? maxReconnectAttempts)%nat
  then
    let s := set_reconnectAttempts (S (reconnectAttempts s)) s in
    let delay := reconnect_delay (reconnectAttempts s) in
    let s := set_scheduled (scheduled s ++ [delay]) s in
    set_reconnectTimer (Some delay) s
  else s.

(** The callback of the reconnect timer: [setupWebSocket(apiKeyRef, ...)]. *)
Definition reconnect_timer_fires (create_ok : bool) (s : State) : State :=
  match reconnectTimer s with
  | None => s
  | Some _ =>
    let s := set_reconnectTimer None s in
    setupWebSocket (apiKeyRef s) create_ok s
  end.

(** [processPendingSubscriptions]: the guard, and the scheduling of the
    flush. *)
Definition processPendingSubscriptions (s : State) : State * bool :=
  if negb (has_client s) || negb (isAuthenticated s) || negb (client_open s)
  then (s, false)
  else (set_flushTimers (S (flushTimers s)) s, true).

(** The [auth_success] branch of [cryptoWS.onmessage]. *)
Definition on_auth_success (s : State) : State :=
  match sharedWsClient s with
  | None => s
  | Some _ =>
    let s := set_isAuthenticated true s in
    fst (processPendingSubscriptions s)
  end.

(** One turn of the loop over the pending set: a subscription that is not
    active is sent, and appended when [send] returned. *)
Definition flush_one (send_ok : string -> bool) (s : State)
    (subscription : string) : State :=
  if negb (includes_sub subscription (currentSubscriptions s)) then
    let ok := send_ok subscription in
    let s := send {| action := subscribe; params := subscription |} ok s in
    if ok
    then set_currentSubscriptions (currentSubscriptions s ++ [subscription]) s
    else s
  else s.

(** The 500 ms callback scheduled by [processPendingSubscriptions].  The
    pending set is walked in the order of [elements]. *)
Definition flush_pending (send_ok : string -> bool) (s : State) : State :=
  match flushTimers s with
  | O => s
  | S n =>
    let s := set_flushTimers n s in
    if negb (Nat.eqb (size (pendingSubscriptions s)) 0) then
      let s := foldl (flush_one send_ok) s (elements (pendingSubscriptions s)) in
      set_pendingSubscriptions ∅ s
    else s
  end.

(** [subscribeTicker].  [create_ok] and [send_ok] are the outcomes of the
    socket creation and of [send], should the call reach them. *)
Definition subscribeTicker (ticker : string) (callback : Callback)
    (silentMode : bool) (create_ok send_ok : bool) (s : State) : State :=
  let formattedTicker := convertTickerFormat ticker in
  let s := if silentMode then set_isAddingNewSubscription true s else s in
  let s :=
    if negb (bool_decide (is_Some (subscribers s !! formattedTicker)))
    then set_subscribers (<[formattedTicker := ∅]> (subscribers s)) s
    else s in
  let s :=
    set_subscribers
      (<[formattedTicker :=
           default ∅ (subscribers s !! formattedTicker) ∪ {[callback]}]>
         (subscribers s)) s in
  let subscription := subscription_for formattedTicker in
  if includes_sub subscription (currentSubscriptions s) then s
  else
    let s :=
      set_pendingSubscriptions (pendingSubscriptions s ∪ {[subscription]}) s in
    if negb (has_client s) && negb (connectingPromise s) then
      setupWebSocket (apiKeyRef s) create_ok s
    else if isAuthenticated s && has_client s && client_open s then
      let s :=
        send {| action := subscribe; params := subscription |} send_ok s in
      if send_ok then
        let s :=
          set_currentSubscriptions
            (currentSubscriptions s ++ [subscription]) s in
        set_pendingSubscriptions (pendingSubscriptions s ∖ {[subscription]}) s
      else s
    else s.

(** The teardown at the end of [unsubscribeTicker]. *)
Definition close_shared (s : State) : State :=
  let s := set_reconnectTimer None s in
  let s := set_sharedWsClient None s in
  let s := set_isConnected false s in
  let s := set_isAuthenticated false s in
  let s := set_currentSubscriptions [] s in
  let s := set_pendingSubscriptions ∅ s in
  let s := set_reconnectAttempts 0 s in
  set_isAddingNewSubscription false s.

(** [unsubscribeTicker] *)
Definition unsubscribeTicker (ticker : string) (callback : Callback)
    (send_ok : bool) (s : State) : State :=
  let formattedTicker := convertTickerFormat ticker in
  let subscription := subscription_for formattedTicker in
  let s :=
    set_pendingSubscriptions (pendingSubscriptions s ∖ {[subscription]}) s in
  match subscribers s !! formattedTicker with
  | None => s
  | Some callbacks =>
    let callbacks := callbacks ∖ {[callback]} in
    let s :=
      set_subscribers (<[formattedTicker := callbacks]> (subscribers s)) s in
    let s :=
      if Nat.eqb (size callbacks) 0 then
        let s :=
          set_subscribers (delete formattedTicker (subscribers s)) s in
        if has_client s && isAuthenticated s && client_open s then
          if includes_sub subscription (currentSubscriptions s) then
            let s :=
              send {| action := unsubscribe; params := subscription |}
                send_ok s in
            set_currentSubscriptions
              (splice_first subscription (currentSubscriptions s)) s
          else s
        else
          if includes_sub subscription (currentSubscriptions s) then
            set_currentSubscriptions
              (splice_first subscription (currentSubscriptions s)) s
          else s
      else s in
    if Nat.eqb (size (subscribers s)) 0 && has_client s
    then close_shared s
    else s
  end.

(** [reconnect] of the hook, up to the call of [setupWebSocket]; the
    re-subscription runs later, when the promise resolves. *)
Definition reconnect (create_ok : bool) (s : State) : State :=
  let s :=
    if has_client s then
      let s := set_sharedWsClient None s in
      let s := set_isConnected false s in
      let s := set_isAuthenticated false s in
      set_connectingPromise false s
    else s in
  let s := set_reconnectTimer None s in
  let s := set_reconnectAttempts 0 s in
  setupWebSocket (apiKeyRef s) create_ok s.

(** The 3 s callback of silent mode. *)
Definition silent_timeout (s : State) : State :=
  set_isAddingNewSubscription false s.

(** What can happen to the module: calls from the hooks, socket events
    and timers. *)
Inductive Event :=
| EvSubscribe (ticker : string) (callback : Callback) (silentMode : bool)
    (create_ok send_ok : bool)
| EvUnsubscribe (ticker : string) (callback : Callback) (send_ok : bool)
| EvReconnect (create_ok : bool)
| EvOpen (send_ok : bool)
| EvClose
| EvAuthSuccess
| EvFlush (send_ok : string -> bool)
| EvSilentTimeout
| EvReconnectTimer (create_ok : bool).

Definition handle (s : State) (e : Event) : State :=
  match e with
  | EvSubscribe t cb silent c ok => subscribeTicker t cb silent c ok s
  | EvUnsubscribe t cb ok => unsubscribeTicker t cb ok s
  | EvReconnect c => reconnect c s
  | EvOpen ok => onopen ok s
  | EvClose => onclose s
  | EvAuthSuccess => on_auth_success s
  | EvFlush ok => flush_pending ok s
  | EvSilentTimeout => silent_timeout s
  | EvReconnectTimer c => reconnect_timer_fires c s
  end.

Definition run (s : State) (es : list Event) : State := foldl handle s es.


(** Attempted sends of one frame recorded in a log. *)
Definition frame_eqb (f g : Frame) : bool :=
  match action f, action g with
  | auth, auth | subscribe, subscribe | unsubscribe, unsubscribe =>
      String.eqb (params f) (params g)
  | _, _ => false
  end.

Definition attempts_of (f : Frame) (log : list (Frame * bool)) : nat :=
  List.length (List.filter (fun e => frame_eqb f (fst e)) log).

Definition delivered (f : Frame) (log : list (Frame * bool)) : nat :=
  List.length (List.filter (fun e => frame_eqb f (fst e) && snd e) log).

(** [isAuthenticated && sharedWsClient && sharedWsClient.readyState === 1] *)
Definition ready (s : State) : bool :=
  isAuthenticated s && has_client s && client_open s.

Definition subscribe_frame (sub : string) : Frame :=
  {| action := subscribe; params := sub |}.


(** A transport on which every send succeeds. *)
Definition all_sent (_ : string) : bool := true.

(** A connection that is open and authenticated, with one listener on
    ETH-USD and that subscription active. *)
Definition ready_state : State :=
  run initial
    [EvSubscribe "X:ETHUSD" 7 true true true; EvOpen true; EvAuthSuccess;
     EvFlush all_sent].

(** The state after the teardown at the end of [unsubscribeTicker]. *)
Definition torn_down (s : State) : Prop :=
  sharedWsClient s = None /\ isConnected s = false
  /\ isAuthenticated s = false /\ currentSubscriptions s = []
  /\ pendingSubscriptions s = ∅ /\ reconnectAttempts s = 0%nat
  /\ reconnectTimer s = None.



(** One failed attempt: the reconnect timer fires, a socket is (or is not)
    created, and the transport closes again before it opens. *)
Definition failed_attempt (create_ok : bool) : list Event :=
  [EvReconnectTimer create_ok; EvClose].


(** The flush touches the active list, the pending set and the wire
    only. *)
Definition same_connection (s s' : State) : Prop :=
  sharedWsClient s' = sharedWsClient s
  /\ connectingPromise s' = connectingPromise s
  /\ reconnectTimer s' = reconnectTimer s
  /\ reconnectAttempts s' = reconnectAttempts s
  /\ scheduled s' = scheduled s.

(** One listener, and six closes in a row with no open in between: the
    module has used its five attempts. *)
Definition five_failures : State :=
  run initial
    (EvSubscribe "BTC-USD" 1 true true true
     :: EvClose :: flat_map failed_attempt [true; true; true; true; true]).

End LivePrice.

(** ** A pointer session on FlexibleCard *)

Module CardSession.
Import JSNumber JSString FlexibleCard.
Local Open Scope Q_scope.

(** [handleHeaderMouseDown].  [on_button] is
    [(e.target as HTMLElement).closest('button')] being non-null.  The
    optional [onHeaderMouseDown] prop is not part of the card's state. *)
Definition handleHeaderMouseDown (p : Props) (on_button : bool)
    (e : MouseEvent) (c : Card) : Card :=
  if on_button then c
  else if isMaximized p then c
  else
    {| c_width := c_width c; c_height := c_height c;
       c_x := c_x c; c_y := c_y c;
       isDragging := true; isResizing := isResizing c;
       resizeDirection := resizeDirection c;
       dragStart := {| mouseX := clientX e; mouseY := clientY e;
                       elementX := c_x c; elementY := c_y c;
                       ds_width := c_width c; ds_height := c_height c |} |}.

(** [handleMouseUp] *)
Definition handleMouseUp (c : Card) : Card :=
  {| c_width := c_width c; c_height := c_height c;
     c_x := c_x c; c_y := c_y c;
     isDragging := false; isResizing := false;
     resizeDirection := None; dragStart := dragStart c |}.

(** The document listeners exist only while [isDragging || isResizing]. *)
Definition listening (c : Card) : bool := isDragging c || isResizing c.

(** What the pointer can do to a card. *)
Inductive Pointer :=
| HeaderDown (on_button : bool) (e : MouseEvent)
| ResizeDown (direction : string) (e : MouseEvent)
| Move (e : MouseEvent)
| Up.

(** One pointer event: the card afterwards and the calls it made on the
    external handlers. *)
Definition pointer (p : Props) (c : Card) (ev : Pointer) : Card * list Call :=
  match ev with
  | HeaderDown on_button e => (handleHeaderMouseDown p on_button e c, [])
  | ResizeDown d e => (handleResizeStart p d e c, [])
  | Move e => if listening c then handleMouseMove p e c else (c, [])
  | Up => if listening c then (handleMouseUp c, []) else (c, [])
  end.

(** A sequence of pointer events, with all the calls made, in order. *)
Fixpoint pointers (p : Props) (c : Card) (evs : list Pointer)
    : Card * list Call :=
  match evs with
  | [] => (c, [])
  | ev :: evs' =>
      let '(c1, calls1) := pointer p c ev in
      let '(c2, calls2) := pointers p c1 evs' in
      (c2, calls1 ++ calls2)
  end.

Definition is_move (ev : Pointer) : bool :=
  match ev with Move _ => true | _ => false end.

End CardSession.

(** ** Views of the widget collection *)

Module Layout.
Import Dashboard.

(** The widget with its flag written out: [undefined] reads as [false]. *)
Definition with_flag_set (i : string) (w : Widget) : Widget :=
  if String.eqb (id w) i
  then with_isMaximized w (truthy (isMaximized w)) else w.

(** The chart of [one_chart]. *)
Definition the_chart : Widget := added chart None 1.

End Layout.

(** ** A widget of the dashboard and its card (DraggableWidget) *)

Module DraggableWidget.
Import JSNumber JSString Dashboard FlexibleCard.
Local Open Scope Q_scope.

(** The props [DraggableWidget] gives its [FlexibleCard]: no minimum of
    its own, the widget's flag, and both handlers. *)
Definition card_props (w : Widget) : Props :=
  {| minWidth := 200; minHeight := 150;
     FlexibleCard.isMaximized := truthy (Dashboard.isMaximized w);
     has_onMove := true; has_onResize := true |}.

(** [onMove={(x, y) => onMove(widget.id, x, y)}] and
    [onResize={(width, height) => onResize(widget.id, width, height)}]: the
    value the handler gives to [setWidgets].  [widgets] is the collection of
    the render that created the handlers. *)
Definition setWidgets_arg (i : string) (widgets : list Widget) (c : Call)
    : list Widget :=
  match c with
  | onMove nx ny => moveWidget i nx ny widgets
  | onResize nw nh => resizeWidget i nw nh widgets
  end.

(** The collection after an event whose handler made [calls]: every call
    of [setWidgets] replaces the state by its argument, so the last one
    stands. *)
Definition setWidgets_after (i : string) (widgets : list Widget)
    (calls : list Call) : list Widget :=
  fold_left (fun _ c => setWidgets_arg i widgets c) calls widgets.

(** A pointer move over the card of widget [w]. *)
Definition pointer_move (w : Widget) (widgets : list Widget) (e : MouseEvent)
    (c : Card) : Card * list Widget :=
  let '(c', calls) := handleMouseMove (card_props w) e c in
  (c', setWidgets_after (id w) widgets calls).

End DraggableWidget.

(** ** The hook's own operations (useLiveCryptoPrice) *)

Module LiveHook.
Import Ticker LivePrice.

(** [subscribe(newTicker)] of the hook: [current] is
    [currentTickerRef.current], [handleTrades] the hook's listener; the
    result carries the new value of the ref. *)
Definition hook_subscribe (current newTicker : string)
    (handleTrades : Callback) (unsub_ok create_ok sub_ok : bool) (s : State)
    : State * string :=
  if String.eqb newTicker current then (s, current)
  else
    let s := unsubscribeTicker current handleTrades unsub_ok s in
    (subscribeTicker newTicker handleTrades true create_ok sub_ok s,
     newTicker).

Definition is_unsubscribe (e : Event) : bool :=
  match e with EvUnsubscribe _ _ _ => true | _ => false end.

Definition is_close (e : Event) : bool :=
  match e with EvClose => true | _ => false end.

(** No socket, and the variable [connectingPromise] still holding a
    promise: [setupWebSocket] returns that promise and creates nothing. *)
Definition blocked (s : State) : Prop :=
  sharedWsClient s = None /\ connectingPromise s = true
  /\ reconnectTimer s = None.

(** The registry holds no empty set, and no subscription is both active
    and pending. *)
Definition registry_ok (s : State) : Prop :=
  (forall t cbs, subscribers s !! t = Some cbs -> cbs <> ∅)
  /\ (forall sub, In sub (currentSubscriptions s) ->
                  sub ∉ pendingSubscriptions s).

(** One listener on BTC-USD over a connection that has just been
    authenticated: the subscription is pending and the flush is scheduled. *)
Definition awaiting_flush : State :=
  run initial
    [EvSubscribe "BTC-USD" 1 true true true; EvOpen true; EvAuthSuccess].

(** One listener on BTC-USD, and the transport closed before it opened:
    the first reconnect is scheduled. *)
Definition waiting_to_reconnect : State :=
  run initial [EvSubscribe "BTC-USD" 1 true true true; EvClose].

(** Two listeners on BTC-USD while the connection is being set up: the
    subscription is pending. *)
Definition two_waiting : State :=
  run initial
    [EvSubscribe "BTC-USD" 1 true true true;
     EvSubscribe "X:BTCUSD" 2 true true true].

(** A transport on which every send throws. *)
Definition none_sent (_ : string) : bool := false.

End LiveHook.

(** ** Incoming messages (cryptoWS.onmessage) and the hook's listener *)

Module TradeMessages.
Import JSON Ticker LivePrice.

(** [k in item], for an object. *)
Definition has_key (k : string) (item : json) : bool :=
  match get k item with Some _ => true | None => false end.

(** The filter of valid trade messages:
    [item && typeof item === 'object' && item.ev === 'XT' && 'p' in item
     && 't' in item && 's' in item && 'pair' in item].  An array is an
    object without [ev]. *)
Definition is_trade (item : json) : bool :=
  match item with
  | JObj _ =>
      match get "ev" item with
      | Some (JStr ev) => String.eqb ev "XT"
      | _ => false
      end
      && has_key "p" item && has_key "t" item && has_key "s" item
      && has_key "pair" item
  | _ => false
  end.

(** Equality of [Map] keys (SameValueZero) between the [pair] values of
    two trades of one message; [None] is [undefined].  Two parsed objects
    or arrays are never the same object. *)
Definition same_key (k k' : option json) : bool :=
  match k, k' with
  | None, None => true
  | Some JNull, Some JNull => true
  | Some (JBool b), Some (JBool b') => Bool.eqb b b'
  | Some (JNum q), Some (JNum q') => Qeq_bool q q'
  | Some (JStr s), Some (JStr s') => String.eqb s s'
  | _, _ => false
  end.

(** [if (!tradesByPair.has(trade.pair)) tradesByPair.set(trade.pair, []);
     tradesByPair.get(trade.pair)!.push(trade)]: the entries of the map in
    insertion order. *)
Fixpoint push_trade (key : option json) (trade : json)
    (groups : list (option json * list json))
    : list (option json * list json) :=
  match groups with
  | [] => [(key, [trade])]
  | (k, pairTrades) :: rest =>
      if same_key k key then (k, pairTrades ++ [trade]) :: rest
      else (k, pairTrades) :: push_trade key trade rest
  end.

Definition tradesByPair (trades : list json)
    : list (option json * list json) :=
  fold_left (fun groups trade => push_trade (get "pair" trade) trade groups)
    trades [].

(** [subscribers.get(pair)]: the registry has string keys only. *)
Definition pairSubscribers (subs : gmap string (gset Callback))
    (key : option json) : gset Callback :=
  match key with
  | Some (JStr p) => default ∅ (subs !! p)
  | _ => ∅
  end.

Definition wildcardSubscribers (subs : gmap string (gset Callback))
    : gset Callback :=
  default ∅ (subs !! "*").

(** The calls one listener receives for one entry of the map: one as a
    subscriber of the pair, then one as a wildcard subscriber. *)
Definition calls_for_pair (cb : Callback) (subs : gmap string (gset Callback))
    (entry : option json * list json) : list (list json) :=
  (if bool_decide (cb ∈ pairSubscribers subs (fst entry))
   then [snd entry] else [])
  ++ (if bool_decide (cb ∈ wildcardSubscribers subs)
      then [snd entry] else []).

(** The trade part of [onmessage] for parsed [data]: the arrays a
    listener is called with, in order.  The order of the calls between
    different listeners is that of the sets and is not modelled; listeners
    return normally. *)
Definition notified (cb : Callback) (subs : gmap string (gset Callback))
    (data : json) : list (list json) :=
  match data with
  | JArr items =>
      flat_map (calls_for_pair cb subs)
        (tradesByPair (List.filter is_trade items))
  | _ => []
  end.

(** The trade has the string [pair] as its [pair]. *)
Definition has_pair (ticker : string) (trade : json) : bool :=
  match get "pair" trade with
  | Some (JStr p) => String.eqb p ticker
  | _ => false
  end.

(** The state cells of one hook that its listener writes. *)
Record HookState := {
  lastPrice : option Q;
  tradeMessages : list json
}.

(** [l.slice(-n)] *)
Definition slice_last (n : nat) (l : list json) : list json :=
  skipn (List.length l - n) l.

(** [handleTrades] *)
Definition handleTrades (trades : list json) (h : HookState) : HookState :=
  match trades with
  | [] => h
  | _ :: _ =>
      let latestTrade := List.last trades JNull in
      {| lastPrice :=
           match get "p" latestTrade with
           | Some (JNum p) => Some p
           | _ => lastPrice h
           end;
         tradeMessages := slice_last 100 (tradeMessages h ++ trades) |}
  end.

(** The number of registrations through which a listener hears of a
    pair: its own entry and the wildcard entry. *)
Definition registrations (cb : Callback) (subs : gmap string (gset Callback))
    (ticker : string) : nat :=
  (if bool_decide (cb ∈ default ∅ (subs !! ticker)) then 1 else 0)
  + (if bool_decide (cb ∈ wildcardSubscribers subs) then 1 else 0).

(** A trade message as the feed sends it. *)
Definition trade_of (ticker : string) (p t sz : Q) : json :=
  JObj [("ev", JStr "XT"); ("pair", JStr ticker); ("p", JNum p);
        ("t", JNum t); ("s", JNum sz)].

Definition key_is (ticker : string) (k : option json) : bool :=
  match k with
  | Some (JStr p) => String.eqb p ticker
  | _ => false
  end.

(** The batches of the entries whose key is the string [pair]. *)
Definition pick (ticker : string) (groups : list (option json * list json))
    : list (list json) :=
  flat_map (fun g => if key_is ticker (fst g) then [snd g] else []) groups.

Definition joined (batches : list (list json)) (more : list json)
    : list (list json) :=
  match batches, more with
  | [], [] => []
  | [], _ :: _ => [more]
  | ts :: _, _ => [ts ++ more]
  end.

(** Every trade of an entry has the key of the entry, as far as a string
    can tell. *)
Definition single_pair (ticker : string)
    (groups : list (option json * list json)) : Prop :=
  forall k ts x, In (k, ts) groups -> In x ts ->
    has_pair ticker x = key_is ticker k.

End TradeMessages.

(** ** Ticker spellings used by the chart components *)

Module TickerViews.
Import JSString Ticker.
Local Open Scope string_scope.

(** [getTickerDetailsFormat] of RealTimeCryptoChart: the spelling for the
    ticker-details API. *)
Definition getTickerDetailsFormat (inputTicker : string) : string :=
  if String.eqb inputTicker "" then "X:BTCUSD"
  else
    let result := inputTicker in
    let result :=
      if negb (String.prefix "X:" result) then "X:" +:+ result else result in
    let result :=
      if includes "-" result then replace "-" "" result else result in
    result.

(** [getDisplayTicker] of CryptoChartComponent. *)
Definition getDisplayTicker (ticker : string) : string :=
  if String.prefix "X:" ticker then substring_from 2 ticker else ticker.

(** The base symbol a normalised ticker is built on: the input when it is
    shorter than six code units, its first three otherwise. *)
Definition base_of (b : string) : string :=
  if (String.length b <? 6)%nat then b else substring_to 3 b.

(** The rest of the normaliser after the ["X:"] has been removed. *)
Definition after_prefix (formatted : string) : string :=
  let formatted := remove_quote_suffix formatted in
  let formatted :=
    if negb (includes "-" formatted) then
      if (6 <=? String.length formatted)%nat then
        substring_to 3 formatted +:+ "-" +:+ substring_from 3 formatted
      else formatted
    else formatted in
  if negb (endsWith "-USD" formatted)
  then split_head "-" formatted +:+ "-USD"
  else formatted.

End TickerViews.

(** ** The candles of SimpleCandlestickChart *)

Module CandleChart.
Import JSNumber.
Local Open Scope Q_scope.

Record Candle := {
  index : nat;
  timestamp : Q;
  open : Q;
  high : Q;
  low : Q;
  close : Q
}.

(** [chartState.current], as far as the trade effect writes it, and the
    candles it has handed to [dataSeries.append], in order. *)
Record ChartState := {
  nextIndex : nat;
  currentCandle : option Candle;
  appended : list Candle
}.

Definition CANDLE_TIMEFRAME : Q := 1.

Definition Math_floor (q : Q) : Q := inject_Z (Qfloor q).

Definition Math_min (a b : Q) : Q := Qmin a b.

Definition candleTimestamp_of (timestamp : Q) : Q :=
  let candleDuration := CANDLE_TIMEFRAME * 1000 in
  Math_floor (timestamp / candleDuration) * candleDuration.

Definition newCandle (i : nat) (candleTimestamp price : Q) : Candle :=
  {| index := i; timestamp := candleTimestamp;
     open := price; high := price; low := price; close := price |}.

(** The trade effect for the latest trade, with a numeric time [t] and
    price [p].  [append_ok] says whether [dataSeries.append] returned; when
    it throws, the [catch] of the effect ends the update.  The later calls
    on the series ([update], [removeRange]) come after every write to
    [chartState.current]. *)
Definition updateCandle (append_ok : bool) (t p : Q) (st : ChartState)
    : ChartState :=
  let candleTimestamp := candleTimestamp_of t in
  match currentCandle st with
  | None =>
      {| nextIndex := nextIndex st;
         currentCandle := Some (newCandle (nextIndex st) candleTimestamp p);
         appended := appended st |}
  | Some c =>
      if strict_neq (timestamp c) candleTimestamp then
        if append_ok then
          {| nextIndex := S (nextIndex st);
             currentCandle :=
               Some (newCandle (S (nextIndex st)) candleTimestamp p);
             appended := appended st ++ [c] |}
        else st
      else
        {| nextIndex := nextIndex st;
           currentCandle :=
             Some {| index := index c; timestamp := timestamp c;
                     open := open c; high := Math_max (high c) p;
                     low := Math_min (low c) p; close := p |};
           appended := appended st |}
  end.

(** The chart when it has just been created. *)
Definition fresh : ChartState :=
  {| nextIndex := 0; currentCandle := None; appended := [] |}.

(** The effect run for a sequence of latest trades. *)
Definition updateCandles (trades : list (bool * Q * Q)) (st : ChartState)
    : ChartState :=
  fold_left (fun st '(ok, t, p) => updateCandle ok t p st) trades st.

(** Low and high bound the open and the close. *)
Definition candle_ok (c : Candle) : Prop :=
  low c <= open c /\ open c <= high c /\ low c <= close c /\ close c <= high c.

(** The candles the chart knows, oldest first. *)
Definition candles (st : ChartState) : list Candle :=
  appended st ++ match currentCandle st with Some c => [c] | None => [] end.

(** Neighbours in the list have different timestamps. *)
Fixpoint neighbours_differ (l : list Candle) : Prop :=
  match l with
  | c :: ((d :: _) as rest) =>
      ~ timestamp c == timestamp d /\ neighbours_differ rest
  | _ => True
  end.

(** What the trade effect keeps true of the chart. *)
Definition chart_ok (st : ChartState) : Prop :=
  Forall candle_ok (candles st)
  /\ List.map index (candles st) = seq 0 (List.length (candles st))
  /\ nextIndex st = List.length (appended st)
  /\ (currentCandle st = None -> appended st = [])
  /\ neighbours_differ (candles st)
  /\ Forall (fun c => exists k : Z, timestamp c == inject_Z k * 1000)
       (candles st).

End CandleChart.

(** * Properties *)

(** ** Numbers *)

Module JSNumberFacts.
Import JSNumber.
Local Open Scope Q_scope.

Lemma Math_max_lower_l a b : a <= Math_max a b.
Proof. apply Q.le_max_l. Qed.

Lemma Math_max_lower_r a b : b <= Math_max a b.
Proof. apply Q.le_max_r. Qed.

Lemma Math_max_cases a b :
  (b <= a /\ Math_max a b == a) \/ (a <= b /\ Math_max a b == b).
Proof.
  destruct (Qlt_le_dec a b) as [H|H].
  - right. split; [apply Qlt_le_weak, H|]. apply Q.max_r, Qlt_le_weak, H.
  - left. split; [exact H|]. apply Q.max_l, H.
Qed.



Lemma Math_max_0_100 : Math_max 0 100 = 100.
Proof. reflexivity. Qed.

End JSNumberFacts.

(** ** JSON text *)

Module JSONFacts.
Import JSON.

(** *** Digits *)

Lemma digit_cases (d : N) :
  (d < 10)%N ->
  d = 0%N \/ d = 1%N \/ d = 2%N \/ d = 3%N \/ d = 4%N \/ d = 5%N
  \/ d = 6%N \/ d = 7%N \/ d = 8%N \/ d = 9%N.
Proof. lia. Qed.

Lemma digit_of_digit_char d : (d < 10)%N -> digit_of (digit_char d) = Some d.
Proof.
  intros H. destruct (digit_cases d H)
    as [->|[->|[->|[->|[->|[->|[->|[->|[->| ->]]]]]]]]]; reflexivity.
Qed.

Lemma digit_char_not c d :
  (d < 10)%N -> digit_of c = None -> digit_char d <> c.
Proof.
  intros H Hc <-. rewrite digit_of_digit_char in Hc by exact H. discriminate.
Qed.

Lemma read_digits_no_digit rest :
  no_digit_ahead rest -> read_digits rest = ([], rest).
Proof. destruct rest as [|c rest]; cbn; [reflexivity|]. now intros ->. Qed.

Lemma read_digits_app ds rest :
  Forall (fun d => (d < 10)%N) ds -> no_digit_ahead rest ->
  read_digits (List.map digit_char ds ++ rest) = (ds, rest).
Proof.
  intros Hds Hrest. induction Hds as [|d ds Hd Hds IH]; cbn [List.map app].
  - now apply read_digits_no_digit.
  - cbn [read_digits]. now rewrite digit_of_digit_char, IH.
Qed.

Lemma fold_digits ds : forall acc,
  fold_left (fun a d => (10 * a + d)%N) ds acc =
  (acc * 10 ^ N.of_nat (List.length ds) + digits_value ds)%N.
Proof.
  unfold digits_value.
  induction ds as [|d ds IH]; intros acc; cbn [fold_left List.length].
  - cbn. lia.
  - rewrite IH, (IH (10 * 0 + d)%N), Nat2N.inj_succ, N.pow_succ_r'. lia.
Qed.

Lemma digits_value_cons d ds :
  digits_value (d :: ds) =
  (d * 10 ^ N.of_nat (List.length ds) + digits_value ds)%N.
Proof. unfold digits_value at 1. cbn [fold_left]. rewrite fold_digits. lia. Qed.

Lemma digits_value_snoc ds d :
  digits_value (ds ++ [d]) = (10 * digits_value ds + d)%N.
Proof. unfold digits_value. now rewrite fold_left_app. Qed.

Lemma digits_onto_acc fuel : forall n acc,
  digits_onto fuel n acc = digits_onto fuel n [] ++ acc.
Proof.
  induction fuel as [|fuel IH]; intros n acc; cbn; [reflexivity|].
  destruct (n / 10 =? 0)%N; [reflexivity|].
  rewrite IH, (IH _ [_]), <- app_assoc. reflexivity.
Qed.

Lemma digits_onto_step fuel n acc :
  digits_onto (S fuel) n acc =
  if (n / 10 =? 0)%N then (n mod 10)%N :: acc
  else digits_onto fuel (n / 10)%N ((n mod 10)%N :: acc).
Proof. reflexivity. Qed.

(** The digits of [n]: each below ten, their value is [n], and the first
    one is zero for [n = 0] only. *)
Lemma digits_onto_spec fuel : forall n,
  (n < 10 ^ N.of_nat (S fuel))%N ->
  let ds := digits_onto (S fuel) n [] in
  Forall (fun d => (d < 10)%N) ds
  /\ digits_value ds = n
  /\ (n = 0%N -> ds = [0%N])
  /\ (n <> 0%N -> exists h tl, ds = h :: tl /\ h <> 0%N).
Proof.
  induction fuel as [|fuel IH]; intros n Hn; cbv zeta.
  - change (N.of_nat 1) with 1%N in Hn. rewrite N.pow_1_r in Hn.
    rewrite digits_onto_step, N.div_small, N.mod_small by exact Hn. cbn.
    split; [|split; [|split]].
    + constructor; [exact Hn|constructor].
    + unfold digits_value. cbn [fold_left]. lia.
    + now intros ->.
    + intros Hne. eauto.
  - rewrite digits_onto_step.
    assert (Hmod : (n mod 10 < 10)%N) by (apply N.mod_lt; lia).
    destruct (n / 10 =? 0)%N eqn:E.
    + apply N.eqb_eq in E. apply N.div_small_iff in E; [|lia].
      rewrite N.mod_small by exact E. split; [|split; [|split]].
      * constructor; [exact E|constructor].
      * unfold digits_value. cbn [fold_left]. lia.
      * now intros ->.
      * intros Hne. eauto.
    + apply N.eqb_neq in E. rewrite digits_onto_acc.
      assert (Hdiv : (n / 10 < 10 ^ N.of_nat (S fuel))%N).
      { apply N.Div0.div_lt_upper_bound.
        rewrite (Nat2N.inj_succ (S fuel)), N.pow_succ_r' in Hn. exact Hn. }
      destruct (IH (n / 10)%N Hdiv) as (Hall & Hval & _ & Hhead).
      cbv zeta in Hall, Hval, Hhead. split; [|split; [|split]].
      * apply Forall_app. split; [exact Hall|]. constructor; [exact Hmod|constructor].
      * rewrite digits_value_snoc, Hval.
        rewrite (N.div_mod' n 10) at 3. lia.
      * intros ->. now cbn in E.
      * intros _. destruct (Hhead E) as (h & tl & -> & Hh).
        exists h, (tl ++ [(n mod 10)%N]). split; [reflexivity|exact Hh].
Qed.

Lemma digits_of_N_spec n :
  let ds := digits_of_N n in
  Forall (fun d => (d < 10)%N) ds
  /\ digits_value ds = n
  /\ (n = 0%N -> ds = [0%N])
  /\ (n <> 0%N -> exists h tl, ds = h :: tl /\ h <> 0%N).
Proof.
  apply digits_onto_spec.
  destruct (N.eq_dec n 0) as [->|Hne]; [reflexivity|].
  destruct (N.log2_spec n) as [_ Hlt]; [lia|].
  eapply N.lt_le_trans; [exact Hlt|].
  rewrite Nat2N.inj_succ, N2Nat.id.
  apply N.pow_le_mono_l. lia.
Qed.

(** *** Numbers *)

Lemma fraction_digits_spec fuel : forall r d,
  (r < d)%N -> fraction_exact fuel r d = true ->
  let frac := fraction_digits fuel r d in
  Forall (fun x => (x < 10)%N) frac
  /\ (r * 10 ^ N.of_nat (List.length frac) = digits_value frac * d)%N.
Proof.
  induction fuel as [|fuel IH]; intros r d Hr He; cbv zeta.
  - cbn in *. apply N.eqb_eq in He. subst r. split; [constructor|].
    unfold digits_value. cbn. lia.
  - cbn [fraction_digits fraction_exact] in *.
    destruct (r =? 0)%N eqn:E.
    + apply N.eqb_eq in E. subst r. split; [constructor|].
      unfold digits_value. cbn. lia.
    + cbn [orb] in He.
      assert (Hd : d <> 0%N) by lia.
      assert (Hr' : (10 * r mod d < d)%N) by (apply N.mod_lt; exact Hd).
      destruct (IH _ _ Hr' He) as [Hall Hval]. cbv zeta in Hall, Hval.
      split.
      * constructor; [|exact Hall].
        apply N.Div0.div_lt_upper_bound. lia.
      * rewrite digits_value_cons. cbn [List.length].
        rewrite Nat2N.inj_succ, N.pow_succ_r'.
        set (k := (10 ^ N.of_nat (List.length
                     (fraction_digits fuel (10 * r mod d) d)))%N) in *.
        pose proof (N.div_mod' (10 * r) d) as Hdm. nia.
Qed.

Lemma digit_char_not_minus d :
  (d < 10)%N -> Ascii.eqb (digit_char d) "-" = false.
Proof.
  intros H. destruct (digit_cases d H)
    as [->|[->|[->|[->|[->|[->|[->|[->|[->| ->]]]]]]]]]; reflexivity.
Qed.

Lemma Qred_of_cross (a : Z) (b : positive) (q : Q) :
  (a * Z.pos (Qden q) = Qnum q * Z.pos b)%Z ->
  Qred (a # b)%Q = Qred q.
Proof. intros H. apply Qred_complete. exact H. Qed.

Lemma read_exponent_stop rest :
  number_stop rest -> read_exponent rest = Some (0%Z, rest).
Proof.
  destruct rest as [|c rest]; cbn; [reflexivity|].
  intros (_ & _ & -> & ->). reflexivity.
Qed.

Lemma parse_print_number q rest :
  decimal q = true -> number_stop rest ->
  parse_number (print_number q ++ rest) = Some (Qred q, rest).
Proof.
  intros Hexact Hstop. unfold decimal in Hexact.
  destruct q as [n d]. cbn [Qnum Qden] in *.
  unfold print_number. cbn [Qnum Qden].
  set (a := Z.abs_N n) in *. set (dn := N.pos d) in *.
  assert (Hdn : (0 < dn)%N) by (unfold dn; lia).
  assert (Hrem : (a mod dn < dn)%N) by (apply N.mod_lt; lia).
  destruct (fraction_digits_spec _ _ _ Hrem Hexact) as [Hfall Hfval].
  cbv zeta in Hfall, Hfval.
  set (frac := fraction_digits (fraction_fuel dn) (a mod dn) dn) in *.
  destruct (digits_of_N_spec (a / dn)) as (Hiall & Hival & Hizero & Hihead).
  cbv zeta in Hiall, Hival, Hizero, Hihead.
  set (int := digits_of_N (a / dn)) in *.
  set (tail := match frac with
               | [] => []
               | _ :: _ => "."%char :: List.map digit_char frac
               end).
  assert (Hahead : no_digit_ahead (tail ++ rest)).
  { unfold tail. destruct frac; [|exact eq_refl].
    destruct rest as [|c rest]; [exact I|]. apply Hstop. }
  assert (Hint : exists h tl, int = h :: tl
                 /\ (h < 10)%N /\ (h = 0%N -> tl = [])).
  { destruct (N.eq_dec (a / dn) 0) as [E|E].
    - rewrite (Hizero E). exists 0%N, []. repeat split; lia.
    - destruct (Hihead E) as (h & tl & Hi & Hh). exists h, tl.
      split; [exact Hi|]. split; [|intros; contradiction].
      rewrite Hi in Hiall. now inversion Hiall. }
  destruct Hint as (h & tl & Hi & Hh & Hlead).
  assert (Hfrac_part : read_fraction (tail ++ rest) = Some (frac, rest)).
  { unfold read_fraction, tail. destruct frac as [|f frac'] eqn:Ef.
    - cbn [app]. destruct rest as [|c rest]; [reflexivity|].
      destruct Hstop as (_ & -> & _). reflexivity.
    - cbn [app]. rewrite Ascii.eqb_refl.
      rewrite read_digits_app; [reflexivity|exact Hfall|].
      destruct rest as [|c rest]; [exact I|]. apply Hstop. }
  assert (Hvalue : forall neg : bool, neg = (n <? 0)%Z ->
    scale10
      (if neg
       then (- Z.of_N (digits_value int * 10 ^ N.of_nat (List.length frac)
                       + digits_value frac))%Z
       else Z.of_N (digits_value int * 10 ^ N.of_nat (List.length frac)
                    + digits_value frac))
      (List.length frac) 0 = Qred (n # d)%Q).
  { intros neg ->. unfold scale10. cbn [Z.leb Z.compare].
    apply Qred_of_cross. cbn [Qnum Qden].
    rewrite Z2Pos.id by (apply Z.pow_pos_nonneg; lia).
    rewrite Hival.
    set (k := List.length frac) in *.
    assert (Hk : (10 ^ Z.of_nat k = Z.of_N (10 ^ N.of_nat k))%Z).
    { rewrite N2Z.inj_pow, nat_N_Z. reflexivity. }
    rewrite Hk.
    assert (Hm : ((a / dn * 10 ^ N.of_nat k + digits_value frac) * dn
                  = a * 10 ^ N.of_nat k)%N).
    { pose proof (N.div_mod' a dn) as Hdm. nia. }
    assert (Ha : Z.of_N a = Z.abs n) by (unfold a; apply N2Z.inj_abs_N).
    assert (Hd' : Z.of_N dn = Z.pos d) by reflexivity.
    apply (f_equal Z.of_N) in Hm. rewrite !N2Z.inj_mul in Hm.
    rewrite Ha, Hd' in Hm. rewrite Z.pow_0_r, Z.mul_1_r.
    destruct (n <? 0)%Z eqn:En.
    - apply Z.ltb_lt in En. rewrite Z.abs_neq in Hm by lia. lia.
    - apply Z.ltb_ge in En. rewrite Z.abs_eq in Hm by lia. lia. }
  assert (Hsign :
    read_sign ((if (n <? 0)%Z then ["-"%char] else [])
               ++ List.map digit_char int ++ tail ++ rest)
    = ((n <? 0)%Z, List.map digit_char int ++ tail ++ rest)).
  { destruct (n <? 0)%Z; [reflexivity|]. rewrite Hi. cbn [app List.map].
    unfold read_sign. now rewrite (digit_char_not_minus h Hh). }
  unfold parse_number. rewrite <- !app_assoc. fold tail. rewrite Hsign.
  destruct (n <? 0)%Z eqn:En.
  - rewrite (read_digits_app int (tail ++ rest) Hiall Hahead).
    rewrite Hi in *. destruct h as [|hp].
    + rewrite (Hlead eq_refl) in *. cbv beta iota. rewrite Hfrac_part.
      rewrite (read_exponent_stop rest Hstop).
      rewrite (Hvalue true eq_refl). reflexivity.
    + cbv beta iota. rewrite Hfrac_part, (read_exponent_stop rest Hstop).
      rewrite (Hvalue true eq_refl). reflexivity.
  - rewrite (read_digits_app int (tail ++ rest) Hiall Hahead).
    rewrite Hi in *. destruct h as [|hp].
    + rewrite (Hlead eq_refl) in *. cbv beta iota. rewrite Hfrac_part.
      rewrite (read_exponent_stop rest Hstop).
      rewrite (Hvalue false eq_refl). reflexivity.
    + cbv beta iota. rewrite Hfrac_part, (read_exponent_stop rest Hstop).
      rewrite (Hvalue false eq_refl). reflexivity.
Qed.

(** *** Strings *)

Lemma parse_chars_escape c t :
  parse_chars (escape c ++ t) =
  match parse_chars t with
  | Some (cs, rest) => Some (c :: cs, rest)
  | None => None
  end.
Proof.
  destruct c as [[] [] [] [] [] [] [] []]; reflexivity.
Qed.

Lemma parse_print_chars cs rest :
  parse_chars (flat_map escape cs ++ "034"%char :: rest) = Some (cs, rest).
Proof.
  induction cs as [|c cs IH]; [reflexivity|].
  cbn [flat_map]. rewrite <- app_assoc, parse_chars_escape, IH. reflexivity.
Qed.

Lemma parse_print_string s rest :
  parse_string (List.tl (print_string s) ++ rest) = Some (s, rest).
Proof.
  unfold parse_string, print_string. cbn [List.tl].
  rewrite <- app_assoc. cbn [app]. rewrite parse_print_chars.
  unfold chars. now rewrite string_of_list_ascii_of_string.
Qed.

(** *** Values *)

(** Induction over a value and the values nested in it. *)
Lemma json_induction (P : json -> Prop) :
  P JNull -> (forall b, P (JBool b)) -> (forall q, P (JNum q)) ->
  (forall s, P (JStr s)) ->
  (forall items, Forall P items -> P (JArr items)) ->
  (forall members, Forall (fun kv => P (snd kv)) members -> P (JObj members)) ->
  forall v, P v.
Proof.
  intros HN HB HQ HS HA HO. fix IH 1. intros [ |b|q|s|items|members].
  - exact HN.
  - apply HB.
  - apply HQ.
  - apply HS.
  - apply HA. induction items as [|x items IHi]; constructor; [apply IH|exact IHi].
  - apply HO. induction members as [|[k x] members IHm]; constructor;
      [apply IH|exact IHm].
Qed.

Lemma print_items_cons pr x l :
  print_items pr (x :: l) =
  pr x ++ match l with
          | [] => ["]"%char]
          | _ :: _ => ","%char :: print_items pr l
          end.
Proof. destruct l; reflexivity. Qed.

Lemma print_members_cons pr k x l :
  print_members pr ((k, x) :: l) =
  print_string k ++ ":"%char :: pr x
  ++ match l with
     | [] => ["}"%char]
     | _ :: _ => ","%char :: print_members pr l
     end.
Proof. destruct l; reflexivity. Qed.

Lemma print_number_head q :
  exists c tl, print_number q = c :: tl
    /\ (c = "-"%char \/ exists h, (h < 10)%N /\ c = digit_char h).
Proof.
  unfold print_number.
  destruct (digits_of_N_spec (Z.abs_N (Qnum q) / N.pos (Qden q)))
    as (Hall & _ & H0 & Hn). cbv zeta in *.
  destruct (Qnum q <? 0)%Z.
  - eexists _, _. split; [reflexivity|]. now left.
  - destruct (digits_of_N (Z.abs_N (Qnum q) / N.pos (Qden q))) as [|h tl] eqn:E.
    + exfalso. destruct (N.eq_dec (Z.abs_N (Qnum q) / N.pos (Qden q)) 0) as [Hz|Hz].
      * specialize (H0 Hz). discriminate.
      * destruct (Hn Hz) as (? & ? & ? & _). discriminate.
    + eexists _, _. split; [reflexivity|]. right. exists h.
      split; [now inversion Hall|reflexivity].
Qed.

Lemma digit_char_opens h : (h < 10)%N -> opens_value (digit_char h).
Proof.
  intros H. destruct (digit_cases h H)
    as [->|[->|[->|[->|[->|[->|[->|[->|[->| ->]]]]]]]]]; repeat split.
Qed.

Lemma print_head v : exists c tl, print v = c :: tl /\ opens_value c.
Proof.
  destruct v as [ |[]|q|s|items|members];
    try (eexists _, _; split; [reflexivity|repeat split]).
  cbn [print].
  destruct (print_number_head q) as (c & tl & E & [->|(h & Hh & ->)]);
    rewrite E; eexists _, tl; (split; [reflexivity|]).
  - repeat split.
  - now apply digit_char_opens.
Qed.

Lemma skip_ws_opens c t : is_ws c = false -> skip_ws (c :: t) = c :: t.
Proof. intros H. cbn. now rewrite H. Qed.

Lemma parse_value_S fuel t :
  parse_value (S fuel) t =
  match skip_ws t with
  | [] => None
  | c :: t' =>
      if Ascii.eqb c "034" then
        match parse_string t' with
        | Some (s, rest) => Some (JStr s, rest)
        | None => None
        end
      else if Ascii.eqb c "[" then
        match skip_ws t' with
        | c2 :: t2 =>
            if Ascii.eqb c2 "]" then Some (JArr [], t2)
            else
              match parse_items fuel t' with
              | Some (items, rest) => Some (JArr items, rest)
              | None => None
              end
        | [] => None
        end
      else if Ascii.eqb c "{" then
        match skip_ws t' with
        | c2 :: t2 =>
            if Ascii.eqb c2 "}" then Some (JObj [], t2)
            else
              match parse_members fuel t' with
              | Some (members, rest) => Some (JObj members, rest)
              | None => None
              end
        | [] => None
        end
      else if Ascii.eqb c "t" then
        match strip (chars "rue") t' with
        | Some rest => Some (JBool true, rest)
        | None => None
        end
      else if Ascii.eqb c "f" then
        match strip (chars "alse") t' with
        | Some rest => Some (JBool false, rest)
        | None => None
        end
      else if Ascii.eqb c "n" then
        match strip (chars "ull") t' with
        | Some rest => Some (JNull, rest)
        | None => None
        end
      else if Ascii.eqb c "-" || is_digit c then
        match parse_number (c :: t') with
        | Some (q, rest) => Some (JNum q, rest)
        | None => None
        end
      else None
  end.
Proof. reflexivity. Qed.

Lemma parse_items_S fuel t :
  parse_items (S fuel) t =
  match parse_value fuel t with
  | None => None
  | Some (v, rest) =>
      match skip_ws rest with
      | c :: rest' =>
          if Ascii.eqb c "," then
            match parse_items fuel rest' with
            | Some (vs, r) => Some (v :: vs, r)
            | None => None
            end
          else if Ascii.eqb c "]" then Some ([v], rest')
          else None
      | [] => None
      end
  end.
Proof. reflexivity. Qed.

Lemma parse_members_S fuel t :
  parse_members (S fuel) t =
  match skip_ws t with
  | q :: t1 =>
      if Ascii.eqb q "034" then
        match parse_string t1 with
        | None => None
        | Some (k, t2) =>
            match skip_ws t2 with
            | colon :: t3 =>
                if Ascii.eqb colon ":" then
                  match parse_value fuel t3 with
                  | None => None
                  | Some (v, rest) =>
                      match skip_ws rest with
                      | c :: rest' =>
                          if Ascii.eqb c "," then
                            match parse_members fuel rest' with
                            | Some (ms, r) => Some ((k, v) :: ms, r)
                            | None => None
                            end
                          else if Ascii.eqb c "}" then Some ([(k, v)], rest')
                          else None
                      | [] => None
                      end
                  end
                else None
            | [] => None
            end
        end
      else None
  | [] => None
  end.
Proof. reflexivity. Qed.

Lemma parse_value_number fuel c t :
  c = "-"%char \/ (exists h, (h < 10)%N /\ c = digit_char h) ->
  parse_value (S fuel) (c :: t) =
  match parse_number (c :: t) with
  | Some (q, rest) => Some (JNum q, rest)
  | None => None
  end.
Proof.
  intros [->|(h & Hh & ->)]; [reflexivity|].
  destruct (digit_cases h Hh)
    as [->|[->|[->|[->|[->|[->|[->|[->|[->| ->]]]]]]]]]; reflexivity.
Qed.

Lemma number_stop_closer c rest :
  c = ","%char \/ c = "]"%char \/ c = "}"%char -> number_stop (c :: rest).
Proof. intros [->|[->| ->]]; repeat split. Qed.

Lemma items_read_back items :
  Forall reads_back items -> items <> [] ->
  forall fuel rest,
    forallb json_ok items = true ->
    List.length (print_items print items) <= fuel ->
    parse_items fuel (print_items print items ++ rest)
    = Some (List.map canon items, rest).
Proof.
  induction 1 as [|x l Hx Hl IH]; intros Hne fuel rest Hok Hfuel;
    [contradiction|].
  rewrite print_items_cons in *. rewrite length_app in Hfuel.
  cbn [forallb] in Hok. apply andb_true_iff in Hok as [Hokx Hokl].
  destruct fuel as [|fuel]; [destruct l; cbn in Hfuel; lia|].
  rewrite parse_items_S, <- app_assoc.
  destruct l as [|y l'].
  - cbn [app List.length] in *.
    rewrite (Hx fuel ("]"%char :: rest) Hokx); [reflexivity| |lia].
    apply number_stop_closer. auto.
  - cbn [app List.length] in *.
    rewrite (Hx fuel (","%char :: print_items print (y :: l') ++ rest) Hokx);
      [| |lia].
    + cbn [skip_ws is_ws Ascii.eqb Bool.eqb orb].
      rewrite IH; [reflexivity|discriminate|exact Hokl|lia].
    + apply number_stop_closer. auto.
Qed.

Lemma members_read_back members :
  Forall (fun kv => reads_back (snd kv)) members -> members <> [] ->
  forall fuel rest,
    forallb (fun kv => json_ok (snd kv)) members = true ->
    List.length (print_members print members) <= fuel ->
    parse_members fuel (print_members print members ++ rest)
    = Some (List.map (fun kv => (fst kv, canon (snd kv))) members, rest).
Proof.
  induction 1 as [|[k x] l Hx Hl IH]; intros Hne fuel rest Hok Hfuel;
    [contradiction|].
  rewrite print_members_cons in *.
  cbn [forallb snd] in Hok, Hx. apply andb_true_iff in Hok as [Hokx Hokl].
  rewrite length_app in Hfuel. cbn [List.length] in Hfuel.
  rewrite length_app in Hfuel.
  destruct fuel as [|fuel]; [lia|].
  rewrite parse_members_S.
  change (print_string k) with ("034"%char :: List.tl (print_string k)).
  cbn [app skip_ws is_ws Ascii.eqb Bool.eqb orb].
  rewrite <- app_assoc, parse_print_string.
  cbn [app skip_ws is_ws Ascii.eqb Bool.eqb orb].
  rewrite <- app_assoc.
  destruct l as [|y l'].
  - cbn [app List.length] in *.
    rewrite (Hx fuel ("}"%char :: rest) Hokx); [reflexivity| |lia].
    apply number_stop_closer. auto.
  - cbn [app List.length] in *.
    rewrite (Hx fuel (","%char :: print_members print (y :: l') ++ rest) Hokx);
      [| |lia].
    + cbn [skip_ws is_ws Ascii.eqb Bool.eqb orb].
      rewrite IH; [reflexivity|discriminate|exact Hokl|lia].
    + apply number_stop_closer. auto.
Qed.

Theorem print_reads_back v : reads_back v.
Proof.
  induction v as [ |b|q|s|items IH|members IH] using json_induction;
    intros fuel rest Hok Hstop Hfuel.
  - destruct fuel as [|fuel]; [cbn in Hfuel; lia|]. reflexivity.
  - destruct fuel as [|fuel]; [destruct b; cbn in Hfuel; lia|].
    destruct b; reflexivity.
  - cbn [print json_ok] in *.
    destruct (print_number_head q) as (c & tl & E & Hc).
    destruct fuel as [|fuel]; [rewrite E in Hfuel; cbn in Hfuel; lia|].
    pose proof (parse_print_number q rest Hok Hstop) as Hnum.
    rewrite E in *. cbn [app] in *.
    rewrite (parse_value_number fuel c (tl ++ rest) Hc), Hnum. reflexivity.
  - cbn [print] in *.
    destruct fuel as [|fuel]; [cbn in Hfuel; lia|].
    rewrite parse_value_S.
    change (print_string s) with ("034"%char :: List.tl (print_string s)).
    cbn [app skip_ws is_ws Ascii.eqb Bool.eqb orb].
    now rewrite parse_print_string.
  - cbn [print json_ok List.length] in *.
    destruct fuel as [|fuel]; [lia|].
    rewrite parse_value_S.
    cbn [app skip_ws is_ws Ascii.eqb Bool.eqb orb].
    destruct items as [|x items]; [reflexivity|].
    rewrite (items_read_back (x :: items) IH) by (auto; discriminate || lia).
    rewrite print_items_cons, <- app_assoc.
    destruct (print_head x) as (c & tl & E & Hws & Hb & _).
    rewrite E. cbn [app]. rewrite (skip_ws_opens c _ Hws), Hb. reflexivity.
  - cbn [print json_ok List.length] in *.
    destruct fuel as [|fuel]; [lia|].
    rewrite parse_value_S.
    cbn [app skip_ws is_ws Ascii.eqb Bool.eqb orb].
    destruct members as [|[k x] members]; [reflexivity|].
    rewrite (members_read_back ((k, x) :: members) IH)
      by (auto; discriminate || lia).
    rewrite print_members_cons. reflexivity.
Qed.

Lemma number_stop_nil : number_stop [].
Proof. exact I. Qed.

(** [JSON.parse(JSON.stringify(v))] gives [v] back. *)
Theorem JSON_parse_stringify v :
  json_ok v = true -> JSON_parse (JSON_stringify v) = Some (canon v).
Proof.
  intros Hok. unfold JSON_parse, JSON_stringify, chars.
  rewrite list_ascii_of_string_of_list_ascii.
  pose proof (print_reads_back v (S (List.length (print v))) [] Hok
                number_stop_nil) as H.
  rewrite app_nil_r in H. rewrite H by lia. reflexivity.
Qed.

End JSONFacts.

(** ** The widget collection *)

Module DashboardFacts.
Import JSNumber JSNumberFacts JSON JSONFacts Dashboard.
Local Open Scope Q_scope.

Lemma moveWidget_length i nx ny ws :
  List.length (moveWidget i nx ny ws) = List.length ws.
Proof. unfold moveWidget. apply List.length_map. Qed.

Lemma moveWidget_ids i nx ny ws :
  List.map id (moveWidget i nx ny ws) = List.map id ws.
Proof.
  unfold moveWidget. rewrite List.map_map. apply List.map_ext.
  intros w. destruct (String.eqb (id w) i); reflexivity.
Qed.

Lemma moveWidget_pointwise i nx ny ws :
  Forall2 (moved i nx ny) ws (moveWidget i nx ny ws).
Proof.
  induction ws as [|w ws IH]; [constructor|].
  unfold moveWidget in *. cbn [List.map]. constructor; [|exact IH].
  unfold moved. destruct (String.eqb (id w) i); [|reflexivity].
  split; [reflexivity|]. cbn. split; apply Math_max_lower_l.
Qed.

(** C4.  After [moveWidget i nx ny], for inputs of any sign: the
    collection has the same widgets in the same order; the widget whose id
    is [i] has the position [(max(0, nx), max(0, ny))], which is
    non-negative in both coordinates, and its other fields are untouched;
    every widget with another id is unchanged. *)
Theorem moveWidget_clamps_position (i : string) (nx ny : Q)
    (ws : list Widget) :
  Forall2 (moved i nx ny) ws (moveWidget i nx ny ws)
  /\ List.map id (moveWidget i nx ny ws) = List.map id ws
  /\ Forall (fun w' =>
        String.eqb (id w') i = true ->
        position w' = {| x := Math_max 0 nx; y := Math_max 0 ny |}
        /\ 0 <= x (position w') /\ 0 <= y (position w'))
      (moveWidget i nx ny ws)
  /\ Forall (fun w => String.eqb (id w) i = false -> In w (moveWidget i nx ny ws)) ws.
Proof.
  split; [apply moveWidget_pointwise|].
  split; [apply moveWidget_ids|].
  split.
  - unfold moveWidget. apply Forall_forall. intros w' Hin.
    apply List.in_map_iff in Hin. destruct Hin as (w & Hw & _).
    destruct (String.eqb (id w) i) eqn:E; subst w'.
    + intros _. cbn. split; [reflexivity|]. split; apply Math_max_lower_l.
    + intros E'. rewrite E in E'. discriminate.
  - apply Forall_forall. intros w Hin E. unfold moveWidget.
    apply List.in_map_iff. exists w. rewrite E. split; [reflexivity|exact Hin].
Qed.

Lemma template_size_nonneg k :
  0 <= width (t_size (WIDGET_TEMPLATES k))
  /\ 0 <= height (t_size (WIDGET_TEMPLATES k)).
Proof. destruct k; cbn; split; lra. Qed.

Lemma addWidget_preserves k r now ws :
  layout_ok ws -> layout_ok (addWidget k r now ws).
Proof.
  intros H. unfold addWidget, layout_ok.
  destruct r as [r|]; apply Forall_app; (split; [exact H|]);
    (constructor; [|constructor]);
    (split; [|apply template_size_nonneg]);
    unfold position_nonneg, new_widget; cbn -[Math_max]; split.
  - apply Math_max_lower_l.
  - apply Math_max_lower_l.
  - lra.
  - lra.
Qed.

Lemma removeWidget_preserves i ws :
  layout_ok ws -> layout_ok (removeWidget i ws).
Proof.
  unfold layout_ok, removeWidget. rewrite !Forall_forall.
  intros H w Hin. apply List.filter_In in Hin. apply H, Hin.
Qed.

Lemma moveWidget_preserves i nx ny ws :
  layout_ok ws -> layout_ok (moveWidget i nx ny ws).
Proof.
  unfold layout_ok, moveWidget. rewrite !Forall_forall.
  intros H w' Hin. apply List.in_map_iff in Hin. destruct Hin as (w & <- & Hin).
  destruct (String.eqb (id w) i); [|apply H, Hin].
  split; [|apply (H w Hin)]. cbn. split; apply Math_max_lower_l.
Qed.

Lemma toggleMaximize_preserves i ws :
  layout_ok ws -> layout_ok (toggleMaximize i ws).
Proof.
  unfold layout_ok, toggleMaximize. rewrite !Forall_forall.
  intros H w' Hin. apply List.in_map_iff in Hin. destruct Hin as (w & <- & Hin).
  destruct (String.eqb (id w) i); apply (H w Hin).
Qed.

Lemma resizeWidget_preserves i nw nh ws :
  0 <= nw -> 0 <= nh -> layout_ok ws -> layout_ok (resizeWidget i nw nh ws).
Proof.
  unfold layout_ok, resizeWidget. rewrite !Forall_forall.
  intros Hw Hh H w' Hin. apply List.in_map_iff in Hin.
  destruct Hin as (w & <- & Hin).
  destruct (String.eqb (id w) i); [|apply H, Hin].
  split; [apply (H w Hin)|]. cbn. split; assumption.
Qed.

(** The stored size after [resizeWidget] is the pair it was given. *)
Lemma resizeWidget_stores i nw nh ws :
  Forall (fun w' =>
    String.eqb (id w') i = true -> size w' = {| width := nw; height := nh |})
    (resizeWidget i nw nh ws).
Proof.
  unfold resizeWidget. apply Forall_forall. intros w' Hin.
  apply List.in_map_iff in Hin. destruct Hin as (w & <- & _).
  destruct (String.eqb (id w) i) eqn:E; [reflexivity|].
  intros E'. rewrite E in E'. discriminate.
Qed.

Lemma one_chart_ok : layout_ok one_chart.
Proof. apply addWidget_preserves. constructor. Qed.

(** C5, as amended.  The invariant (position and size non-negative for
    every widget) is preserved by [addWidget], [removeWidget], [moveWidget]
    and [toggleMaximize] for all their arguments, and by [resizeWidget]
    when the width and height it is given are non-negative. *)
Theorem layout_invariant_preserved (ws : list Widget) :
  layout_ok ws ->
  (forall k r now, layout_ok (addWidget k r now ws))
  /\ (forall i, layout_ok (removeWidget i ws))
  /\ (forall i nx ny, layout_ok (moveWidget i nx ny ws))
  /\ (forall i, layout_ok (toggleMaximize i ws))
  /\ (forall i nw nh, 0 <= nw -> 0 <= nh -> layout_ok (resizeWidget i nw nh ws)).
Proof.
  intros H. repeat split; intros.
  - apply addWidget_preserves, H.
  - apply removeWidget_preserves, H.
  - apply moveWidget_preserves, H.
  - apply toggleMaximize_preserves, H.
  - apply resizeWidget_preserves; assumption.
Qed.

Lemma layout_invariant_preserved_witness :
  layout_ok one_chart
  /\ layout_ok (moveWidget "widget-1" (-3) (-4) one_chart)
  /\ layout_ok (resizeWidget "widget-1" 250 180 one_chart).
Proof.
  pose proof (layout_invariant_preserved one_chart one_chart_ok)
    as (_ & _ & Hmove & _ & Hresize).
  split; [exact one_chart_ok|]. split; [apply Hmove|].
  apply Hresize; lra.
Defined.

(** C5, as stated, fails: [resizeWidget] stores a negative size in a
    collection that satisfied the invariant. *)
Lemma resizeWidget_negative_size :
  layout_ok one_chart
  /\ exists w, In w (resizeWidget "widget-1" (-1) (-1) one_chart)
       /\ width (size w) < 0 /\ height (size w) < 0.
Proof.
  split; [exact one_chart_ok|].
  eexists. split; [left; reflexivity|]. split; reflexivity.
Qed.

(** *** Saving and loading *)

Lemma type_of_name_type_name k : type_of_name (type_name k) = Some k.
Proof. destruct k; reflexivity. Qed.

Lemma widget_of_to_js w : widget_of_js (widget_to_js w) = Some w.
Proof.
  destruct w as [i k t d [px py] [sw sh] m].
  unfold widget_of_js, widget_to_js. cbn [id type title description position
    size isMaximized Dashboard.x Dashboard.y width height].
  destruct d as [d|], m as [m|]; cbn -[type_of_name type_name];
    rewrite type_of_name_type_name; reflexivity.
Qed.

Lemma widgets_of_to_js ws : widgets_of_js (widgets_to_js ws) = Some ws.
Proof.
  unfold widgets_of_js, widgets_to_js.
  induction ws as [|w ws IH]; [reflexivity|].
  cbn [List.map widgets_of_items]. now rewrite widget_of_to_js, IH.
Qed.

Lemma canon_widget_to_js w :
  canon (widget_to_js w) = widget_to_js (lowest_terms w).
Proof.
  destruct w as [i k t d [px py] [sw sh] m].
  destruct d as [d|], m as [m|]; reflexivity.
Qed.

Lemma canon_widgets_to_js ws :
  canon (widgets_to_js ws) = widgets_to_js (List.map lowest_terms ws).
Proof.
  unfold widgets_to_js. cbn [canon]. rewrite !List.map_map. f_equal.
  apply List.map_ext. intros w. apply canon_widget_to_js.
Qed.

Lemma json_ok_widget w : storable w = true -> json_ok (widget_to_js w) = true.
Proof.
  destruct w as [i k t d [px py] [sw sh] m]. unfold storable.
  cbn [position size Dashboard.x Dashboard.y width height]. intros H.
  apply andb_true_iff in H as [H Hh]. apply andb_true_iff in H as [H Hw].
  apply andb_true_iff in H as [Hx Hy].
  destruct d as [d|], m as [m|]; cbn -[decimal];
    rewrite Hx, Hy, Hw, Hh; reflexivity.
Qed.

Lemma json_ok_widgets ws :
  forallb storable ws = true -> json_ok (widgets_to_js ws) = true.
Proof.
  unfold widgets_to_js. cbn [json_ok].
  induction ws as [|w ws IH]; [reflexivity|]. cbn [forallb List.map].
  intros H. apply andb_true_iff in H as [Hw Hws].
  now rewrite (json_ok_widget w Hw), (IH Hws).
Qed.

Lemma same_widget_lowest_terms w : same_widget w (lowest_terms w).
Proof.
  unfold same_widget, lowest_terms. cbn.
  repeat split; symmetry; apply Qred_correct.
Qed.

Lemma save_layout_truthy ws : String.eqb (save_layout ws) "" = false.
Proof. reflexivity. Qed.

(** C7.  For every widget collection whose numbers have a finite decimal
    expansion: the string that the save effect stores is read back by the
    load effect, without a logged failure, as a value that is a widget
    collection with the same widgets in the same order, each with the same
    id, type, title, description, position, size and maximized flag
    (numbers compared by value; the very same collection when the stored
    numbers are in lowest terms). *)
Theorem layout_round_trip (ws : list Widget) :
  forallb storable ws = true ->
  exists ws',
    load_layout (Some (save_layout ws)) = (widgets_to_js ws', [])
    /\ widgets_of_js (widgets_to_js ws') = Some ws'
    /\ Forall2 same_widget ws ws'
    /\ (List.map lowest_terms ws = ws -> ws' = ws).
Proof.
  intros Hok. exists (List.map lowest_terms ws).
  split.
  { unfold load_layout. rewrite save_layout_truthy. cbn [negb].
    unfold save_layout.
    rewrite (JSON_parse_stringify _ (json_ok_widgets ws Hok)).
    now rewrite canon_widgets_to_js. }
  split; [apply widgets_of_to_js|]. split; [|auto].
  clear Hok. induction ws as [|w ws IH]; constructor;
    [apply same_widget_lowest_terms|exact IH].
Qed.

Lemma layout_round_trip_witness :
  forallb storable sample_layout = true
  /\ exists ws',
       load_layout (Some (save_layout sample_layout)) = (widgets_to_js ws', [])
       /\ widgets_of_js (widgets_to_js ws') = Some ws'
       /\ Forall2 same_widget sample_layout ws'.
Proof.
  split; [vm_compute; reflexivity|].
  destruct (layout_round_trip sample_layout) as (ws' & H1 & H2 & H3 & _);
    [vm_compute; reflexivity|].
  exists ws'. auto.
Defined.

(** *** Adding and removing a widget *)

Lemma widget_id_inj t t' : widget_id t = widget_id t' -> t = t'.
Proof.
  unfold widget_id. intros H.
  apply (inj (String.app "widget-")) in H.
  exact (pretty_N_inj _ _ H).
Qed.

Lemma template_type k : t_type (WIDGET_TEMPLATES k) = k.
Proof. destruct k; reflexivity. Qed.

Lemma addWidget_appends k rect now ws :
  addWidget k rect now ws = ws ++ [added k rect now].
Proof. destruct rect; reflexivity. Qed.

Lemma removeWidget_added k rect now :
  removeWidget (widget_id now) [added k rect now] = [].
Proof.
  unfold removeWidget. cbn [List.filter].
  replace (id (added k rect now)) with (widget_id now)
    by (destruct rect; reflexivity).
  now rewrite String.eqb_refl.
Qed.

(** C8, as amended.  [addWidget k] appends one widget to the collection.
    Its type, title, description and size are those of the template of
    [k] and it is not maximized.  Its id is ["widget-"] followed by the
    clock reading, which the id determines, so the id is new, and the ids of
    the collection stay distinct, when the ids already there were made at
    other clock readings.  With a measured container the widget is placed
    at [y = 100] and at the non-negative [x] that centres it horizontally
    in the container (at 0 when the container is narrower than the widget);
    without one it is placed at (50, 100).  Adding a chart to the empty
    dashboard gives a collection of length 1, removing the id just given
    leaves the empty collection, and what is stored for it is ["[]"]. *)
Theorem addWidget_appends_template_widget (k : WidgetType)
    (rect : option DOMRect) (now : N) (ws : list Widget) :
  exists w,
    addWidget k rect now ws = ws ++ [w]
    /\ (type w = k /\ title w = t_title (WIDGET_TEMPLATES k)
        /\ description w = t_description (WIDGET_TEMPLATES k)
        /\ size w = t_size (WIDGET_TEMPLATES k) /\ isMaximized w = None)
    /\ (id w = widget_id now /\ forall t, id w = widget_id t -> t = now)
    /\ (Forall (made_at_another_time now) ws ->
        ~ In (id w) (List.map id ws)
        /\ (List.NoDup (List.map id ws) ->
            List.NoDup (List.map id (addWidget k rect now ws))))
    /\ match rect with
       | Some r =>
           x (position w)
           = Math_max 0 ((rect_width r - width (size w)) / 2)
           /\ y (position w) == 100
           /\ 0 <= x (position w)
           /\ (width (size w) <= rect_width r ->
               x (position w) + width (size w) / 2 == rect_width r / 2)
           /\ (rect_width r <= width (size w) -> x (position w) == 0)
       | None => position w = {| x := 50; y := 100 |}
       end
    /\ List.length (addWidget chart rect now []) = 1%nat
    /\ removeWidget (widget_id now) (addWidget chart rect now []) = []
    /\ save_layout (removeWidget (widget_id now) (addWidget chart rect now []))
       = "[]".
Proof.
  exists (added k rect now).
  assert (Hid : id (added k rect now) = widget_id now)
    by (destruct rect; reflexivity).
  assert (Hfresh : Forall (made_at_another_time now) ws ->
                   ~ In (widget_id now) (List.map id ws)).
  { intros Hall Hin. apply List.in_map_iff in Hin.
    destruct Hin as (w' & Hw' & Hin).
    rewrite Forall_forall in Hall. destruct (Hall w' Hin) as (t & Ht & Hne).
    apply Hne, widget_id_inj. congruence. }
  split; [apply addWidget_appends|].
  split.
  { destruct rect; cbn [added new_widget type title description size
      isMaximized]; rewrite template_type; auto. }
  split.
  { split; [exact Hid|]. intros t Ht. rewrite Hid in Ht.
    symmetry. now apply widget_id_inj. }
  split.
  { intros Hall. rewrite Hid. split; [exact (Hfresh Hall)|].
    intros Hnd. rewrite addWidget_appends, List.map_app.
    apply List.NoDup_app; [exact Hnd|repeat constructor; intros []|].
    cbn [List.map]. rewrite Hid. intros i Hi [<-|[]].
    exact (Hfresh Hall Hi). }
  split.
  { destruct rect as [r|]; [|reflexivity].
    cbn [added new_widget position size Dashboard.x Dashboard.y].
    split; [reflexivity|]. split; [reflexivity|].
    split; [apply Math_max_lower_l|].
    unfold Qdiv. change (/ 2) with (1 # 2).
    split; intros Hw;
      destruct (Math_max_cases 0
                  ((rect_width r - width (t_size (WIDGET_TEMPLATES k)))
                   * (1 # 2)))
        as [[Hle ->]|[Hle ->]]; lra. }
  rewrite (addWidget_appends chart rect now []). cbn [app List.length].
  rewrite removeWidget_added. repeat split.
Qed.

(** C8, as stated, fails: the id is the clock reading, so two widgets added
    at the same reading share their id, and removing one of them removes
    both; and the vertical position is 100 whatever the height of the
    container. *)
Lemma addWidget_same_clock_reading :
  let ws := addWidget stats None 5 (addWidget chart None 5 []) in
  List.map id ws = ["widget-5"; "widget-5"]
  /\ List.length ws = 2%nat
  /\ removeWidget "widget-5" ws = []
  /\ List.map (fun w => y (position w))
       (addWidget chart (Some {| rect_width := 1200; rect_height := 800 |})
          5 [])
     = [100].
Proof. repeat split. Qed.

(** *** A stored layout that cannot be read *)




End DashboardFacts.

(** ** The resize gesture *)

Module FlexibleCardFacts.
Import JSNumber JSNumberFacts JSString FlexibleCard.
Local Open Scope Q_scope.



Ltac max_case a b :=
  let H := fresh "Hmax" in
  pose proof (Math_max_cases a b) as [[? H]|[? H]];
  pose proof (Math_max_lower_l a b).





End FlexibleCardFacts.

(** ** The ticker normaliser *)

Module TickerFacts.
Import JSString Ticker.
Local Open Scope string_scope.
Local Arguments String.append : simpl nomatch.

Lemma eqb_length s t : String.eqb s t = true -> String.length s = String.length t.
Proof. intros H. apply String.eqb_eq in H. now subst. Qed.

Lemma length_append s t :
  String.length (s +:+ t) = (String.length s + String.length t)%nat.
Proof.
  induction s as [|c s IH]; [reflexivity|].
  change (S (String.length (s +:+ t)) = S (String.length s + String.length t)).
  now rewrite IH.
Qed.

Lemma endsWith_refl s : endsWith s s = true.
Proof. destruct s; cbn; [reflexivity|]. now rewrite Ascii.eqb_refl, String.eqb_refl. Qed.

Lemma endsWith_append pre suf : endsWith suf (pre +:+ suf) = true.
Proof.
  induction pre as [|c pre IH]; cbn [String.append].
  - apply endsWith_refl.
  - cbn [endsWith]. rewrite IH. apply orb_true_r.
Qed.

Lemma last_char_append s c : last_char (s +:+ String c "") = Some c.
Proof.
  induction s as [|a s IH]; [reflexivity|].
  cbn [String.append last_char]. rewrite IH.
  destruct (s +:+ String c "") eqn:E; [|reflexivity].
  destruct s; discriminate.
Qed.

Lemma endsWith_last_char suf s :
  endsWith suf s = true -> suf <> "" -> last_char s = last_char suf.
Proof.
  intros H Hne. induction s as [|a s IH].
  - cbn in H. rewrite orb_false_r in H. apply String.eqb_eq in H. now subst.
  - cbn [endsWith] in H. apply orb_true_iff in H as [H|H].
    + apply String.eqb_eq in H. now subst.
    + specialize (IH H). cbn [last_char]. rewrite IH.
      destruct s; [|reflexivity].
      cbn in H. rewrite orb_false_r in H. apply String.eqb_eq in H. contradiction.
Qed.

Lemma prefix_strip_prefix pat s :
  String.prefix pat s = false -> strip_prefix pat s = None.
Proof.
  revert s. induction pat as [|a pat IH]; intros [|b s]; cbn; try discriminate;
    try reflexivity.
  destruct (ascii_dec a b) as [->|Hne].
  - rewrite Ascii.eqb_refl. apply IH.
  - intros _. apply Ascii.eqb_neq in Hne. now rewrite Hne.
Qed.

Lemma replace_absent pat rep s :
  includes pat s = false -> replace pat rep s = s.
Proof.
  induction s as [|c s IH]; cbn [includes replace]; intros H;
    apply orb_false_iff in H as [H1 H2];
    rewrite (prefix_strip_prefix _ _ H1); [reflexivity|].
  now rewrite IH.
Qed.

Lemma is_canonical_endsWith seen s :
  upper_run_then_USD seen s = true -> endsWith "-USD" s = true.
Proof.
  revert seen. induction s as [|c s IH]; intros seen; [discriminate|].
  cbn [upper_run_then_USD]. destruct (is_upper c).
  - intros H. cbn [endsWith]. rewrite (IH _ H). apply orb_true_r.
  - intros H. apply andb_true_iff in H as [_ H].
    apply String.eqb_eq in H. rewrite H. reflexivity.
Qed.

(** The two results [convertTickerFormat] can give. *)
Lemma convertTickerFormat_shape input :
  (input = "*" /\ convertTickerFormat input = "*")
  \/ endsWith "-USD" (convertTickerFormat input) = true.
Proof.
  unfold convertTickerFormat.
  destruct (is_canonical input) eqn:Ec.
  { right. apply (is_canonical_endsWith false), Ec. }
  destruct (String.eqb input "*") eqn:Ew.
  { left. apply String.eqb_eq in Ew. now subst. }
  right.
  match goal with |- context [negb (endsWith "-USD" ?f)] =>
    destruct (endsWith "-USD" f) eqn:Ee end; cbn [negb].
  - exact Ee.
  - apply endsWith_append.
Qed.

Lemma remove_quote_suffix_dash_USD base :
  remove_quote_suffix (base +:+ "-USD") = base +:+ "-".
Proof.
  induction base as [|c base IH]; [reflexivity|].
  cbn [String.append]. unfold remove_quote_suffix; fold remove_quote_suffix.
  destruct (String.eqb (String c (base +:+ "-USD")) "USD") eqn:E1.
  { apply eqb_length in E1. cbn in E1. rewrite length_append in E1. cbn in E1. lia. }
  destruct (String.eqb (String c (base +:+ "-USD")) "USDT") eqn:E2.
  { pose proof (eqb_length _ _ E2) as HL. cbn in HL. rewrite length_append in HL.
    cbn in HL. destruct base; [|cbn in HL; lia].
    apply String.eqb_eq in E2. discriminate. }
  cbn [orb]. now rewrite IH.
Qed.

Lemma includes_append_dash base : includes "-" (base +:+ "-") = true.
Proof.
  induction base as [|c base IH]; [reflexivity|].
  cbn [String.append includes]. rewrite IH. apply orb_true_r.
Qed.

Lemma includes_dash_cons c s :
  includes "-" (String c s) = Ascii.eqb c "-" || includes "-" s.
Proof.
  cbn [includes String.prefix]. destruct (ascii_dec "-" c) as [<-|Hne].
  - destruct s; reflexivity.
  - rewrite (Ascii.eqb_sym c). apply Ascii.eqb_neq in Hne. now rewrite Hne.
Qed.

Lemma split_head_append_dash base rest :
  includes "-" base = false -> split_head "-" (base +:+ String "-" rest) = base.
Proof.
  induction base as [|c base IH]; [reflexivity|].
  rewrite includes_dash_cons. intros H. apply orb_false_iff in H as [H1 H2].
  cbn [String.append split_head]. rewrite H1. now rewrite IH.
Qed.

Lemma split_head_no_dash s : includes "-" (split_head "-" s) = false.
Proof.
  induction s as [|c s IH]; [reflexivity|].
  cbn [split_head]. destruct (Ascii.eqb c "-") eqn:E; [reflexivity|].
  rewrite includes_dash_cons, E, IH. reflexivity.
Qed.

Lemma endsWith_dash_USD_append_dash base :
  endsWith "-USD" (base +:+ "-") = false.
Proof.
  destruct (endsWith "-USD" (base +:+ "-")) eqn:E; [|reflexivity].
  apply endsWith_last_char in E; [|discriminate].
  rewrite last_char_append in E. discriminate.
Qed.

Lemma convertTickerFormat_stable r :
  stable r = true -> convertTickerFormat r = r.
Proof.
  unfold stable. intros H. unfold convertTickerFormat.
  destruct (is_canonical r); [reflexivity|].
  destruct (String.eqb r "*"); [reflexivity|]. cbn [orb] in H.
  apply andb_true_iff in H as [Hx Hd].
  apply negb_true_iff in Hx. apply String.eqb_eq in Hd.
  rewrite (replace_absent _ _ _ Hx).
  set (base := split_head "-" r) in *.
  assert (Hbase : includes "-" base = false) by apply split_head_no_dash.
  assert (Hr : remove_quote_suffix r = base +:+ "-")
    by (rewrite <- Hd at 1; apply remove_quote_suffix_dash_USD).
  rewrite !Hr, includes_append_dash. cbn [negb].
  rewrite endsWith_dash_USD_append_dash. cbn [negb].
  rewrite (split_head_append_dash base "" Hbase). exact Hd.
Qed.

End TickerFacts.

(** ** The shared subscription state *)

Module LivePriceFacts.
Import JSString Ticker TickerFacts LivePrice.
Local Arguments attempts_of : simpl never.
Local Arguments delivered : simpl never.
Local Arguments convertTickerFormat : simpl never.
Local Arguments subscription_for : simpl never.

Lemma includes_sub_In sub l : includes_sub sub l = true <-> In sub l.
Proof.
  unfold includes_sub. rewrite existsb_exists. split.
  - intros (x & Hin & E). apply String.eqb_eq in E. now subst.
  - intros Hin. exists sub. split; [exact Hin|apply String.eqb_refl].
Qed.

Lemma includes_sub_not_In sub l : includes_sub sub l = false <-> ~ In sub l.
Proof.
  rewrite <- includes_sub_In. destruct (includes_sub sub l); split;
    intros H; try discriminate; try reflexivity.
  now contradiction H.
Qed.

Lemma includes_sub_app sub l k :
  includes_sub sub (l ++ k) = includes_sub sub l || includes_sub sub k.
Proof. unfold includes_sub. apply existsb_app. Qed.

Lemma includes_sub_snoc sub l : includes_sub sub (l ++ [sub]) = true.
Proof. apply includes_sub_In, in_or_app. right. left. reflexivity. Qed.

Lemma NoDup_snoc (x : string) l : NoDup l -> ~ In x l -> NoDup (l ++ [x]).
Proof.
  intros Hl Hx. apply List.NoDup_app; [exact Hl|repeat constructor; intros []|].
  intros y Hy [<-|[]]. contradiction.
Qed.

Lemma delivered_app f l k :
  delivered f (l ++ k) = (delivered f l + delivered f k)%nat.
Proof. unfold delivered. now rewrite List.filter_app, List.length_app. Qed.

Lemma attempts_of_app f l k :
  attempts_of f (l ++ k) = (attempts_of f l + attempts_of f k)%nat.
Proof. unfold attempts_of. now rewrite List.filter_app, List.length_app. Qed.

(** Assignments and reads of the module's variables, and the boolean
    connectives around them, are computed; finite maps and sets are left
    alone. *)
Ltac simpl_state :=
  cbn [set_sharedWsClient set_isConnected set_isAuthenticated
       set_currentSubscriptions set_apiKeyRef set_connectingPromise
       set_pendingSubscriptions set_reconnectAttempts set_reconnectTimer
       set_isAddingNewSubscription set_subscribers set_wire set_scheduled
       set_flushTimers send
       sharedWsClient isConnected isAuthenticated currentSubscriptions
       apiKeyRef connectingPromise pendingSubscriptions reconnectAttempts
       reconnectTimer isAddingNewSubscription subscribers wire scheduled
       flushTimers readyState negb andb orb fst snd] in *.

Ltac unfold_setters := simpl_state.

Lemma attempts_of_subscribe sub x ok :
  attempts_of (subscribe_frame sub) [(subscribe_frame x, ok)] =
  if String.eqb sub x then 1%nat else 0%nat.
Proof. unfold attempts_of. cbn. destruct (String.eqb sub x); reflexivity. Qed.

(** *** The flush loop *)

Lemma flush_one_current_mono ok s x y :
  In y (currentSubscriptions s) -> In y (currentSubscriptions (flush_one ok s x)).
Proof.
  unfold flush_one. destruct (includes_sub x (currentSubscriptions s)); cbn;
    [auto|]. destruct (ok x); unfold_setters; cbn; [|auto].
  intros H. apply in_or_app. now left.
Qed.

Lemma flush_one_NoDup ok s x :
  NoDup (currentSubscriptions s) ->
  NoDup (currentSubscriptions (flush_one ok s x)).
Proof.
  unfold flush_one. destruct (includes_sub x (currentSubscriptions s)) eqn:E;
    cbn; [auto|]. destruct (ok x); unfold_setters; cbn; [|auto].
  intros H. apply NoDup_snoc; [exact H|]. now apply includes_sub_not_In.
Qed.

Lemma flush_one_attempts ok s x sub :
  attempts_of (subscribe_frame sub) (wire (flush_one ok s x)) =
  (attempts_of (subscribe_frame sub) (wire s)
   + if String.eqb sub x && negb (includes_sub x (currentSubscriptions s))
     then 1 else 0)%nat.
Proof.
  unfold flush_one. destruct (includes_sub x (currentSubscriptions s)); cbn.
  - rewrite andb_false_r. lia.
  - rewrite andb_true_r.
    destruct (ok x); unfold_setters; cbn;
      rewrite attempts_of_app; fold (subscribe_frame x);
      rewrite attempts_of_subscribe; reflexivity.
Qed.

Lemma flush_fold_NoDup ok l : forall s,
  NoDup (currentSubscriptions s) ->
  NoDup (currentSubscriptions (foldl (flush_one ok) s l)).
Proof.
  induction l as [|x l IH]; intros s H; cbn; [exact H|].
  apply IH, flush_one_NoDup, H.
Qed.

(** A subscription that is active, or that is not pending, is not sent;
    no subscription is sent twice. *)
Lemma flush_fold_attempts ok sub l : NoDup l -> forall s,
  let s' := foldl (flush_one ok) s l in
  (In sub (currentSubscriptions s) \/ ~ In sub l ->
   attempts_of (subscribe_frame sub) (wire s') =
   attempts_of (subscribe_frame sub) (wire s))
  /\ (attempts_of (subscribe_frame sub) (wire s') <=
      attempts_of (subscribe_frame sub) (wire s) + 1)%nat.
Proof.
  induction 1 as [|x l Hx Hl IH]; intros s; cbn; [split; [reflexivity|lia]|].
  destruct (IH (flush_one ok s x)) as [IH1 IH2]. cbv zeta in IH1, IH2.
  pose proof (flush_one_attempts ok s x sub) as Hone.
  split.
  - intros Hcase. rewrite IH1.
    + rewrite Hone. destruct (String.eqb sub x) eqn:E; cbn [andb]; [|lia].
      apply String.eqb_eq in E. subst x. destruct Hcase as [Hin|Hnin].
      * apply includes_sub_In in Hin. rewrite Hin. cbn. lia.
      * exfalso. apply Hnin. now left.
    + destruct Hcase as [Hin|Hnin].
      * left. now apply flush_one_current_mono.
      * right. intros Hin. apply Hnin. now right.
  - destruct (String.eqb sub x) eqn:E.
    + apply String.eqb_eq in E. subst x. rewrite IH1.
      * rewrite Hone. destruct (_ && _); lia.
      * right. exact Hx.
    + rewrite Hone in IH2. cbn [andb] in IH2. lia.
Qed.

Lemma flush_pending_NoDup ok s :
  NoDup (currentSubscriptions s) ->
  NoDup (currentSubscriptions (flush_pending ok s)).
Proof.
  unfold flush_pending. destruct (flushTimers s); [auto|].
  unfold_setters; cbn. destruct (negb _); cbn; [|auto].
  intros H. now apply flush_fold_NoDup.
Qed.

Lemma flush_pending_attempts ok s sub :
  (In sub (currentSubscriptions s) ->
   attempts_of (subscribe_frame sub) (wire (flush_pending ok s)) =
   attempts_of (subscribe_frame sub) (wire s))
  /\ (attempts_of (subscribe_frame sub) (wire (flush_pending ok s)) <=
      attempts_of (subscribe_frame sub) (wire s) + 1)%nat.
Proof.
  unfold flush_pending. destruct (flushTimers s); [split; [reflexivity|lia]|].
  unfold_setters; cbn. destruct (negb _); cbn; [|split; [reflexivity|lia]].
  match goal with |- context [foldl _ ?s0 ?l] =>
    pose proof (flush_fold_attempts ok sub l
                  (proj1 (NoDup_ListNoDup _) (NoDup_elements _)) s0) as [H1 H2]
  end.
  cbv zeta in H1, H2. cbn in H1, H2. split; [|exact H2].
  intros Hin. apply H1. now left.
Qed.

(** *** One call of [subscribeTicker] *)

(** Case analysis on the innermost test that the goal still branches
    on. *)
Ltac by_cases :=
  repeat match goal with
  | |- context [match ?x with _ => _ end] =>
      lazymatch x with
      | context [match _ with _ => _ end] => fail
      | _ => destruct x eqn:?; simpl_state
      end
  end.

Ltac open_subscribe :=
  unfold subscribeTicker, setupWebSocket, ready, has_client, client_open in *;
  unfold_setters; simpl_state.

Lemma delivered_subscribe sub ok :
  delivered (subscribe_frame sub) [(subscribe_frame sub, ok)] =
  if ok then 1%nat else 0%nat.
Proof.
  unfold delivered. cbn. rewrite String.eqb_refl. destruct ok; reflexivity.
Qed.

Lemma subscribeTicker_subscribers ticker cb silent c ok s :
  let t := convertTickerFormat ticker in
  subscribers (subscribeTicker ticker cb silent c ok s) =
  <[t := default ∅ (subscribers s !! t) ∪ {[cb]}]> (subscribers s).
Proof.
  cbv zeta. set (t := convertTickerFormat ticker).
  assert (Hreg :
    forall m : gmap string (gset Callback),
      (let m' := if negb (bool_decide (is_Some (m !! t)))
                 then <[t := ∅]> m else m in
       <[t := default ∅ (m' !! t) ∪ {[cb]}]> m') =
      <[t := default ∅ (m !! t) ∪ {[cb]}]> m).
  { intros m. cbv zeta. destruct (m !! t) as [S|] eqn:E; cbn.
    - now rewrite E.
    - now rewrite lookup_insert_eq, insert_insert_eq. }
  specialize (Hreg (subscribers s)). cbv zeta in Hreg.
  destruct s. open_subscribe. fold t. revert Hreg.
  by_cases; intros Hreg; first [exact Hreg|congruence].
Qed.

(** A subscription that is in the active list is neither sent nor
    appended, and is not queued. *)
Lemma subscribeTicker_active ticker cb silent c ok s :
  let sub := subscription_for (convertTickerFormat ticker) in
  let s' := subscribeTicker ticker cb silent c ok s in
  In sub (currentSubscriptions s) ->
  currentSubscriptions s' = currentSubscriptions s
  /\ wire s' = wire s
  /\ pendingSubscriptions s' = pendingSubscriptions s.
Proof.
  cbv zeta. intros Hin. apply includes_sub_In in Hin.
  destruct s; open_subscribe; by_cases; auto; congruence.
Qed.

(** Either the active list is unchanged and no subscribe frame for the
    ticker was delivered, or the subscription was not active, one frame
    was delivered and the subscription was appended. *)
Lemma subscribeTicker_current ticker cb silent c ok s :
  let sub := subscription_for (convertTickerFormat ticker) in
  let s' := subscribeTicker ticker cb silent c ok s in
  (currentSubscriptions s' = currentSubscriptions s
   /\ delivered (subscribe_frame sub) (wire s') =
      delivered (subscribe_frame sub) (wire s))
  \/ (~ In sub (currentSubscriptions s)
      /\ currentSubscriptions s' = currentSubscriptions s ++ [sub]
      /\ delivered (subscribe_frame sub) (wire s') =
         S (delivered (subscribe_frame sub) (wire s))).
Proof.
  cbv zeta. destruct s; open_subscribe;
  by_cases; auto;
    rewrite ?delivered_app; fold (subscribe_frame
      (subscription_for (convertTickerFormat ticker)));
    rewrite ?delivered_subscribe;
    first
      [ left; split; [reflexivity|lia]
      | right; split; [now apply includes_sub_not_In|];
        split; [reflexivity|lia] ].
Qed.





(** *** [unsubscribeTicker] *)


Lemma splice_first_NoDup sub l : NoDup l -> NoDup (splice_first sub l).
Proof.
  induction 1 as [|a l Ha Hl IH]; cbn; [constructor|].
  destruct (String.eqb a sub); [exact Hl|]. constructor; [|exact IH].
  intros Hin. apply Ha. clear -Hin. induction l as [|b l IHl]; [contradiction|].
  cbn in Hin. destruct (String.eqb b sub); [now right|].
  destruct Hin as [->|Hin]; [now left|right; auto].
Qed.

Lemma size_insert_nonzero (m : gmap string (gset Callback)) k v :
  Nat.eqb (size (<[k := v]> m)) 0 = false.
Proof.
  apply Nat.eqb_neq. intros H. apply map_size_empty_iff in H.
  now apply insert_non_empty in H.
Qed.


Ltac open_unsubscribe :=
  unfold unsubscribeTicker, close_shared, ready, has_client, client_open in *;
  unfold_setters; simpl_state.

(** Removing a listener that is not the last one of its ticker sends
    nothing and leaves the connection and the active list alone. *)
Lemma unsubscribeTicker_not_last ticker cb ok s (S : gset Callback) :
  let t := convertTickerFormat ticker in
  let s' := unsubscribeTicker ticker cb ok s in
  subscribers s !! t = Some S -> S ∖ {[cb]} <> ∅ ->
  wire s' = wire s
  /\ currentSubscriptions s' = currentSubscriptions s
  /\ sharedWsClient s' = sharedWsClient s
  /\ isAuthenticated s' = isAuthenticated s
  /\ subscribers s' = <[t := S ∖ {[cb]}]> (subscribers s).
Proof.
  cbv zeta. intros Hlook Hne.
  assert (Hsz : Nat.eqb (size (S ∖ {[cb]})) 0 = false).
  { apply Nat.eqb_neq. intros H. now apply size_empty_iff, leibniz_equiv in H. }
  destruct s. open_unsubscribe. rewrite Hlook, Hsz. simpl_state.
  rewrite size_insert_nonzero. simpl_state. auto.
Qed.




(** *** Reconnection *)


Lemma onclose_retry s :
  subscribers s <> ∅ -> (reconnectAttempts s < maxReconnectAttempts)%nat ->
  onclose s =
  set_reconnectTimer (Some (reconnect_delay (S (reconnectAttempts s))))
    (set_scheduled (scheduled s ++ [reconnect_delay (S (reconnectAttempts s))])
       (set_reconnectAttempts (S (reconnectAttempts s))
          (set_connectingPromise false
             (set_sharedWsClient None
                (set_isAuthenticated false (set_isConnected false s)))))).
Proof.
  intros Hsub Hlt. unfold onclose. simpl_state.
  assert (Nat.eqb (size (subscribers s)) 0 = false) as ->.
  { apply Nat.eqb_neq. intros H. now apply map_size_empty_iff in H. }
  assert (Nat.ltb (reconnectAttempts s) maxReconnectAttempts = true) as ->
    by (apply Nat.ltb_lt; exact Hlt).
  reflexivity.
Qed.



Lemma run_app s es fs : run (run s es) fs = run s (es ++ fs).
Proof. unfold run. now rewrite foldl_app. Qed.



Lemma flush_fold_same_connection ok items : forall s,
  same_connection s (foldl (flush_one ok) s items).
Proof.
  unfold same_connection.
  induction items as [|x items IH]; intros s; [repeat split|].
  cbn [foldl].
  destruct (IH (flush_one ok s x)) as (-> & -> & -> & -> & ->).
  unfold flush_one.
  destruct (negb (includes_sub x (currentSubscriptions s)));
    [|repeat split].
  destruct (ok x); simpl_state; repeat split.
Qed.







(** *** The active list in the states the module can reach *)

Lemma handle_NoDup e s :
  NoDup (currentSubscriptions s) ->
  NoDup (currentSubscriptions (handle s e)).
Proof.
  intros Hnd. destruct e; cbn [handle].
  - pose proof (subscribeTicker_current ticker callback silentMode
                  create_ok send_ok s) as Hcur.
    cbv zeta in Hcur.
    destruct Hcur as [[-> _]|(Hnin & -> & _)]; [exact Hnd|].
    now apply NoDup_snoc.
  - open_unsubscribe.
    pose proof (splice_first_NoDup
                  (subscription_for (convertTickerFormat ticker)) _ Hnd).
    by_cases; simpl_state; first [assumption|constructor].
  - unfold reconnect, setupWebSocket. simpl_state. by_cases; assumption.
  - unfold onopen. simpl_state. by_cases; assumption.
  - unfold onclose. simpl_state. by_cases; assumption.
  - unfold on_auth_success, processPendingSubscriptions. simpl_state.
    by_cases; assumption.
  - now apply flush_pending_NoDup.
  - exact Hnd.
  - unfold reconnect_timer_fires, setupWebSocket. simpl_state.
    by_cases; assumption.
Qed.

(** X19.  Whatever has happened since the module was loaded, no subscription is
    twice in the active list. *)
Lemma reachable_NoDup es : NoDup (currentSubscriptions (run initial es)).
Proof.
  unfold run. generalize initial (List.NoDup_nil string : NoDup
    (currentSubscriptions initial)).
  induction es as [|e es IH]; intros s Hnd; [exact Hnd|].
  cbn [foldl]. apply IH, handle_NoDup, Hnd.
Qed.

(** *** The registry key *)

Lemma unsubscribeTicker_subscribers ticker cb ok s :
  let t := convertTickerFormat ticker in
  subscribers (unsubscribeTicker ticker cb ok s) =
  match subscribers s !! t with
  | None => subscribers s
  | Some cbs =>
      if Nat.eqb (size (cbs ∖ {[cb]})) 0 then delete t (subscribers s)
      else <[t := cbs ∖ {[cb]}]> (subscribers s)
  end.
Proof.
  cbv zeta. open_unsubscribe.
  destruct (subscribers s !! convertTickerFormat ticker) as [cbs|];
    simpl_state; [|reflexivity].
  destruct (Nat.eqb (size (cbs ∖ {[cb]})) 0) eqn:E; simpl_state.
  - rewrite ?delete_insert_eq. by_cases; simpl_state;
      rewrite ?delete_insert_eq; reflexivity.
  - by_cases; reflexivity.
Qed.

(** C10, as amended.  [convertTickerFormat] returns the wildcard (for the
    wildcard only) or a string that ends in ["-USD"]; it maps to itself
    every input that matches [/^[A-Z]+-USD$/], and its result whenever that
    result is the wildcard, matches the pattern, or has no ["X:"] and no
    ["-"] before its final ["-USD"]; and since [subscribeTicker] and
    [unsubscribeTicker] normalise the raw ticker with the same function, a
    subscribe followed by an unsubscribe with the same raw string reaches
    the same registry entry: the listener is in it after the first and out
    of it after the second, and no other entry is touched. *)
Theorem convertTickerFormat_normal_form (input : string) (cb : Callback)
    (silent c ok ok' : bool) (s : State) :
  let r := convertTickerFormat input in
  let s1 := subscribeTicker input cb silent c ok s in
  let s2 := unsubscribeTicker input cb ok' s1 in
  ((input = "*" /\ r = "*") \/ endsWith "-USD" r = true)
  /\ (is_canonical input = true -> r = input)
  /\ (stable r = true -> convertTickerFormat r = r)
  /\ cb ∈ default ∅ (subscribers s1 !! r)
  /\ (cb ∉ default ∅ (subscribers s2 !! r))
  /\ (forall k, String.eqb k r = false ->
        subscribers s2 !! k = subscribers s !! k).
Proof.
  cbv zeta. set (r := convertTickerFormat input).
  pose proof (subscribeTicker_subscribers input cb silent c ok s) as H1.
  pose proof (unsubscribeTicker_subscribers input cb ok'
                (subscribeTicker input cb silent c ok s)) as H2.
  cbv zeta in H1, H2. fold r in H1, H2.
  set (s1 := subscribeTicker input cb silent c ok s) in *.
  rewrite H1, lookup_insert_eq in H2.
  split; [apply convertTickerFormat_shape|].
  split.
  { intros Hc. unfold r, convertTickerFormat. now rewrite Hc. }
  split; [apply convertTickerFormat_stable|].
  split.
  { rewrite H1, lookup_insert_eq. cbn. set_solver. }
  split.
  { rewrite H2. destruct (Nat.eqb _ 0).
    - rewrite lookup_delete_eq. cbn. set_solver.
    - rewrite lookup_insert_eq. cbn. set_solver. }
  intros k Hk. apply String.eqb_neq in Hk.
  rewrite H2. destruct (Nat.eqb _ 0).
  - rewrite lookup_delete_ne, lookup_insert_ne by congruence. reflexivity.
  - rewrite insert_insert_eq, lookup_insert_ne by congruence. reflexivity.
Qed.

(** C10, as stated, fails: the normaliser is not idempotent. *)
Lemma convertTickerFormat_not_idempotent :
  convertTickerFormat "X:X:BTC" = "X:BTC-USD"
  /\ convertTickerFormat (convertTickerFormat "X:X:BTC") = "BTC-USD"
  /\ convertTickerFormat "A-B-USDUSD" = "A-B-USD"
  /\ convertTickerFormat (convertTickerFormat "A-B-USDUSD") = "A-USD".
Proof. repeat split. Qed.

End LivePriceFacts.

(** ** Pointer sessions on a card *)

Module CardSessionFacts.
Import JSNumber JSNumberFacts JSString FlexibleCard CardSession.
Local Open Scope Q_scope.

(** X1.  A drag: after the pointer went down on the header of a card that is
    not maximized, a pointer move puts the card at its position at
    pointer-down plus the displacement of the pointer, leaves its size as it
    was, and reports that position once through [onMove]. *)
Theorem drag_follows_pointer (p : Props) (e0 e : MouseEvent) (c : Card) :
  isMaximized p = false ->
  let c1 := handleHeaderMouseDown p false e0 c in
  let c2 := fst (handleMouseMove p e c1) in
  c_x c2 = c_x c + (clientX e - clientX e0)
  /\ c_y c2 = c_y c + (clientY e - clientY e0)
  /\ c_width c2 = c_width c /\ c_height c2 = c_height c
  /\ snd (handleMouseMove p e c1)
     = if has_onMove p then [onMove (c_x c2) (c_y c2)] else [].
Proof.
  intros Hmax. cbv zeta. unfold handleHeaderMouseDown, handleMouseMove.
  rewrite Hmax. cbn. repeat split.
Qed.

Lemma drag_follows_pointer_witness :
  let c := resizing_card 400 300 "e" in
  let c2 :=
    fst (handleMouseMove default_props {| clientX := 70; clientY := 10 |}
           (handleHeaderMouseDown default_props false
              {| clientX := 120; clientY := 130 |} c)) in
  c_x c2 = 100 + (70 - 120) /\ c_y c2 = 100 + (10 - 130).
Proof.
  cbv zeta.
  pose proof (drag_follows_pointer default_props
                {| clientX := 120; clientY := 130 |}
                {| clientX := 70; clientY := 10 |}
                (resizing_card 400 300 "e") eq_refl) as (Hx & Hy & _).
  split; [exact Hx|exact Hy].
Defined.

(** X2.  Pointer moves do not accumulate: the card and the calls after a move
    are those the move gives from the card as it was before the previous
    move. *)
Theorem pointer_moves_do_not_accumulate (p : Props) (e1 e2 : MouseEvent)
    (c : Card) :
  handleMouseMove p e2 (fst (handleMouseMove p e1 c)) = handleMouseMove p e2 c.
Proof.
  unfold handleMouseMove.
  destruct (isDragging c && negb (isMaximized p)) eqn:Hd; cbn.
  - rewrite Hd. reflexivity.
  - destruct (isResizing c && negb (isMaximized p)) eqn:Hr; cbn.
    + rewrite Hd, Hr. reflexivity.
    + rewrite Hd, Hr. reflexivity.
Qed.

Lemma pointer_box_maximized p c ev :
  isMaximized p = true ->
  card_box (fst (pointer p c ev)) = card_box c /\ snd (pointer p c ev) = [].
Proof.
  intros Hmax. destruct ev; cbn.
  - unfold handleHeaderMouseDown. rewrite Hmax. destruct on_button; auto.
  - unfold handleResizeStart. rewrite Hmax. auto.
  - unfold handleMouseMove. rewrite Hmax, !andb_false_r.
    destruct (listening c); auto.
  - destruct (listening c); auto.
Qed.

(** X3.  A maximized card: whatever the pointer does, the card keeps its box
    and no handler is called. *)
Theorem maximized_card_ignores_pointer (p : Props) (evs : list Pointer)
    (c : Card) :
  isMaximized p = true ->
  card_box (fst (pointers p c evs)) = card_box c
  /\ snd (pointers p c evs) = [].
Proof.
  intros Hmax. revert c. induction evs as [|ev evs IH]; intros c; [auto|].
  cbn [pointers].
  destruct (pointer_box_maximized p c ev Hmax) as [Hb Hc].
  destruct (pointer p c ev) as [c1 calls1]. cbn in Hb, Hc. subst calls1.
  destruct (IH c1) as [Hb' Hc'].
  destruct (pointers p c1 evs) as [c2 calls2]. cbn in *. subst calls2.
  split; [congruence|reflexivity].
Qed.

Lemma maximized_card_ignores_pointer_witness :
  let p := {| minWidth := 200; minHeight := 150; isMaximized := true;
              has_onMove := true; has_onResize := true |} in
  let evs := [ResizeDown "se" {| clientX := 5; clientY := 5 |};
              Move {| clientX := 50; clientY := 60 |}; Up] in
  card_box (fst (pointers p (resizing_card 400 300 "e") evs))
  = card_box (resizing_card 400 300 "e")
  /\ snd (pointers p (resizing_card 400 300 "e") evs) = [].
Proof.
  cbv zeta.
  exact (maximized_card_ignores_pointer
           {| minWidth := 200; minHeight := 150; isMaximized := true;
              has_onMove := true; has_onResize := true |}
           [ResizeDown "se" {| clientX := 5; clientY := 5 |};
            Move {| clientX := 50; clientY := 60 |}; Up]
           (resizing_card 400 300 "e") eq_refl).
Defined.

Lemma moves_idle p c evs :
  listening c = false -> forallb is_move evs = true ->
  pointers p c evs = (c, []).
Proof.
  intros Hl. induction evs as [|ev evs IH]; [reflexivity|].
  cbn [forallb]. intros H. apply andb_true_iff in H as [Hm Hrest].
  destruct ev; try discriminate. cbn [pointers pointer]. rewrite Hl.
  now rewrite (IH Hrest).
Qed.

(** X4.  Releasing the pointer ends the session: the card keeps the box it
    had, and the pointer moves that follow change nothing and call no
    handler. *)
Theorem pointer_up_ends_session (p : Props) (c : Card) (evs : list Pointer) :
  forallb is_move evs = true ->
  let c' := fst (pointers p c (Up :: evs)) in
  card_box c' = card_box c
  /\ isDragging c' = false /\ isResizing c' = false
  /\ snd (pointers p c (Up :: evs)) = [].
Proof.
  intros Hm. cbv zeta. cbn [pointers pointer].
  destruct (listening c) eqn:Hl.
  - rewrite (moves_idle p (handleMouseUp c) evs eq_refl Hm). cbn. auto.
  - rewrite (moves_idle p c evs Hl Hm). cbn.
    unfold listening in Hl. apply orb_false_iff in Hl as [-> ->]. auto.
Qed.

Lemma pointer_up_ends_session_witness :
  let c := resizing_card 400 300 "se" in
  let evs := [Move {| clientX := 500; clientY := 600 |}] in
  card_box (fst (pointers default_props c (Up :: evs))) = card_box c
  /\ snd (pointers default_props c (Up :: evs)) = [].
Proof.
  cbv zeta.
  pose proof (pointer_up_ends_session default_props
                (resizing_card 400 300 "se")
                [Move {| clientX := 500; clientY := 600 |}] eq_refl)
    as (Hb & _ & _ & Hc).
  split; [exact Hb|exact Hc].
Defined.

End CardSessionFacts.

(** ** Operations on the widget collection *)

Module LayoutFacts.
Import JSNumber JSNumberFacts JSString Dashboard DashboardFacts Layout.
Local Open Scope Q_scope.

Lemma removeWidget_In i w ws :
  In w (removeWidget i ws) <-> In w ws /\ id w <> i.
Proof.
  unfold removeWidget. rewrite List.filter_In, negb_true_iff.
  split; intros [H1 H2]; (split; [exact H1|]).
  - now apply String.eqb_neq.
  - now apply String.eqb_neq.
Qed.

Lemma removeWidget_absent i ws :
  ~ In i (List.map id ws) -> removeWidget i ws = ws.
Proof.
  unfold removeWidget. induction ws as [|w ws IH]; [reflexivity|].
  cbn [List.map List.filter In]. intros H.
  destruct (String.eqb (id w) i) eqn:E.
  - apply String.eqb_eq in E. tauto.
  - cbn. rewrite IH; tauto.
Qed.

(** X5.  [removeWidget]: no widget with the id is left, every one of them is
    removed, the other widgets stay in their order, and the collection is
    unchanged exactly when the id was absent; so removing twice is removing
    once. *)
Theorem removeWidget_removes_every_match (i : string) (ws : list Widget) :
  ~ In i (List.map id (removeWidget i ws))
  /\ (forall w, In w (removeWidget i ws) <-> In w ws /\ id w <> i)
  /\ sublist (removeWidget i ws) ws
  /\ (removeWidget i ws = ws <-> ~ In i (List.map id ws))
  /\ removeWidget i (removeWidget i ws) = removeWidget i ws.
Proof.
  assert (Hnot : ~ In i (List.map id (removeWidget i ws))).
  { intros H. apply List.in_map_iff in H. destruct H as (w & Hw & Hin).
    apply removeWidget_In in Hin. tauto. }
  split; [exact Hnot|]. split; [intros w; apply removeWidget_In|].
  split.
  { clear Hnot. unfold removeWidget.
    induction ws as [|w ws IH]; [constructor|].
    cbn [List.filter]. destruct (negb _);
      [apply sublist_skip|apply sublist_cons]; exact IH. }
  split.
  { split; [|apply removeWidget_absent]. intros <-. exact Hnot. }
  now apply removeWidget_absent.
Qed.

Lemma map_id_ext (f : Widget -> Widget) ws :
  (forall w, In w ws -> f w = w) -> List.map f ws = ws.
Proof.
  intros H. induction ws as [|w ws IH]; [reflexivity|].
  cbn. rewrite H by now left. f_equal. apply IH. intros; apply H. now right.
Qed.

(** X6.  An id that no widget has: [moveWidget], [resizeWidget] and
    [toggleMaximize] return the collection as it is. *)
Theorem absent_id_changes_nothing (i : string) (ws : list Widget) :
  ~ In i (List.map id ws) ->
  (forall nx ny, moveWidget i nx ny ws = ws)
  /\ (forall nw nh, resizeWidget i nw nh ws = ws)
  /\ toggleMaximize i ws = ws.
Proof.
  intros Habs.
  assert (H : forall w, In w ws -> String.eqb (id w) i = false).
  { intros w Hin. apply String.eqb_neq. intros <-. apply Habs.
    now apply List.in_map. }
  repeat split; intros; apply map_id_ext; intros w Hin; now rewrite (H w Hin).
Qed.

Lemma absent_id_changes_nothing_witness :
  moveWidget "widget-2" (-5) 7 one_chart = one_chart
  /\ resizeWidget "widget-2" 1 1 one_chart = one_chart
  /\ toggleMaximize "widget-2" one_chart = one_chart.
Proof.
  assert (Habs : ~ In "widget-2" (List.map id one_chart)).
  { cbn. intros [H|[]]. discriminate. }
  destruct (absent_id_changes_nothing "widget-2" one_chart Habs)
    as (Hm & Hr & Ht).
  split; [apply Hm|]. split; [apply Hr|exact Ht].
Defined.

(** X7.  [toggleMaximize] touches the flag only: ids, positions and sizes stay
    as stored; the flag of the widget with the id is inverted; and a second
    toggle gives back the first collection with that widget's flag written
    out, so the position and size from before maximizing are there to
    restore. *)
Theorem toggleMaximize_keeps_geometry (i : string) (ws : list Widget) :
  List.map id (toggleMaximize i ws) = List.map id ws
  /\ List.map position (toggleMaximize i ws) = List.map position ws
  /\ List.map size (toggleMaximize i ws) = List.map size ws
  /\ Forall2 (fun w w' =>
        truthy (isMaximized w')
        = if String.eqb (id w) i then negb (truthy (isMaximized w))
          else truthy (isMaximized w))
       ws (toggleMaximize i ws)
  /\ toggleMaximize i (toggleMaximize i ws)
     = List.map (with_flag_set i) ws.
Proof.
  unfold toggleMaximize. rewrite !List.map_map.
  split; [apply List.map_ext; intros w; now destruct (String.eqb (id w) i)|].
  split; [rewrite <- (List.map_id (List.map position ws)), List.map_map;
          apply List.map_ext; intros w; now destruct (String.eqb (id w) i)|].
  split; [rewrite <- (List.map_id (List.map size ws)), List.map_map;
          apply List.map_ext; intros w; now destruct (String.eqb (id w) i)|].
  split.
  { induction ws as [|w ws IH]; constructor; [|exact IH].
    now destruct (String.eqb (id w) i). }
  apply List.map_ext. intros w. unfold with_flag_set.
  destruct (String.eqb (id w) i) eqn:E; cbn; rewrite E; [|reflexivity].
  unfold with_isMaximized. cbn. now rewrite negb_involutive.
Qed.

(** X8.  How the updates compose: of two moves of the same widget the second
    stands, of two resizes as well, and a move and a resize (of the same
    widget or not) give the same collection in either order. *)
Theorem move_and_resize_compose (i j : string) (x1 y1 x2 y2 nw nh nw' nh' : Q)
    (ws : list Widget) :
  moveWidget i x2 y2 (moveWidget i x1 y1 ws) = moveWidget i x2 y2 ws
  /\ resizeWidget i nw' nh' (resizeWidget i nw nh ws)
     = resizeWidget i nw' nh' ws
  /\ moveWidget i x1 y1 (resizeWidget j nw nh ws)
     = resizeWidget j nw nh (moveWidget i x1 y1 ws).
Proof.
  unfold moveWidget, resizeWidget. rewrite !List.map_map.
  repeat split; apply List.map_ext; intros w.
  - destruct (String.eqb (id w) i) eqn:E; cbn; rewrite E; reflexivity.
  - destruct (String.eqb (id w) i) eqn:E; cbn; rewrite E; reflexivity.
  - destruct (String.eqb (id w) i) eqn:E, (String.eqb (id w) j) eqn:E';
      cbn; rewrite ?E, ?E'; reflexivity.
Qed.

(** X9.  Adding a widget and removing the id it was given gives back the
    collection, when no widget already had that id. *)
Theorem add_then_remove_restores (k : WidgetType) (rect : option DOMRect)
    (now : N) (ws : list Widget) :
  ~ In (widget_id now) (List.map id ws) ->
  removeWidget (widget_id now) (addWidget k rect now ws) = ws.
Proof.
  intros Habs. rewrite addWidget_appends. unfold removeWidget.
  rewrite List.filter_app.
  change (List.filter _ [added k rect now])
    with (removeWidget (widget_id now) [added k rect now]).
  rewrite removeWidget_added, app_nil_r.
  now apply removeWidget_absent.
Qed.

Lemma add_then_remove_restores_witness :
  removeWidget (widget_id 2) (addWidget news None 2 one_chart) = one_chart.
Proof.
  apply (add_then_remove_restores news None 2 one_chart).
  cbn. intros [H|[]]. discriminate.
Defined.

End LayoutFacts.

(** ** What a gesture stores in the dashboard *)

Module DraggableWidgetFacts.
Import JSNumber JSNumberFacts JSString Dashboard DashboardFacts Layout
  FlexibleCard FlexibleCardFacts DraggableWidget.
Local Open Scope Q_scope.

(** X10.  What the dashboard stores after a pointer move during a resize.  The
    handler reports the size and then, when the direction names the west or
    the north edge, the position; both reports start from the same
    collection, so in those six directions the stored collection is the old
    one with the widget moved, and its stored size is the old size.  In the
    directions e, s and se the size is stored. *)
Theorem resize_report_west_north_keeps_stored_size (w : Widget)
    (ws : list Widget) (e : MouseEvent) (c : Card) (d : string) :
  isDragging c = false -> isResizing c = true ->
  truthy (Dashboard.isMaximized w) = false ->
  resizeDirection c = Some d ->
  let b := card_box (fst (pointer_move w ws e c)) in
  let ws' := snd (pointer_move w ws e c) in
  (includes "w" d || includes "n" d = true ->
   ws' = moveWidget (id w) (b_x b) (b_y b) ws
   /\ List.map size ws' = List.map size ws)
  /\ (includes "w" d || includes "n" d = false ->
      ws' = resizeWidget (id w) (b_width b) (b_height b) ws
      /\ List.map position ws' = List.map position ws).
Proof.
  intros Hdrag Hres Hmax Hdir. cbv zeta.
  unfold pointer_move, handleMouseMove.
  rewrite Hdrag, Hres, Hdir.
  cbn [card_props FlexibleCard.isMaximized has_onMove has_onResize].
  rewrite Hmax.
  cbn [andb negb fst snd dir_includes card_box c_width c_height c_x c_y
       b_x b_y b_width b_height].
  set (b := resize_box _ _ _ _ _).
  split; intros Hd; rewrite Hd; cbn [app setWidgets_after fold_left
    setWidgets_arg fst snd]; (split; [reflexivity|]).
  - unfold moveWidget. rewrite List.map_map. apply List.map_ext.
    intros v. now destruct (String.eqb (id v) (id w)).
  - unfold resizeWidget. rewrite List.map_map. apply List.map_ext.
    intros v. now destruct (String.eqb (id v) (id w)).
Qed.

Lemma resize_report_west_north_keeps_stored_size_witness :
  let c := resizing_card 500 300 "w" in
  let e := {| clientX := 40; clientY := 100 |} in
  b_width (card_box (fst (pointer_move the_chart one_chart e c))) = 560
  /\ List.map size (snd (pointer_move the_chart one_chart e c))
     = List.map size one_chart.
Proof.
  cbv zeta.
  pose proof (resize_report_west_north_keeps_stored_size the_chart one_chart
                {| clientX := 40; clientY := 100 |}
                (resizing_card 500 300 "w") "w"
                eq_refl eq_refl eq_refl eq_refl) as [Hwest _].
  split; [reflexivity|]. exact (proj2 (Hwest eq_refl)).
Defined.

Lemma resize_box_nonneg p ds d dX dY :
  0 <= minWidth p -> 0 <= minHeight p ->
  0 <= ds_width ds -> 0 <= ds_height ds ->
  0 <= b_width (resize_box p ds d dX dY)
  /\ 0 <= b_height (resize_box p ds d dX dY).
Proof.
  intros Hmw Hmh Hw Hh. unfold resize_box.
  pose proof (Math_max_lower_l (minWidth p) (ds_width ds + dX)).
  pose proof (Math_max_lower_l (minWidth p) (ds_width ds - dX)).
  pose proof (Math_max_lower_l (minHeight p) (ds_height ds + dY)).
  pose proof (Math_max_lower_l (minHeight p) (ds_height ds - dY)).
  destruct (dir_includes d "e"), (dir_includes d "s"), (dir_includes d "w"),
    (dir_includes d "n"); cbn [b_width b_height]; split; lra.
Qed.

(** X11.  No pointer move stores a negative position or size: when the
    collection satisfies the invariant and the card's size at pointer-down
    was not negative, the collection after the handler's reports satisfies
    it, whatever the pointer position and the direction. *)
Theorem pointer_move_keeps_layout_ok (w : Widget) (ws : list Widget)
    (e : MouseEvent) (c : Card) :
  layout_ok ws ->
  0 <= ds_width (dragStart c) -> 0 <= ds_height (dragStart c) ->
  layout_ok (snd (pointer_move w ws e c)).
Proof.
  intros Hok Hw Hh. unfold pointer_move, handleMouseMove.
  destruct (isDragging c && negb (FlexibleCard.isMaximized (card_props w))).
  { cbn. now apply moveWidget_preserves. }
  destruct (isResizing c && negb (FlexibleCard.isMaximized (card_props w)));
    [|exact Hok].
  cbn [card_props has_onMove has_onResize andb fst snd].
  set (b := resize_box _ _ _ _ _).
  destruct (dir_includes (resizeDirection c) "w"
            || dir_includes (resizeDirection c) "n");
    cbn [app setWidgets_after fold_left setWidgets_arg].
  - now apply moveWidget_preserves.
  - destruct (resize_box_nonneg (card_props w) (dragStart c)
                (resizeDirection c)
                (clientX e - mouseX (dragStart c))
                (clientY e - mouseY (dragStart c))) as [Hbw Hbh];
      try assumption; try (cbn; lra).
    now apply resizeWidget_preserves.
Qed.

Lemma pointer_move_keeps_layout_ok_witness :
  layout_ok (snd (pointer_move the_chart one_chart
                    {| clientX := 900; clientY := -700 |}
                    (resizing_card 500 300 "se"))).
Proof.
  apply (pointer_move_keeps_layout_ok the_chart one_chart
           {| clientX := 900; clientY := -700 |}
           (resizing_card 500 300 "se") one_chart_ok); cbn; lra.
Defined.

End DraggableWidgetFacts.

(** ** The shared connection over time *)

Module LiveHookFacts.
Import JSString Ticker TickerFacts LivePrice LivePriceFacts LiveHook.
Local Arguments attempts_of : simpl never.
Local Arguments delivered : simpl never.
Local Arguments convertTickerFormat : simpl never.
Local Arguments subscription_for : simpl never.

Lemma attempts_of_snoc_other f g ok l :
  frame_eqb f g = false ->
  attempts_of f (l ++ [(g, ok)]) = attempts_of f l.
Proof.
  intros H. rewrite attempts_of_app. unfold attempts_of at 2.
  cbn. rewrite H. cbn. lia.
Qed.

Lemma handle_keeps_active e s sub :
  is_unsubscribe e = false ->
  In sub (currentSubscriptions s) ->
  In sub (currentSubscriptions (handle s e))
  /\ attempts_of (subscribe_frame sub) (wire (handle s e))
     = attempts_of (subscribe_frame sub) (wire s).
Proof.
  intros Hun Hin. destruct e; try discriminate; cbn [handle].
  - (* subscribeTicker *)
    pose proof (subscribeTicker_current ticker callback silentMode
                  create_ok send_ok s) as Hcur.
    cbv zeta in Hcur.
    split.
    { destruct Hcur as [[-> _]|(_ & -> & _)]; [exact Hin|].
      apply in_or_app. now left. }
    destruct (string_dec (subscription_for (convertTickerFormat ticker)) sub)
      as [<-|Hne].
    + now destruct (subscribeTicker_active ticker callback silentMode
                      create_ok send_ok s Hin) as (_ & -> & _).
    + assert (Hf : frame_eqb (subscribe_frame sub)
                 (subscribe_frame (subscription_for
                    (convertTickerFormat ticker))) = false).
      { cbn. apply String.eqb_neq. congruence. }
      open_subscribe. by_cases; simpl_state;
        rewrite ?(attempts_of_snoc_other _ _ _ _ Hf); reflexivity.
  - (* reconnect *)
    unfold reconnect, setupWebSocket. simpl_state.
    by_cases; simpl_state; auto.
  - (* onopen *)
    unfold onopen. simpl_state. by_cases; simpl_state; [|auto].
    split; [exact Hin|]. now apply attempts_of_snoc_other.
  - unfold onclose. simpl_state. by_cases; simpl_state; auto.
  - unfold on_auth_success, processPendingSubscriptions. simpl_state.
    by_cases; simpl_state; auto.
  - split.
    + unfold flush_pending. destruct (flushTimers s); [exact Hin|].
      simpl_state. destruct (negb _); simpl_state; [|exact Hin].
      match goal with |- context [foldl _ ?s0 ?items] =>
        assert (Hmono : forall l st, In sub (currentSubscriptions st) ->
                  In sub (currentSubscriptions
                            (foldl (flush_one send_ok) st l)));
        [|exact (Hmono items s0 Hin)]
      end.
      induction l as [|x l IH]; intros st Hst; [exact Hst|].
      cbn [foldl]. apply IH. now apply flush_one_current_mono.
    + exact (proj1 (flush_pending_attempts send_ok s sub) Hin).
  - unfold silent_timeout. simpl_state. auto.
  - unfold reconnect_timer_fires, setupWebSocket. simpl_state.
    by_cases; simpl_state; auto.
Qed.

(** X12.  A subscription that is in the active list stays there, and is never
    sent again, whatever happens other than an unsubscribe: in particular
    not after the transport closed and a new connection was opened and
    authenticated. *)
Theorem active_subscription_never_resent (s : State) (es : list Event)
    (sub : string) :
  In sub (currentSubscriptions s) ->
  forallb (fun e => negb (is_unsubscribe e)) es = true ->
  In sub (currentSubscriptions (run s es))
  /\ attempts_of (subscribe_frame sub) (wire (run s es))
     = attempts_of (subscribe_frame sub) (wire s).
Proof.
  revert s. induction es as [|e es IH]; intros s Hin Hall; [auto|].
  cbn [forallb] in Hall. apply andb_true_iff in Hall as [He Hes].
  apply negb_true_iff in He.
  destruct (handle_keeps_active e s sub He Hin) as [Hin' Hatt].
  change (run s (e :: es)) with (run (handle s e) es).
  destruct (IH (handle s e) Hin' Hes) as [H1 H2].
  split; [exact H1|]. now rewrite H2.
Qed.

Lemma active_subscription_never_resent_witness :
  let es := [EvClose; EvReconnectTimer true; EvOpen true; EvAuthSuccess;
             EvFlush all_sent; EvSubscribe "ETH-USD" 9 false true true] in
  In "XT.ETH-USD" (currentSubscriptions (run ready_state es))
  /\ attempts_of (subscribe_frame "XT.ETH-USD") (wire (run ready_state es))
     = attempts_of (subscribe_frame "XT.ETH-USD") (wire ready_state).
Proof.
  cbv zeta.
  assert (Hin : In "XT.ETH-USD" (currentSubscriptions ready_state)).
  { vm_compute. now left. }
  exact (active_subscription_never_resent ready_state
           [EvClose; EvReconnectTimer true; EvOpen true; EvAuthSuccess;
            EvFlush all_sent; EvSubscribe "ETH-USD" 9 false true true]
           "XT.ETH-USD" Hin eq_refl).
Defined.

(** *** A socket that could not be created *)

Lemma reconnect_failed_blocked s : blocked (reconnect false s).
Proof.
  unfold blocked, reconnect, setupWebSocket, has_client. simpl_state.
  by_cases; simpl_state; auto; congruence.
Qed.

Lemma handle_blocked e s :
  is_close e = false -> blocked s -> blocked (handle s e).
Proof.
  unfold blocked. intros He (Hc & Hp & Ht).
  destruct e; try discriminate; cbn [handle].
  - open_subscribe. by_cases; simpl_state; auto; congruence.
  - open_unsubscribe. by_cases; simpl_state; auto; congruence.
  - unfold reconnect, setupWebSocket, has_client. simpl_state.
    by_cases; simpl_state; auto; congruence.
  - unfold onopen. rewrite Hc. auto.
  - unfold on_auth_success. rewrite Hc. auto.
  - unfold flush_pending. destruct (flushTimers s); [auto|].
    simpl_state. destruct (negb _); simpl_state; [|auto].
    match goal with |- context [foldl _ ?s0 ?items] =>
      destruct (flush_fold_same_connection send_ok items s0)
        as (Hf1 & Hf2 & Hf3 & _);
      rewrite ?Hf1, ?Hf2, ?Hf3
    end.
    simpl_state. auto.
  - unfold silent_timeout. simpl_state. auto.
  - unfold reconnect_timer_fires. rewrite Ht. auto.
Qed.

(** X13.  When the creation of the socket throws in [reconnect], the variable
    [connectingPromise] keeps the rejected promise: from then on no call
    of [subscribeTicker], [unsubscribeTicker] or [reconnect] and no timer
    creates a socket or arms the reconnect timer, even if the creation
    would now succeed, until a close event of an earlier socket arrives. *)
Theorem failed_creation_blocks_every_setup (s : State) (es : list Event) :
  forallb (fun e => negb (is_close e)) es = true ->
  blocked (run (reconnect false s) es)
  /\ has_client (run (reconnect false s) es) = false.
Proof.
  intros Hall.
  assert (H : blocked (run (reconnect false s) es)).
  { generalize (reconnect false s) (reconnect_failed_blocked s).
    induction es as [|e es IH]; intros st Hst; [exact Hst|].
    cbn [forallb] in Hall. apply andb_true_iff in Hall as [He Hes].
    apply negb_true_iff in He.
    change (run st (e :: es)) with (run (handle st e) es).
    apply (IH Hes). now apply handle_blocked. }
  split; [exact H|]. unfold has_client. now destruct H as (-> & _).
Qed.

Lemma failed_creation_blocks_every_setup_witness :
  has_client
    (run (reconnect false ready_state)
       [EvSubscribe "BTC-USD" 3 true true true; EvReconnect true;
        EvReconnectTimer true; EvSubscribe "SOL-USD" 4 false true true])
  = false.
Proof.
  exact (proj2 (failed_creation_blocks_every_setup ready_state
                  [EvSubscribe "BTC-USD" 3 true true true; EvReconnect true;
                   EvReconnectTimer true;
                   EvSubscribe "SOL-USD" 4 false true true] eq_refl)).
Defined.

(** *** The flush of the pending set *)

Lemma flush_one_current ok s x sub :
  In sub (currentSubscriptions (flush_one ok s x))
  <-> In sub (currentSubscriptions s) \/ (sub = x /\ ok x = true).
Proof.
  unfold flush_one.
  destruct (includes_sub x (currentSubscriptions s)) eqn:E; cbn [negb].
  - apply includes_sub_In in E. split; [auto|].
    intros [H|[-> _]]; assumption.
  - destruct (ok x) eqn:Eok; simpl_state.
    + rewrite in_app_iff. cbn [In]. split.
      * intros [H|[<-|[]]]; auto.
      * intros [H|[-> _]]; auto.
    + split; [auto|]. intros [H|[_ H]]; [exact H|discriminate].
Qed.

Lemma flush_fold_current ok sub l : forall s,
  In sub (currentSubscriptions (foldl (flush_one ok) s l))
  <-> In sub (currentSubscriptions s) \/ (In sub l /\ ok sub = true).
Proof.
  induction l as [|x l IH]; intros s; cbn [foldl In]; [tauto|].
  rewrite IH, flush_one_current. split.
  - intros [[H|[-> H]]|[H1 H2]]; auto.
  - intros [H|[[<-|H1] H2]]; auto.
Qed.

Lemma flush_fold_sends ok sub l : List.NoDup l -> forall s,
  In sub l -> ~ In sub (currentSubscriptions s) ->
  attempts_of (subscribe_frame sub) (wire (foldl (flush_one ok) s l))
  = S (attempts_of (subscribe_frame sub) (wire s)).
Proof.
  induction 1 as [|x l Hx Hl IH]; intros s Hin Hnot; [destruct Hin|].
  cbn [foldl]. destruct (string_dec x sub) as [->|Hne].
  - rewrite (proj1 (flush_fold_attempts ok sub l Hl (flush_one ok s sub)))
      by (right; exact Hx).
    rewrite flush_one_attempts, String.eqb_refl.
    apply includes_sub_not_In in Hnot. rewrite Hnot. cbn. lia.
  - destruct Hin as [Heq|Hin]; [contradiction|].
    rewrite (IH (flush_one ok s x) Hin).
    + rewrite flush_one_attempts.
      assert (String.eqb sub x = false) as ->
        by (apply String.eqb_neq; congruence).
      cbn. lia.
    + rewrite flush_one_current. intros [H|[H _]]; [auto|congruence].
Qed.

(** X14.  The 500 ms flush: afterwards the pending set is empty; a subscription
    is in the active list exactly when it was there before or was pending
    and its send returned; every pending subscription that was not active
    is sent once; the registry is untouched.  So a pending subscription
    whose send throws is neither active nor pending afterwards, although its
    listeners are still registered. *)
Theorem flush_settles_pending (send_ok : string -> bool) (s : State) :
  (0 < flushTimers s)%nat ->
  let s' := flush_pending send_ok s in
  pendingSubscriptions s' = ∅
  /\ subscribers s' = subscribers s
  /\ (forall sub,
        In sub (currentSubscriptions s')
        <-> In sub (currentSubscriptions s)
            \/ (sub ∈ pendingSubscriptions s /\ send_ok sub = true))
  /\ (forall sub,
        sub ∈ pendingSubscriptions s -> ~ In sub (currentSubscriptions s) ->
        attempts_of (subscribe_frame sub) (wire s')
        = S (attempts_of (subscribe_frame sub) (wire s))).
Proof.
  intros Hpos. cbv zeta. unfold flush_pending.
  destruct (flushTimers s) as [|n]; [lia|]. simpl_state.
  destruct (Nat.eqb (size (pendingSubscriptions s)) 0) eqn:Hsz; cbn [negb].
  - apply Nat.eqb_eq, size_empty_iff, leibniz_equiv in Hsz.
    simpl_state. rewrite Hsz.
    split; [reflexivity|]. split; [reflexivity|].
    split; [intros sub; set_solver|]. intros sub H. set_solver.
  - simpl_state.
    set (s0 := set_flushTimers n s).
    split; [reflexivity|].
    split.
    { generalize (elements (pendingSubscriptions s)) s0 (eq_refl :
        subscribers s0 = subscribers s).
      induction l as [|x l IH]; intros st Hst; [exact Hst|].
      cbn [foldl]. apply IH. rewrite <- Hst. unfold flush_one.
      destruct (negb _); [|reflexivity]. destruct (send_ok x); reflexivity. }
    split.
    { intros sub. rewrite flush_fold_current. subst s0. simpl_state.
      rewrite <- (list_elem_of_In (elements (pendingSubscriptions s))).
      now rewrite elem_of_elements. }
    intros sub Hin Hnot.
    rewrite (flush_fold_sends send_ok sub (elements (pendingSubscriptions s))
               (proj1 (NoDup_ListNoDup _) (NoDup_elements _)) s0).
    + reflexivity.
    + now apply list_elem_of_In, elem_of_elements.
    + exact Hnot.
Qed.

Lemma flush_settles_pending_witness :
  pendingSubscriptions (flush_pending none_sent awaiting_flush) = ∅
  /\ attempts_of (subscribe_frame "XT.BTC-USD")
       (wire (flush_pending none_sent awaiting_flush))
     = S (attempts_of (subscribe_frame "XT.BTC-USD") (wire awaiting_flush)).
Proof.
  assert (Hpos : (0 < flushTimers awaiting_flush)%nat)
    by (vm_compute; lia).
  assert (Hin : "XT.BTC-USD" ∈ pendingSubscriptions awaiting_flush)
    by (vm_compute; reflexivity).
  assert (Hnot : ~ In "XT.BTC-USD" (currentSubscriptions awaiting_flush))
    by (vm_compute; tauto).
  destruct (flush_settles_pending none_sent awaiting_flush Hpos)
    as (Hp & _ & _ & Hsent).
  split; [exact Hp|]. exact (Hsent "XT.BTC-USD" Hin Hnot).
Defined.

(** *** Changing the ticker of the only listener *)

Lemma unsubscribeTicker_only_listener ticker cb ok s :
  subscribers s = {[convertTickerFormat ticker := {[cb]}]} ->
  has_client s = true ->
  let s1 := unsubscribeTicker ticker cb ok s in
  torn_down s1 /\ subscribers s1 = ∅
  /\ connectingPromise s1 = connectingPromise s
  /\ scheduled s1 = scheduled s
  /\ forall sub, attempts_of (subscribe_frame sub) (wire s1)
                 = attempts_of (subscribe_frame sub) (wire s).
Proof.
  intros Hsubs Hcl. cbv zeta. open_unsubscribe.
  rewrite Hsubs, lookup_singleton_eq.
  assert (({[cb]} : gset Callback) ∖ {[cb]} = ∅) as -> by set_solver.
  rewrite size_empty. cbn [Nat.eqb]. simpl_state.
  rewrite delete_insert_eq, delete_singleton_eq.
  assert (Hf : forall sub,
            frame_eqb (subscribe_frame sub)
              {| action := unsubscribe;
                 params := subscription_for (convertTickerFormat ticker) |}
            = false) by reflexivity.
  destruct (sharedWsClient s) as [c|] eqn:Hc; [|discriminate].
  unfold torn_down.
  destruct (isAuthenticated s), (Nat.eqb (readyState c) 1),
    (includes_sub _ (currentSubscriptions s));
    simpl_state; rewrite map_size_empty; cbn [Nat.eqb andb];
    simpl_state; rewrite ?Hc; simpl_state;
    repeat split; auto; intros sub;
    rewrite ?(attempts_of_snoc_other _ _ _ _ (Hf sub)); reflexivity.
Qed.

(** X15.  The hook's [subscribe(newTicker)] when its listener is the only one
    and a socket exists: nothing happens for the ticker it already has;
    for another ticker string the connection is torn down and, because
    [connectingPromise] still holds the promise of that connection, the new
    subscription is only queued: no socket, no armed timer, nothing sent.
    The close event of the socket that was closed then schedules a
    reconnect after 1 s, whose timer creates the next socket. *)
Theorem hook_subscribe_only_listener (current newTicker : string)
    (cb : Callback) (unsub_ok create_ok sub_ok : bool) (s : State) :
  subscribers s = {[convertTickerFormat current := {[cb]}]} ->
  has_client s = true -> connectingPromise s = true ->
  hook_subscribe current current cb unsub_ok create_ok sub_ok s
  = (s, current)
  /\ (String.eqb newTicker current = false ->
      let sub := subscription_for (convertTickerFormat newTicker) in
      let s2 :=
        fst (hook_subscribe current newTicker cb unsub_ok create_ok sub_ok s)
      in
      let s3 := onclose s2 in
      (sharedWsClient s2 = None /\ reconnectTimer s2 = None
       /\ connectingPromise s2 = true)
      /\ subscribers s2 = {[convertTickerFormat newTicker := {[cb]}]}
      /\ currentSubscriptions s2 = []
      /\ pendingSubscriptions s2 = {[sub]}
      /\ attempts_of (subscribe_frame sub) (wire s2)
         = attempts_of (subscribe_frame sub) (wire s)
      /\ scheduled s2 = scheduled s
      /\ reconnectTimer s3 = Some 1000%Z
      /\ scheduled s3 = scheduled s ++ [1000%Z]
      /\ has_client (reconnect_timer_fires true s3) = true).
Proof.
  intros Hsubs Hcl Hprom. unfold hook_subscribe.
  rewrite String.eqb_refl. split; [reflexivity|].
  intros Hne. cbv zeta. rewrite Hne. cbn [fst].
  destruct (unsubscribeTicker_only_listener current cb unsub_ok s Hsubs Hcl)
    as ((Hc & Hcon & Hauth & Hcur & Hpend & Hatt & Htim) & Hreg & Hp & Hsch
        & Hwire).
  set (s1 := unsubscribeTicker current cb unsub_ok s) in *.
  rewrite Hprom in Hp.
  assert (Hs2 : subscribeTicker newTicker cb true create_ok sub_ok s1
    = set_pendingSubscriptions
        {[subscription_for (convertTickerFormat newTicker)]}
        (set_subscribers {[convertTickerFormat newTicker := {[cb]}]}
           (set_isAddingNewSubscription true s1))).
  { open_subscribe. rewrite Hreg, lookup_empty. simpl_state.
    cbn [bool_decide decide_rel negb]. rewrite bool_decide_eq_false_2
      by (intros [? ?]; discriminate).
    simpl_state. rewrite lookup_insert_eq. cbn [default].
    rewrite Hcur, Hc, Hp, Hpend. cbn [includes_sub existsb]. simpl_state.
    unfold id. rewrite !union_empty_l_L, Hauth. cbn [andb].
    rewrite insert_insert_eq, insert_empty. reflexivity. }
  rewrite Hs2. simpl_state.
  split; [auto|]. split; [reflexivity|]. split; [exact Hcur|].
  split; [reflexivity|]. split; [apply Hwire|]. split; [exact Hsch|].
  unfold onclose. simpl_state.
  rewrite map_size_singleton, Hatt. cbn [Nat.eqb negb andb Nat.ltb Nat.leb
    maxReconnectAttempts]. simpl_state.
  rewrite Hsch. split; [reflexivity|]. split; [reflexivity|].
  unfold reconnect_timer_fires, setupWebSocket, has_client. simpl_state.
  reflexivity.
Qed.

Lemma hook_subscribe_only_listener_witness :
  let s2 :=
    fst (hook_subscribe "X:ETHUSD" "BTC-USD" 7 true true true ready_state) in
  sharedWsClient s2 = None
  /\ pendingSubscriptions s2
     = {[subscription_for (convertTickerFormat "BTC-USD")]}
  /\ reconnectTimer (onclose s2) = Some 1000%Z.
Proof.
  cbv zeta.
  assert (Hsubs : subscribers ready_state
                  = {[convertTickerFormat "X:ETHUSD" := {[7]}]})
    by (vm_compute; reflexivity).
  assert (Hcl : has_client ready_state = true) by (vm_compute; reflexivity).
  assert (Hp : connectingPromise ready_state = true)
    by (vm_compute; reflexivity).
  destruct (hook_subscribe_only_listener "X:ETHUSD" "BTC-USD" 7 true true
              true ready_state Hsubs Hcl Hp) as [_ H].
  destruct (H eq_refl) as ((Hc & _) & _ & _ & Hpend & _ & _ & Ht & _).
  split; [exact Hc|]. split; [exact Hpend|exact Ht].
Defined.

(** *** The last listener leaves while a reconnect is scheduled *)

(** X16.  Without a socket, [unsubscribeTicker] does not reach its teardown:
    when the only listener leaves while a reconnect is scheduled, the timer
    stays armed and the retry counter keeps its value, and when the timer
    fires a socket is created although the registry is empty. *)
Theorem last_listener_leaves_during_backoff (ticker : string)
    (cb : Callback) (ok : bool) (s : State) (delay : Z) :
  sharedWsClient s = None -> connectingPromise s = false ->
  reconnectTimer s = Some delay ->
  subscribers s = {[convertTickerFormat ticker := {[cb]}]} ->
  let s1 := unsubscribeTicker ticker cb ok s in
  let s2 := reconnect_timer_fires true s1 in
  subscribers s1 = ∅
  /\ reconnectTimer s1 = Some delay
  /\ reconnectAttempts s1 = reconnectAttempts s
  /\ wire s1 = wire s
  /\ has_client s2 = true
  /\ subscribers s2 = ∅.
Proof.
  intros Hc Hp Ht Hsubs. cbv zeta.
  unfold reconnect_timer_fires, setupWebSocket. open_unsubscribe.
  rewrite Hsubs, lookup_singleton_eq.
  assert (({[cb]} : gset Callback) ∖ {[cb]} = ∅) as -> by set_solver.
  rewrite size_empty. cbn [Nat.eqb]. simpl_state.
  rewrite delete_insert_eq, delete_singleton_eq, Hc. simpl_state.
  destruct (includes_sub _ (currentSubscriptions s)); simpl_state;
    rewrite map_size_empty; cbn [Nat.eqb andb]; simpl_state;
    do 3 (rewrite ?Ht, ?Hc, ?Hp; simpl_state);
    repeat split; auto.
Qed.

Lemma last_listener_leaves_during_backoff_witness :
  let s1 := unsubscribeTicker "BTC-USD" 1 true waiting_to_reconnect in
  subscribers s1 = ∅
  /\ reconnectTimer s1 = Some 1000%Z
  /\ has_client (reconnect_timer_fires true s1) = true.
Proof.
  cbv zeta.
  assert (Hc : sharedWsClient waiting_to_reconnect = None)
    by (vm_compute; reflexivity).
  assert (Hp : connectingPromise waiting_to_reconnect = false)
    by (vm_compute; reflexivity).
  assert (Ht : reconnectTimer waiting_to_reconnect = Some 1000%Z)
    by (vm_compute; reflexivity).
  assert (Hsubs : subscribers waiting_to_reconnect
                  = {[convertTickerFormat "BTC-USD" := {[1]}]})
    by (vm_compute; reflexivity).
  destruct (last_listener_leaves_during_backoff "BTC-USD" 1 true
              waiting_to_reconnect 1000%Z Hc Hp Ht Hsubs)
    as (H1 & H2 & _ & _ & H3 & _).
  split; [exact H1|]. split; [exact H2|exact H3].
Defined.

(** *** The registry *)

(** X17.  A subscribe followed by an unsubscribe of a listener that was not
    registered for the ticker leaves the registry as it was. *)
Theorem subscribe_unsubscribe_restores_registry (ticker : string)
    (cb : Callback) (silent c ok ok' : bool) (s : State) :
  let t := convertTickerFormat ticker in
  cb ∉ default ∅ (subscribers s !! t) ->
  subscribers s !! t <> Some ∅ ->
  subscribers
    (unsubscribeTicker ticker cb ok' (subscribeTicker ticker cb silent c ok s))
  = subscribers s.
Proof.
  cbv zeta. intros Hnot Hne.
  pose proof (unsubscribeTicker_subscribers ticker cb ok'
                (subscribeTicker ticker cb silent c ok s)) as H.
  cbv zeta in H. rewrite H. clear H.
  rewrite (subscribeTicker_subscribers ticker cb silent c ok s).
  rewrite lookup_insert_eq.
  set (t := convertTickerFormat ticker) in *.
  destruct (subscribers s !! t) as [cbs|] eqn:E;
    cbn [default from_option id] in *.
  - assert ((cbs ∪ {[cb]}) ∖ {[cb]} = cbs) as -> by set_solver.
    destruct (Nat.eqb (size cbs) 0) eqn:Hsz.
    + apply Nat.eqb_eq, size_empty_iff, leibniz_equiv in Hsz. congruence.
    + rewrite insert_insert_eq. now apply insert_id.
  - assert (((∅ : gset Callback) ∪ {[cb]}) ∖ {[cb]} = ∅) as -> by set_solver.
    rewrite size_empty. cbn [Nat.eqb]. rewrite delete_insert_eq.
    now apply delete_id.
Qed.

Lemma subscribe_unsubscribe_restores_registry_witness :
  subscribers
    (unsubscribeTicker "BTCUSD" 2 true
       (subscribeTicker "BTCUSD" 2 true true true ready_state))
  = subscribers ready_state.
Proof.
  apply (subscribe_unsubscribe_restores_registry "BTCUSD" 2 true true true
           true ready_state).
  - apply (bool_decide_unpack _). vm_compute. exact I.
  - vm_compute. discriminate.
Defined.

(** *** What holds in every state the module can reach *)

Lemma splice_first_In sub x l : In x (splice_first sub l) -> In x l.
Proof.
  induction l as [|a l IH]; cbn; [auto|].
  destruct (String.eqb a sub); cbn; [auto|]. intros [H|H]; auto.
Qed.

Lemma handle_registry_ok e s : registry_ok s -> registry_ok (handle s e).
Proof.
  intros [Hreg Hdis]. destruct e; cbn [handle].
  - (* subscribeTicker *)
    split.
    + intros t cbs. rewrite subscribeTicker_subscribers.
      destruct (string_dec (convertTickerFormat ticker) t) as [<-|Hne].
      * rewrite lookup_insert_eq. intros [= <-]. set_solver.
      * rewrite lookup_insert_ne by exact Hne. apply Hreg.
    + open_subscribe. by_cases; simpl_state; intros sub Hin;
        try (apply Hdis, Hin);
        repeat match goal with
        | H : includes_sub _ _ = false |- _ =>
            apply includes_sub_not_In in H
        | H : In _ (_ ++ _) |- _ => apply in_app_iff in H
        end;
        try (specialize (Hdis sub));
        first
          [ set_solver
          | destruct (string_dec sub
                        (subscription_for (convertTickerFormat ticker)))
              as [->|?]; [tauto|set_solver]
          | destruct Hin as [Hin|[<-|[]]]; set_solver ].
  - (* unsubscribeTicker *)
    split.
    + intros t cbs. rewrite unsubscribeTicker_subscribers.
      destruct (subscribers s !! convertTickerFormat ticker) as [old|] eqn:E;
        [|apply Hreg].
      destruct (Nat.eqb (size (old ∖ {[callback]})) 0) eqn:Hsz.
      * destruct (string_dec (convertTickerFormat ticker) t) as [<-|Hne].
        -- now rewrite lookup_delete_eq.
        -- rewrite lookup_delete_ne by exact Hne. apply Hreg.
      * destruct (string_dec (convertTickerFormat ticker) t) as [<-|Hne].
        -- rewrite lookup_insert_eq. intros [= <-] H.
           rewrite H, size_empty in Hsz. discriminate.
        -- rewrite lookup_insert_ne by exact Hne. apply Hreg.
    + open_unsubscribe. by_cases; simpl_state; intros sub Hin;
        try contradiction;
        try (apply splice_first_In in Hin);
        specialize (Hdis sub Hin); set_solver.
  - split; [|]; unfold reconnect, setupWebSocket; simpl_state;
      by_cases; simpl_state; assumption.
  - split; [|]; unfold onopen; simpl_state; by_cases; simpl_state; assumption.
  - split; [|]; unfold onclose; simpl_state; by_cases; simpl_state; assumption.
  - split; [|]; unfold on_auth_success, processPendingSubscriptions;
      simpl_state; by_cases; simpl_state; assumption.
  - unfold flush_pending. destruct (flushTimers s); [now split|].
    simpl_state. destruct (negb _); simpl_state; [|now split].
    split; simpl_state; [|set_solver].
    match goal with |- context [foldl _ ?s0 ?items] =>
      assert (Hk : forall l st, subscribers st = subscribers s ->
                subscribers (foldl (flush_one send_ok) st l) = subscribers s);
      [|rewrite (Hk items s0 eq_refl); exact Hreg]
    end.
    induction l as [|x l IH]; intros st Hst; [exact Hst|].
    cbn [foldl]. apply IH. rewrite <- Hst. unfold flush_one.
    destruct (negb _); [|reflexivity]. destruct (send_ok x); reflexivity.
  - now split.
  - split; [|]; unfold reconnect_timer_fires, setupWebSocket; simpl_state;
      by_cases; simpl_state; assumption.
Qed.

(** X18.  Whatever has happened since the module was loaded: the registry holds
    no ticker with an empty set of listeners, and no subscription is both
    in the active list and in the pending set. *)
Theorem reachable_registry_ok (es : list Event) :
  registry_ok (run initial es).
Proof.
  assert (H0 : registry_ok initial).
  { split; [intros t cbs H|intros sub []].
    unfold initial in H. cbn [subscribers] in H.
    now rewrite lookup_empty in H. }
  revert H0. generalize initial.
  induction es as [|e es IH]; intros s Hs; [exact Hs|].
  change (run s (e :: es)) with (run (handle s e) es).
  apply IH, handle_registry_ok, Hs.
Qed.

(** X20.  An open resets the backoff: when the transport closes after it has
    opened, with a listener registered, the reconnect is scheduled after
    1 s, whatever the retry counter was before the open. *)
Theorem open_resets_backoff (send_ok : bool) (s : State) :
  has_client s = true -> subscribers s <> ∅ ->
  let s' := onclose (onopen send_ok s) in
  reconnectAttempts (onopen send_ok s) = 0%nat
  /\ reconnectTimer s' = Some 1000%Z
  /\ scheduled s' = scheduled s ++ [1000%Z]
  /\ reconnectAttempts s' = 1%nat.
Proof.
  intros Hcl Hsub. cbv zeta.
  assert (Hopen : reconnectAttempts (onopen send_ok s) = 0%nat
                  /\ subscribers (onopen send_ok s) = subscribers s
                  /\ scheduled (onopen send_ok s) = scheduled s).
  { unfold onopen, has_client in *.
    destruct (sharedWsClient s); [|discriminate]. simpl_state. auto. }
  destruct Hopen as (Ha & Hs & Hsch).
  split; [exact Ha|].
  rewrite (onclose_retry (onopen send_ok s));
    [|now rewrite Hs|rewrite Ha; unfold maxReconnectAttempts; lia].
  simpl_state. rewrite Ha, Hsch. auto.
Qed.

Lemma open_resets_backoff_witness :
  reconnectAttempts five_failures = 5%nat
  /\ reconnectTimer
       (onclose (onopen true (reconnect true five_failures)))
     = Some 1000%Z.
Proof.
  assert (Hcl : has_client (reconnect true five_failures) = true)
    by (vm_compute; reflexivity).
  assert (Hsub : subscribers (reconnect true five_failures) <> ∅).
  { intros H. apply (f_equal (fun m => m !! "BTC-USD")) in H.
    vm_compute in H. discriminate. }
  split; [vm_compute; reflexivity|].
  exact (proj1 (proj2 (open_resets_backoff true
                         (reconnect true five_failures) Hcl Hsub))).
Defined.

(** X21.  [unsubscribeTicker] deletes the pending subscription before it looks
    at the listeners: when one of two listeners of a ticker leaves while
    the subscription is still pending, the other stays registered but the
    subscription is no longer pending, and the flush that follows the
    authentication does not send it. *)
Theorem unsubscribe_drops_pending_of_remaining_listener (ticker : string)
    (cb1 cb2 : Callback) (ok : bool) (flush_ok : string -> bool)
    (s : State) :
  let t := convertTickerFormat ticker in
  let sub := subscription_for t in
  let s1 := unsubscribeTicker ticker cb1 ok s in
  cb1 <> cb2 ->
  subscribers s !! t = Some {[cb1; cb2]} ->
  sub ∈ pendingSubscriptions s ->
  ~ In sub (currentSubscriptions s) ->
  subscribers s1 !! t = Some {[cb2]}
  /\ (sub ∉ pendingSubscriptions s1)
  /\ ~ In sub (currentSubscriptions s1)
  /\ wire s1 = wire s
  /\ attempts_of (subscribe_frame sub) (wire (flush_pending flush_ok s1))
     = attempts_of (subscribe_frame sub) (wire s).
Proof.
  cbv zeta. intros Hne Hlook Hpend Hnot.
  assert (Hrest : ({[cb1; cb2]} : gset Callback) ∖ {[cb1]} = {[cb2]})
    by set_solver.
  assert (Hp : pendingSubscriptions (unsubscribeTicker ticker cb1 ok s)
               = pendingSubscriptions s
                 ∖ {[subscription_for (convertTickerFormat ticker)]}).
  { clear Hpend Hnot. destruct s. open_unsubscribe.
    rewrite Hlook, Hrest, size_singleton. cbn [Nat.eqb]. simpl_state.
    rewrite size_insert_nonzero. simpl_state. reflexivity. }
  set (t := convertTickerFormat ticker) in *.
  set (sub := subscription_for t) in *.
  destruct (unsubscribeTicker_not_last ticker cb1 ok s {[cb1; cb2]} Hlook)
    as (Hw & Hc & _ & _ & Hs).
  { rewrite Hrest. apply non_empty_singleton_L. }
  fold t in Hs. rewrite Hrest in Hs.
  set (s1 := unsubscribeTicker ticker cb1 ok s) in *.
  split; [rewrite Hs; apply lookup_insert_eq|].
  split; [rewrite Hp; set_solver|].
  split; [now rewrite Hc|]. split; [exact Hw|].
  rewrite <- Hw.
  unfold flush_pending. destruct (flushTimers s1); [reflexivity|].
  simpl_state. destruct (negb _); simpl_state; [|reflexivity].
  match goal with |- context [foldl _ ?s0 ?l] =>
    pose proof (flush_fold_attempts flush_ok sub l
                  (proj1 (NoDup_ListNoDup _) (NoDup_elements _)) s0)
      as [H1 _]
  end.
  cbv zeta in H1. simpl_state. simpl_state. apply H1. right.
  rewrite <- list_elem_of_In, elem_of_elements, Hp. set_solver.
Qed.

Lemma unsubscribe_drops_pending_of_remaining_listener_witness :
  let s1 := unsubscribeTicker "BTC-USD" 1 true two_waiting in
  subscribers s1 !! convertTickerFormat "BTC-USD" = Some {[2]}
  /\ attempts_of
       (subscribe_frame (subscription_for (convertTickerFormat "BTC-USD")))
       (wire (flush_pending all_sent s1))
     = attempts_of
         (subscribe_frame (subscription_for (convertTickerFormat "BTC-USD")))
         (wire two_waiting).
Proof.
  cbv zeta.
  assert (Hne : 1 <> 2) by discriminate.
  assert (Hlook : subscribers two_waiting !! convertTickerFormat "BTC-USD"
                  = Some {[1; 2]}) by (vm_compute; reflexivity).
  assert (Hpend : subscription_for (convertTickerFormat "BTC-USD")
                  ∈ pendingSubscriptions two_waiting)
    by (vm_compute; reflexivity).
  assert (Hnot : ~ In (subscription_for (convertTickerFormat "BTC-USD"))
                   (currentSubscriptions two_waiting))
    by (vm_compute; tauto).
  destruct (unsubscribe_drops_pending_of_remaining_listener "BTC-USD" 1 2
              true all_sent two_waiting Hne Hlook Hpend Hnot)
    as (H1 & _ & _ & _ & H2).
  split; [exact H1|exact H2].
Defined.

End LiveHookFacts.

(** ** Fan-out of trades and the hook's trade list *)

Module TradeMessagesFacts.
Import JSON Ticker LivePrice TradeMessages.

Lemma same_key_key_is ticker k k' :
  same_key k k' = true -> key_is ticker k = key_is ticker k'.
Proof.
  destruct k as [[| | |s| |]|], k' as [[| | |s'| |]|]; cbn; try discriminate;
    try reflexivity.
  intros H. apply String.eqb_eq in H. now subst.
Qed.

Lemma key_is_same_key ticker k k' :
  key_is ticker k = true -> key_is ticker k' = true -> same_key k k' = true.
Proof.
  destruct k as [[| | |s| |]|], k' as [[| | |s'| |]|]; cbn; try discriminate.
  intros H H'. apply String.eqb_eq in H, H'. subst. apply String.eqb_refl.
Qed.

Lemma pick_push ticker key x groups :
  (List.length (pick ticker groups) <= 1)%nat ->
  pick ticker (push_trade key x groups)
  = if key_is ticker key then joined (pick ticker groups) [x]
    else pick ticker groups.
Proof.
  induction groups as [|[k ts] rest IH]; intros Hlen.
  - cbn. destruct (key_is ticker key); reflexivity.
  - cbn [push_trade]. destruct (same_key k key) eqn:Hs.
    + pose proof (same_key_key_is ticker k key Hs) as Hk.
      unfold pick in *. cbn [flat_map fst snd] in *. rewrite <- Hk.
      destruct (key_is ticker k); [|reflexivity].
      cbn [app List.length] in Hlen.
      destruct (flat_map _ rest); [reflexivity|cbn in Hlen; lia].
    + unfold pick in *. cbn [flat_map fst snd] in *.
      destruct (key_is ticker k) eqn:Hk.
      * cbn [app List.length] in Hlen.
        destruct (key_is ticker key) eqn:Hkey.
        -- rewrite (key_is_same_key ticker k key Hk Hkey) in Hs. discriminate.
        -- rewrite IH by lia. reflexivity.
      * cbn [app] in *. now apply IH.
Qed.

Lemma joined_length batches more :
  (List.length (joined batches more) <= 1)%nat.
Proof. destruct batches, more; cbn; lia. Qed.

Lemma pick_fold ticker trades : forall groups,
  (List.length (pick ticker groups) <= 1)%nat ->
  pick ticker
    (fold_left (fun g t => push_trade (get "pair" t) t g) trades groups)
  = joined (pick ticker groups) (List.filter (has_pair ticker) trades).
Proof.
  induction trades as [|x trades IH]; intros groups Hlen.
  - cbn [fold_left List.filter].
    destruct (pick ticker groups) as [|ts [|? ?]]; cbn in *;
      [reflexivity|now rewrite app_nil_r|lia].
  - cbn [fold_left List.filter]. rewrite IH.
    + rewrite (pick_push ticker _ x groups Hlen).
      change (has_pair ticker x) with (key_is ticker (get "pair" x)).
      destruct (key_is ticker (get "pair" x)); [|reflexivity].
      destruct (pick ticker groups) as [|ts ?]; cbn; [reflexivity|].
      now rewrite <- app_assoc.
    + rewrite (pick_push ticker _ x groups Hlen).
      destruct (key_is ticker _); [apply joined_length|exact Hlen].
Qed.

Lemma pick_tradesByPair ticker trades :
  pick ticker (tradesByPair trades)
  = match List.filter (has_pair ticker) trades with
    | [] => []
    | batch => [batch]
    end.
Proof.
  unfold tradesByPair. rewrite pick_fold by (cbn; lia).
  cbn. now destruct (List.filter _ trades).
Qed.

Lemma filter_filter_and (f g : json -> bool) l :
  List.filter f (List.filter g l) = List.filter (fun x => g x && f x) l.
Proof.
  induction l as [|x l IH]; [reflexivity|]. cbn.
  destruct (g x); cbn; [destruct (f x)|]; now rewrite IH.
Qed.

(** X22.  A listener registered for one ticker only, not the wildcard: a
    message gives it at most one call, with the valid trades of the message
    whose pair is that ticker, in their order of arrival; it is not called
    when the message has no such trade, is not an array, or is not JSON. *)
Theorem single_ticker_listener_gets_its_trades (cb : Callback)
    (subs : gmap string (gset Callback)) (ticker : string)
    (items : list json) :
  (forall t, cb ∈ default ∅ (subs !! t) <-> t = ticker) ->
  ticker <> "*" ->
  notified cb subs (JArr items)
  = match List.filter (fun x => is_trade x && has_pair ticker x) items with
    | [] => []
    | batch => [batch]
    end.
Proof.
  intros Hreg Hstar. unfold notified.
  rewrite <- filter_filter_and, <- pick_tradesByPair. unfold pick.
  apply flat_map_ext. intros [k ts]. unfold calls_for_pair. cbn [fst snd].
  assert (Hw : bool_decide (cb ∈ wildcardSubscribers subs) = false).
  { apply bool_decide_eq_false_2. unfold wildcardSubscribers.
    rewrite Hreg. congruence. }
  rewrite Hw, app_nil_r.
  destruct k as [[| | |p| |]|]; cbn [pairSubscribers key_is];
    try (rewrite bool_decide_eq_false_2 by set_solver; reflexivity).
  destruct (String.eqb p ticker) eqn:E.
  - apply String.eqb_eq in E. subst p.
    rewrite bool_decide_eq_true_2; [reflexivity|]. now apply Hreg.
  - apply String.eqb_neq in E.
    rewrite bool_decide_eq_false_2; [reflexivity|]. now rewrite Hreg.
Qed.

Lemma single_ticker_listener_gets_its_trades_witness :
  notified 1 {["BTC-USD" := {[1]}]}
    (JArr [trade_of "BTC-USD" 100 1 1; trade_of "ETH-USD" 7 2 1; JNull;
           trade_of "BTC-USD" 101 3 1])
  = [[trade_of "BTC-USD" 100 1 1; trade_of "BTC-USD" 101 3 1]].
Proof.
  apply (single_ticker_listener_gets_its_trades 1 {["BTC-USD" := {[1]}]}
           "BTC-USD").
  - intros t. destruct (decide (t = "BTC-USD")) as [->|Hne].
    + rewrite lookup_singleton_eq. cbn. set_solver.
    + rewrite lookup_singleton_ne by congruence. cbn. set_solver.
  - discriminate.
Defined.

Lemma flat_map_ext_In {A B} (f g : A -> list B) l :
  (forall a, In a l -> f a = g a) -> flat_map f l = flat_map g l.
Proof.
  induction l as [|a l IH]; intros H; [reflexivity|]. cbn.
  rewrite (H a) by now left. f_equal. apply IH. intros; apply H. now right.
Qed.

Lemma push_trade_single_pair ticker x groups :
  single_pair ticker groups ->
  single_pair ticker (push_trade (get "pair" x) x groups).
Proof.
  unfold single_pair. induction groups as [|[k ts] rest IH]; intros H.
  - cbn. intros k' ts' y [[= <- <-]|[]] [<-|[]]. reflexivity.
  - cbn [push_trade]. destruct (same_key k (get "pair" x)) eqn:Hs.
    + intros k' ts' y [[= <- <-]|Hin] Hy.
      * apply in_app_iff in Hy. destruct Hy as [Hy|[<-|[]]].
        -- apply (H k ts y); [now left|exact Hy].
        -- symmetry. exact (same_key_key_is ticker _ _ Hs).
      * apply (H k' ts' y); [now right|exact Hy].
    + intros k' ts' y [[= <- <-]|Hin] Hy.
      * apply (H k ts y); [now left|exact Hy].
      * apply (IH (fun k0 ts0 y0 Hin0 => H k0 ts0 y0 (or_intror Hin0))
                 k' ts' y Hin Hy).
Qed.

Lemma tradesByPair_single_pair ticker trades :
  single_pair ticker (tradesByPair trades).
Proof.
  unfold tradesByPair.
  assert (H0 : single_pair ticker []) by (intros ? ? ? []).
  revert H0. generalize (@nil (option json * list json)).
  induction trades as [|x trades IH]; intros groups H; [exact H|].
  cbn [fold_left]. apply IH. now apply push_trade_single_pair.
Qed.

Lemma filter_all (f : json -> bool) l :
  (forall x, In x l -> f x = true) -> List.filter f l = l.
Proof.
  induction l as [|x l IH]; intros H; [reflexivity|]. cbn.
  rewrite (H x) by now left. f_equal. apply IH. intros; apply H. now right.
Qed.

Lemma filter_none (f : json -> bool) l :
  (forall x, In x l -> f x = false) -> List.filter f l = [].
Proof.
  induction l as [|x l IH]; intros H; [reflexivity|]. cbn.
  rewrite (H x) by now left. apply IH. intros; apply H. now right.
Qed.

Lemma flat_map_pick {B} ticker (F : list json -> list B) groups :
  flat_map (fun g => if key_is ticker (fst g) then F (snd g) else []) groups
  = concat (List.map F (pick ticker groups)).
Proof.
  unfold pick. induction groups as [|[k ts] rest IH]; [reflexivity|].
  cbn [flat_map fst snd]. rewrite IH.
  destruct (key_is ticker k); [|reflexivity].
  cbn [app List.map concat]. reflexivity.
Qed.

Lemma concat_repeat_nil {A} n : concat (repeat (@nil A) n) = [].
Proof. induction n; [reflexivity|exact IHn]. Qed.

Lemma filter_calls_for_pair ticker cb subs k ts :
  (forall x, In x ts -> has_pair ticker x = key_is ticker k) ->
  List.filter (has_pair ticker) (concat (calls_for_pair cb subs (k, ts)))
  = if key_is ticker k
    then concat (repeat ts (registrations cb subs ticker)) else [].
Proof.
  intros H. unfold calls_for_pair, registrations. cbn [fst snd].
  rewrite concat_app, List.filter_app.
  destruct (key_is ticker k) eqn:Hk.
  - assert (Hall : List.filter (has_pair ticker) ts = ts)
      by (apply filter_all; exact H).
    assert (pairSubscribers subs k = default ∅ (subs !! ticker)) as ->.
    { destruct k as [[| | |p| |]|]; try discriminate. cbn in Hk.
      apply String.eqb_eq in Hk. now subst. }
    destruct (bool_decide (cb ∈ default ∅ (subs !! ticker))),
      (bool_decide (cb ∈ wildcardSubscribers subs)); cbn;
      rewrite ?app_nil_r, ?List.filter_app, ?Hall; reflexivity.
  - assert (Hnone : List.filter (has_pair ticker) ts = [])
      by (apply filter_none; exact H).
    destruct (bool_decide _), (bool_decide _); cbn;
      rewrite ?app_nil_r, ?List.filter_app, ?Hnone; reflexivity.
Qed.

Lemma filter_notified_groups ticker cb subs groups :
  single_pair ticker groups ->
  List.filter (has_pair ticker)
    (concat (flat_map (calls_for_pair cb subs) groups))
  = flat_map
      (fun g => if key_is ticker (fst g)
                then concat (repeat (snd g) (registrations cb subs ticker))
                else [])
      groups.
Proof.
  induction groups as [|[k ts] rest IH]; intros H; [reflexivity|].
  cbn [flat_map fst snd]. rewrite concat_app, List.filter_app.
  rewrite filter_calls_for_pair
    by (intros x Hx; apply (H k ts x); [now left|exact Hx]).
  f_equal. apply IH. intros k' ts' x Hin. apply H. now right.
Qed.

(** X23.  What a listener hears of one pair: of the trades it is called with,
    those with that pair are the valid trades of the message with that
    pair, in their order of arrival, once for each of its registrations
    (under the ticker, under the wildcard).  So a trade that fails the
    filter reaches no listener, a listener registered for neither hears
    nothing of the pair, and one registered for both gets every trade
    twice. *)
Theorem listener_hears_pair_once_per_registration (cb : Callback)
    (subs : gmap string (gset Callback)) (ticker : string)
    (items : list json) :
  List.filter (has_pair ticker) (concat (notified cb subs (JArr items)))
  = concat
      (repeat (List.filter (fun x => is_trade x && has_pair ticker x) items)
         (registrations cb subs ticker)).
Proof.
  unfold notified. rewrite <- filter_filter_and.
  set (trades := List.filter is_trade items).
  rewrite filter_notified_groups by apply tradesByPair_single_pair.
  rewrite (flat_map_pick ticker
             (fun ts => concat (repeat ts (registrations cb subs ticker)))).
  rewrite pick_tradesByPair.
  destruct (List.filter (has_pair ticker) trades) as [|y l] eqn:E; cbn.
  - now rewrite concat_repeat_nil.
  - now rewrite app_nil_r.
Qed.

(** X24.  The hook's listener: an empty array (the disconnect notice) changes
    nothing; otherwise the stored trades are the last 100 of the stored
    trades followed by the batch, so the list never exceeds 100, only the
    oldest entries are dropped, a batch of at most 100 trades is kept
    whole at the end, and the last price is the price of the last trade of
    the batch when that is a number. *)
Theorem handleTrades_keeps_latest_hundred (trades : list json)
    (h : HookState) :
  let h' := handleTrades trades h in
  let all := tradeMessages h ++ trades in
  (trades = [] -> h' = h)
  /\ (trades <> [] ->
      List.length (tradeMessages h') = Nat.min 100 (List.length all)
      /\ (exists dropped, all = dropped ++ tradeMessages h')
      /\ ((List.length trades <= 100)%nat ->
          exists older, tradeMessages h' = older ++ trades)
      /\ (forall p, get "p" (List.last trades JNull) = Some (JNum p) ->
                    lastPrice h' = Some p)).
Proof.
  cbv zeta. split; [intros ->; reflexivity|].
  intros Hne. destruct trades as [|x trades]; [congruence|].
  cbn [handleTrades tradeMessages lastPrice]. unfold slice_last.
  set (all := tradeMessages h ++ x :: trades).
  split; [rewrite List.length_skipn; lia|].
  split; [exists (firstn (List.length all - 100) all);
          now rewrite List.firstn_skipn|].
  split.
  - intros Hlen. exists (skipn (List.length all - 100) (tradeMessages h)).
    subst all. rewrite List.skipn_app.
    replace (List.length (tradeMessages h ++ x :: trades) - 100
             - List.length (tradeMessages h))%nat with 0%nat
      by (rewrite List.length_app; cbn [List.length] in *; lia).
    reflexivity.
  - intros p Hp. now rewrite Hp.
Qed.

End TradeMessagesFacts.

(** ** Ticker spellings *)

Module TickerViewsFacts.
Import JSString Ticker TickerFacts TickerViews.
Local Open Scope string_scope.
Local Arguments String.append : simpl nomatch.

Lemma remove_quote_suffix_USD b : remove_quote_suffix (b +:+ "USD") = b.
Proof.
  induction b as [|c b IH]; [reflexivity|].
  cbn [String.append]. unfold remove_quote_suffix; fold remove_quote_suffix.
  destruct (String.eqb (String c (b +:+ "USD")) "USD") eqn:E1.
  { apply eqb_length in E1. cbn in E1. rewrite length_append in E1.
    cbn in E1. lia. }
  destruct (String.eqb (String c (b +:+ "USD")) "USDT") eqn:E2.
  { pose proof (eqb_length _ _ E2) as HL. cbn in HL.
    rewrite length_append in HL. cbn in HL. destruct b; [|cbn in HL; lia].
    apply String.eqb_eq in E2. discriminate. }
  cbn [orb]. now rewrite IH.
Qed.

Lemma endsWith_includes_dash s :
  endsWith "-USD" s = true -> includes "-" s = true.
Proof.
  induction s as [|c s IH]; [discriminate|].
  cbn [endsWith]. intros H. apply orb_true_iff in H as [H|H].
  - apply String.eqb_eq in H. rewrite <- H. reflexivity.
  - rewrite includes_dash_cons, (IH H). apply orb_true_r.
Qed.

Lemma split_head_dash_free s :
  includes "-" s = false -> split_head "-" s = s.
Proof.
  induction s as [|c s IH]; [reflexivity|].
  rewrite includes_dash_cons. intros H. apply orb_false_iff in H as [H1 H2].
  cbn [split_head]. now rewrite H1, IH.
Qed.

Lemma substring_dash_free s : forall n m,
  includes "-" s = false -> includes "-" (String.substring n m s) = false.
Proof.
  induction s as [|c s IH]; intros n m H.
  - destruct n, m; reflexivity.
  - rewrite includes_dash_cons in H. apply orb_false_iff in H as [H1 H2].
    destruct n as [|n]; cbn [String.substring].
    + destruct m as [|m]; [reflexivity|].
      rewrite includes_dash_cons, H1. cbn [orb]. now apply IH.
    + now apply IH.
Qed.

Lemma endsWith_one_dash pre post :
  includes "-" pre = false -> includes "-" post = false ->
  endsWith "-USD" (pre +:+ String "-" post) = true -> post = "USD".
Proof.
  intros Hpre Hpost. induction pre as [|c pre IH].
  - cbn [String.append endsWith]. intros H. apply orb_true_iff in H as [H|H].
    + apply String.eqb_eq in H. now injection H as <-.
    + apply endsWith_includes_dash in H. congruence.
  - rewrite includes_dash_cons in Hpre.
    apply orb_false_iff in Hpre as [H1 H2].
    cbn [String.append endsWith]. intros H. apply orb_true_iff in H as [H|H].
    + apply String.eqb_eq in H. injection H as <- _. discriminate.
    + now apply IH.
Qed.

Lemma convertTickerFormat_unfold input :
  is_canonical input = false -> String.eqb input "*" = false ->
  convertTickerFormat input = after_prefix (replace "X:" "" input).
Proof. intros H1 H2. unfold convertTickerFormat. now rewrite H1, H2. Qed.

Lemma prefixed_not_canonical r : is_canonical ("X:" +:+ r) = false.
Proof. reflexivity. Qed.

Lemma convertTickerFormat_prefixed r :
  convertTickerFormat ("X:" +:+ r) = after_prefix r.
Proof.
  rewrite convertTickerFormat_unfold by reflexivity. reflexivity.
Qed.

Lemma after_prefix_USD b :
  includes "-" b = false -> after_prefix (b +:+ "USD") = base_of b +:+ "-USD".
Proof.
  intros Hb. unfold after_prefix, base_of.
  rewrite remove_quote_suffix_USD, Hb. cbn [negb].
  rewrite Nat.leb_antisym.
  destruct (String.length b <? 6)%nat; cbn [negb].
  - destruct (endsWith "-USD" b) eqn:E.
    + apply endsWith_includes_dash in E. congruence.
    + cbn [negb]. now rewrite split_head_dash_free.
  - unfold substring_to, substring_from.
    set (pre := String.substring 0 3 b).
    set (post := String.substring 3 (String.length b - 3) b).
    assert (Hpre : includes "-" pre = false) by now apply substring_dash_free.
    assert (Hpost : includes "-" post = false)
      by now apply substring_dash_free.
    change (pre +:+ "-" +:+ post) with (pre +:+ String "-" post).
    destruct (endsWith "-USD" (pre +:+ String "-" post)) eqn:E; cbn [negb].
    + now rewrite (endsWith_one_dash pre post Hpre Hpost E).
    + now rewrite split_head_append_dash.
Qed.

(** X25.  The symbol of the market-data API, ["X:"] followed by a base without
    ["-"] and ["USD"]: the normaliser gives the base followed by
    ["-USD"] when the base is shorter than six code units, and only its
    first three otherwise. *)
Theorem convertTickerFormat_of_api_symbol (b : string) :
  includes "-" b = false ->
  convertTickerFormat ("X:" +:+ b +:+ "USD") = base_of b +:+ "-USD".
Proof.
  intros Hb. rewrite convertTickerFormat_prefixed. now apply after_prefix_USD.
Qed.

Lemma convertTickerFormat_of_api_symbol_witness :
  convertTickerFormat ("X:" +:+ "MATIC" +:+ "USD") = "MATIC" +:+ "-USD"
  /\ convertTickerFormat ("X:" +:+ "AVAXXX" +:+ "USD") = "AVA" +:+ "-USD".
Proof.
  split.
  - exact (convertTickerFormat_of_api_symbol "MATIC" eq_refl).
  - exact (convertTickerFormat_of_api_symbol "AVAXXX" eq_refl).
Defined.

Lemma canonical_split seen s :
  upper_run_then_USD seen s = true -> split_head "-" s +:+ "-USD" = s.
Proof.
  revert seen. induction s as [|c s IH]; intros seen; [discriminate|].
  cbn [upper_run_then_USD]. destruct (is_upper c) eqn:Eu.
  - intros H. cbn [split_head].
    destruct (Ascii.eqb c "-") eqn:Ed.
    + apply Ascii.eqb_eq in Ed. subst c. discriminate.
    + cbn [String.append]. now rewrite (IH _ H).
  - intros H. apply andb_true_iff in H as [_ H].
    apply String.eqb_eq in H. rewrite H. reflexivity.
Qed.

Lemma after_prefix_fixed r :
  split_head "-" r +:+ "-USD" = r -> after_prefix r = r.
Proof.
  intros Hd. unfold after_prefix.
  set (base := split_head "-" r) in *.
  assert (Hbase : includes "-" base = false) by apply split_head_no_dash.
  assert (Hr : remove_quote_suffix r = base +:+ "-")
    by (rewrite <- Hd at 1; apply remove_quote_suffix_dash_USD).
  rewrite !Hr, includes_append_dash. cbn [negb].
  rewrite endsWith_dash_USD_append_dash. cbn [negb].
  rewrite (split_head_append_dash base "" Hbase). exact Hd.
Qed.

Lemma prefix_split t :
  String.prefix "X:" t = true -> t = "X:" +:+ substring_from 2 t.
Proof.
  destruct t as [|a t]; [discriminate|]. cbn [String.prefix].
  destruct (ascii_dec "X" a) as [<-|Ha]; [|discriminate].
  destruct t as [|b t]; [discriminate|]. cbn [String.prefix].
  destruct (ascii_dec ":" b) as [<-|Hb]; [|discriminate].
  intros _. unfold substring_from. cbn [String.length Nat.sub].
  cbn [String.substring]. rewrite Nat.sub_0_r.
  cbn [String.append]. f_equal. f_equal. clear.
  induction t as [|c t IH]; [reflexivity|].
  cbn [String.length String.substring]. now rewrite <- IH.
Qed.

(** X26.  The ticker shown and the ticker selected name the same symbol: with
    or without its ["X:"] prefix, a ticker that is not the wildcard and
    holds no second ["X:"] has the same normal form. *)
Theorem display_ticker_same_symbol (ticker : string) :
  getDisplayTicker ticker <> "*" ->
  includes "X:" (getDisplayTicker ticker) = false ->
  convertTickerFormat (getDisplayTicker ticker) = convertTickerFormat ticker.
Proof.
  unfold getDisplayTicker.
  destruct (String.prefix "X:" ticker) eqn:Ep; [|reflexivity].
  set (r := substring_from 2 ticker). intros Hstar Hx.
  rewrite (prefix_split ticker Ep). fold r.
  rewrite convertTickerFormat_prefixed.
  destruct (is_canonical r) eqn:Ec.
  - unfold convertTickerFormat. rewrite Ec. symmetry.
    apply after_prefix_fixed, (canonical_split false), Ec.
  - rewrite convertTickerFormat_unfold; [|exact Ec|now apply String.eqb_neq].
    now rewrite replace_absent.
Qed.

Lemma display_ticker_same_symbol_witness :
  convertTickerFormat (getDisplayTicker "X:BTCUSD")
  = convertTickerFormat "X:BTCUSD".
Proof.
  apply (display_ticker_same_symbol "X:BTCUSD"); [discriminate|reflexivity].
Defined.

(** X27.  From the normal form to the symbol of the ticker-details API and
    back: a ticker that matches [/^[A-Z]+-USD$/] and whose base has fewer
    than six letters comes back unchanged; a longer base comes back cut to
    its first three letters. *)
Theorem details_format_round_trip (c : string) :
  is_canonical c = true ->
  convertTickerFormat (getTickerDetailsFormat c)
  = base_of (split_head "-" c) +:+ "-USD"
  /\ ((String.length c < 10)%nat ->
      convertTickerFormat (getTickerDetailsFormat c) = c).
Proof.
  intros Hc.
  pose proof (canonical_split false c Hc) as Hsplit.
  assert (Hu : includes "-" (split_head "-" c) = false)
    by apply split_head_no_dash.
  set (u := split_head "-" c) in *. clearbody u. subst c.
  assert (Hfmt : getTickerDetailsFormat (u +:+ "-USD")
                 = "X:" +:+ u +:+ "USD").
  { unfold getTickerDetailsFormat.
    assert (String.eqb (u +:+ "-USD") "" = false) as ->
      by (destruct u; reflexivity).
    assert (String.prefix "X:" (u +:+ "-USD") = false) as ->.
    { destruct (String.prefix "X:" (u +:+ "-USD")) eqn:Ep; [|reflexivity].
      rewrite (prefix_split _ Ep) in Hc. discriminate. }
    cbn [negb].
    assert (Hin : includes "-" ("X:" +:+ u +:+ "-USD") = true).
    { assert (H : includes "-" (u +:+ "-USD") = true).
      { clear. induction u as [|a u IH]; [reflexivity|].
        cbn [String.append]. rewrite includes_dash_cons, IH.
        apply orb_true_r. }
      cbn [String.append]. rewrite !includes_dash_cons, H.
      now rewrite !orb_true_r. }
    rewrite Hin. cbn [String.append replace strip_prefix Ascii.eqb].
    f_equal. f_equal. clear Hin Hc.
    induction u as [|a u IH]; [reflexivity|].
    rewrite includes_dash_cons in Hu. apply orb_false_iff in Hu as [H1 H2].
    cbn [String.append replace strip_prefix]. rewrite Ascii.eqb_sym, H1.
    now rewrite (IH H2). }
  rewrite Hfmt, convertTickerFormat_prefixed, (after_prefix_USD u Hu).
  split; [reflexivity|]. intros Hlen. unfold base_of.
  rewrite length_append in Hlen. cbn in Hlen.
  assert ((String.length u <? 6)%nat = true) as ->
    by (apply Nat.ltb_lt; lia).
  reflexivity.
Qed.

Lemma details_format_round_trip_witness :
  getTickerDetailsFormat "DOGE-USD" = "X:DOGEUSD"
  /\ convertTickerFormat (getTickerDetailsFormat "DOGE-USD") = "DOGE-USD".
Proof.
  split; [reflexivity|].
  exact (proj2 (details_format_round_trip "DOGE-USD" eq_refl)
           ltac:(cbn; lia)).
Defined.

End TickerViewsFacts.

(** ** Candles *)

Module CandleChartFacts.
Import JSNumber JSNumberFacts CandleChart.
Local Open Scope Q_scope.

Lemma neighbours_differ_snoc l c d :
  neighbours_differ (l ++ [c]) -> ~ timestamp c == timestamp d ->
  neighbours_differ ((l ++ [c]) ++ [d]).
Proof.
  induction l as [|a l IH].
  - cbn. auto.
  - destruct l as [|b l].
    + cbn. intros [H1 _] H. auto.
    + intros [H1 H2] H. split; [exact H1|]. now apply IH.
Qed.

Lemma neighbours_differ_replace l c d :
  timestamp d = timestamp c ->
  neighbours_differ (l ++ [c]) -> neighbours_differ (l ++ [d]).
Proof.
  intros Ht. induction l as [|a l IH]; [cbn; auto|].
  destruct l as [|b l].
  - cbn. intros [H1 _]. rewrite Ht. auto.
  - intros [H1 H2]. split; [exact H1|]. now apply IH.
Qed.

Lemma candleTimestamp_of_multiple t :
  exists k : Z, candleTimestamp_of t == inject_Z k * 1000.
Proof.
  exists (Qfloor (t / (1 * 1000))). unfold candleTimestamp_of, Math_floor,
    CANDLE_TIMEFRAME. ring.
Qed.

Lemma updateCandle_chart_ok ok t p st :
  chart_ok st -> chart_ok (updateCandle ok t p st).
Proof.
  unfold chart_ok, candles, updateCandle.
  destruct st as [n cur old]. cbn [currentCandle appended nextIndex].
  intros (Hok & Hidx & Hn & Hnone & Hnb & Hts).
  assert (Hnew : forall i, candle_ok (newCandle i (candleTimestamp_of t) p)).
  { intros i. unfold candle_ok, newCandle. cbn. repeat split; lra. }
  destruct cur as [c|].
  - destruct (strict_neq (timestamp c) (candleTimestamp_of t)) eqn:Hneq.
    + destruct ok; cbn [currentCandle appended nextIndex];
        [|repeat split; assumption].
      split.
      { apply Forall_app. split; [exact Hok|].
        constructor; [apply Hnew|constructor]. }
      split.
      { rewrite List.map_app, Hidx, !List.length_app. cbn [List.length List.map].
        rewrite (Nat.add_1_r (List.length old + 1)), seq_S.
        cbn [index newCandle Nat.add]. rewrite Hn. do 2 f_equal. lia. }
      split; [rewrite List.length_app; cbn [List.length]; lia|].
      split; [discriminate|].
      split.
      { apply neighbours_differ_snoc; [exact Hnb|].
        cbn [timestamp newCandle]. unfold strict_neq in Hneq.
        apply negb_true_iff in Hneq. intros H.
        apply Qeq_bool_iff in H. congruence. }
      apply Forall_app. split; [exact Hts|].
      constructor; [apply candleTimestamp_of_multiple|constructor].
    + cbn [currentCandle appended nextIndex].
      apply Forall_app in Hok as [Hok1 Hok2].
      apply Forall_app in Hts as [Hts1 Hts2].
      inversion Hok2 as [|? ? (H1 & H2 & H3 & H4) _]; subst.
      inversion Hts2 as [|? ? Hk _]; subst.
      split.
      { apply Forall_app. split; [exact Hok1|].
        constructor; [|constructor]. unfold candle_ok. cbn.
        pose proof (Q.le_min_l (low c) p).
        pose proof (Q.le_max_l (high c) p).
        pose proof (Q.le_min_r (low c) p).
        pose proof (Q.le_max_r (high c) p).
        unfold Math_min, Math_max. repeat split; lra. }
      split.
      { rewrite List.map_app, List.length_app in *. exact Hidx. }
      split; [first [exact Hn|reflexivity]|]. split; [discriminate|].
      split; [now apply (neighbours_differ_replace _ c)|].
      apply Forall_app. split; [exact Hts1|].
      constructor; [exact Hk|constructor].
  - rewrite (Hnone eq_refl) in *. cbn [currentCandle appended nextIndex app].
    cbn [List.length] in Hn. subst n.
    split; [constructor; [apply Hnew|constructor]|].
    split; [reflexivity|]. split; [reflexivity|]. split; [discriminate|].
    split; [exact I|].
    constructor; [apply candleTimestamp_of_multiple|constructor].
Qed.

Lemma fresh_chart_ok : chart_ok fresh.
Proof.
  unfold chart_ok, candles, fresh. cbn.
  repeat split; auto; constructor.
Qed.

(** X28.  Whatever trades the effect has seen since the chart was created:
    for every candle, low and high bound the open and the close; the
    candles are numbered 0, 1, 2, ... in the order they were made and the
    current one carries [nextIndex]; the timestamp of every candle is a
    whole number of seconds; and two candles in a row never have the same
    timestamp. *)
Theorem candles_well_formed (trades : list (bool * Q * Q)) :
  let st := updateCandles trades fresh in
  Forall candle_ok (candles st)
  /\ List.map index (candles st) = seq 0 (List.length (candles st))
  /\ nextIndex st = List.length (appended st)
  /\ (forall c, currentCandle st = Some c -> index c = nextIndex st)
  /\ neighbours_differ (candles st)
  /\ Forall (fun c => exists k : Z, timestamp c == inject_Z k * 1000)
       (candles st).
Proof.
  cbv zeta.
  assert (H : chart_ok (updateCandles trades fresh)).
  { unfold updateCandles. generalize fresh fresh_chart_ok.
    induction trades as [|[[ok t] p] trades IH]; intros st Hst; [exact Hst|].
    cbn [fold_left]. apply IH. now apply updateCandle_chart_ok. }
  destruct H as (Hok & Hidx & Hn & Hnone & Hnb & Hts).
  repeat split; try assumption.
  intros c Hc. unfold candles in Hidx. rewrite Hc in Hidx.
  rewrite List.map_app, List.length_app, Nat.add_1_r, seq_S in Hidx.
  cbn [List.map Nat.add] in Hidx.
  apply app_inj_tail in Hidx as [_ Hi]. now rewrite Hn.
Qed.

Lemma candleTimestamp_of_bounds t :
  candleTimestamp_of t <= t /\ t < candleTimestamp_of t + 1000.
Proof.
  unfold candleTimestamp_of, Math_floor, CANDLE_TIMEFRAME.
  pose proof (Qfloor_le (t / (1 * 1000))) as Hlo.
  pose proof (Qlt_floor (t / (1 * 1000))) as Hhi.
  rewrite inject_Z_plus in Hhi. change (inject_Z 1) with 1 in Hhi.
  assert (Ht : t == t / (1 * 1000) * 1000) by field.
  set (x := t / (1 * 1000)) in *. clearbody x.
  set (f := inject_Z (Qfloor x)) in *. clearbody f.
  split; lra.
Qed.

(** X29.  After the effect has run for a trade and the append, if there was
    one, returned: the current candle is the candle of the second the trade
    fell in (its timestamp is at most the time of the trade and less than
    one second before it), its close is the price of the trade, and the
    price lies between its low and its high.  A trade of the same second as
    the current candle appends nothing; a trade of any other second,
    earlier or later, appends the current candle and starts one. *)
Theorem current_candle_covers_latest_trade (t p : Q) (st : ChartState) :
  let st' := updateCandle true t p st in
  (exists c',
     currentCandle st' = Some c'
     /\ timestamp c' == candleTimestamp_of t
     /\ timestamp c' <= t /\ t < timestamp c' + 1000
     /\ close c' = p /\ low c' <= p /\ p <= high c')
  /\ (forall c, currentCandle st = Some c ->
        if Qeq_bool (timestamp c) (candleTimestamp_of t)
        then appended st' = appended st
        else appended st' = appended st ++ [c]).
Proof.
  cbv zeta. unfold updateCandle, strict_neq.
  destruct (candleTimestamp_of_bounds t) as [Hlo Hhi].
  destruct (currentCandle st) as [c|].
  - destruct (Qeq_bool (timestamp c) (candleTimestamp_of t)) eqn:E;
      cbn [negb currentCandle appended].
    + apply Qeq_bool_iff in E. split.
      * eexists. split; [reflexivity|]. cbn.
        pose proof (Q.le_min_r (low c) p).
        pose proof (Q.le_max_r (high c) p).
        unfold Math_min, Math_max. rewrite E. repeat split; auto.
      * intros c0 [= <-]. apply Qeq_bool_iff in E. now rewrite E.
    + split.
      * eexists. split; [reflexivity|]. cbn. repeat split; auto; lra.
      * intros c0 [= <-]. now rewrite E.
  - split; [|discriminate].
    eexists. split; [reflexivity|]. cbn. repeat split; auto; lra.
Qed.

End CandleChartFacts.
